(** * dd_log: the listing extractor and the offer ranker of [utils/dd_utils.py]

    A shallow embedding of [FilterParams.apply], [DD373Product.from_html_element],
    [_filter_valid_offer_item] and the selection part of [get_dd_min_price],
    together with the properties of the extraction-and-ranking pipeline.

    Layout:
    - [Py]      the Python values and builtins the code relies on: exceptions,
                [str] as code points, the string methods and the three regular
                expressions, [int(...)], and the interface of [float];
    - [Soup]    the part of a BeautifulSoup tree the extractor reads: tags,
                classes, [href], text, and CSS selection;
    - [Offers]  the product record, the eligibility filter and the extractor;
    - [Ranker]  the object store, [copy.deepcopy], [sorted], the filter loop
                and [min], and the same computation on values;
    - [DecimalFloat] a reference instance of the float interface;
    - [Samples] listings and offers to run the model on;
    - then the lemmas and the theorems: strings, the extractor (filter,
      rating, purchase URL, quantity, stock), the ranker (frame, values,
      order, sort key, selection). *)

From Stdlib Require Import ZArith NArith List Bool Lia.
From stdpp Require Import base option list strings gmap sorting.

Open Scope Z_scope.

(* ===================================================================== *)
(** ** Python values and builtins *)
(* ===================================================================== *)

Module Py.

(** The exceptions that can occur in the modelled code. *)
Inductive exn : Type :=
| ValueError
| IndexError
| TypeError
| AttributeError
| OverflowError
| ZeroDivisionError.

(** A computation that returns a value or raises. *)
Inductive result (A : Type) : Type :=
| Ok (a : A)
| Raise (e : exn).
Arguments Ok {A} a.
Arguments Raise {A} e.

#[global] Instance result_ret : MRet result := fun A a => Ok a.
#[global] Instance result_bind : MBind result := fun A B k m =>
  match m with
  | Ok a => k a
  | Raise e => Raise e
  end.

(** *** Strings: sequences of Unicode code points *)

Definition char : Type := N.
Definition str : Type := list char.

(** An ASCII literal of the source as code points. *)
Definition lit (s : string) : str :=
  map Ascii.N_of_ascii (String.list_ascii_of_string s).

Definition in_ranges (table : list (N * N)) (c : char) : bool :=
  existsb (fun r => (fst r <=? c)%N && (c <=? snd r)%N) table.

(** [str.isspace] on one character, also the class [\s] of [re] on [str]
    patterns (Unicode 14). *)
Definition space_ranges : list (N * N) :=
  [ (0x9, 0xD); (0x1C, 0x20); (0x85, 0x85); (0xA0, 0xA0); (0x1680, 0x1680);
    (0x2000, 0x200A); (0x2028, 0x2029); (0x202F, 0x202F); (0x205F, 0x205F);
    (0x3000, 0x3000) ]%N.

Definition is_space (c : char) : bool := in_ranges space_ranges c.

(** The decimal digits (category Nd, Unicode 14): [str.isdecimal], the class
    [\d] of [re], and the digits [int] accepts.  Every run starts at a digit
    zero and holds whole decades, so the value of a digit is its offset
    modulo ten. *)
Definition decimal_ranges : list (N * N) :=
  [ (0x30, 0x39); (0x660, 0x669); (0x6F0, 0x6F9); (0x7C0, 0x7C9); (0x966, 0x96F);
    (0x9E6, 0x9EF); (0xA66, 0xA6F); (0xAE6, 0xAEF); (0xB66, 0xB6F); (0xBE6, 0xBEF);
    (0xC66, 0xC6F); (0xCE6, 0xCEF); (0xD66, 0xD6F); (0xDE6, 0xDEF); (0xE50, 0xE59);
    (0xED0, 0xED9); (0xF20, 0xF29); (0x1040, 0x1049); (0x1090, 0x1099);
    (0x17E0, 0x17E9); (0x1810, 0x1819); (0x1946, 0x194F); (0x19D0, 0x19D9);
    (0x1A80, 0x1A89); (0x1A90, 0x1A99); (0x1B50, 0x1B59); (0x1BB0, 0x1BB9);
    (0x1C40, 0x1C49); (0x1C50, 0x1C59); (0xA620, 0xA629); (0xA8D0, 0xA8D9);
    (0xA900, 0xA909); (0xA9D0, 0xA9D9); (0xA9F0, 0xA9F9); (0xAA50, 0xAA59);
    (0xABF0, 0xABF9); (0xFF10, 0xFF19); (0x104A0, 0x104A9); (0x10D30, 0x10D39);
    (0x11066, 0x1106F); (0x110F0, 0x110F9); (0x11136, 0x1113F); (0x111D0, 0x111D9);
    (0x112F0, 0x112F9); (0x11450, 0x11459); (0x114D0, 0x114D9); (0x11650, 0x11659);
    (0x116C0, 0x116C9); (0x11730, 0x11739); (0x118E0, 0x118E9); (0x11950, 0x11959);
    (0x11C50, 0x11C59); (0x11D50, 0x11D59); (0x11DA0, 0x11DA9); (0x16A60, 0x16A69);
    (0x16AC0, 0x16AC9); (0x16B50, 0x16B59); (0x1D7CE, 0x1D7FF); (0x1E140, 0x1E149);
    (0x1E2F0, 0x1E2F9); (0x1E950, 0x1E959); (0x1FBF0, 0x1FBF9) ]%N.

Fixpoint decimal_in (table : list (N * N)) (c : char) : option Z :=
  match table with
  | [] => None
  | (lo, hi) :: rest =>
      if (lo <=? c)%N && (c <=? hi)%N
      then Some (Z.of_N ((c - lo) mod 10))
      else decimal_in rest c
  end.

Definition decimal_value (c : char) : option Z := decimal_in decimal_ranges c.

Definition is_decimal (c : char) : bool :=
  match decimal_value c with Some _ => true | None => false end.

(** [str.isdigit] on one character: the decimal digits and the other
    characters with a digit value (superscripts, circled digits, ...), which
    [int] rejects. *)
Definition other_digit_ranges : list (N * N) :=
  [ (0xB2, 0xB3); (0xB9, 0xB9); (0x1369, 0x1371); (0x19DA, 0x19DA); (0x2070, 0x2070);
    (0x2074, 0x2079); (0x2080, 0x2089); (0x2460, 0x2468); (0x2474, 0x247C);
    (0x2488, 0x2490); (0x24EA, 0x24EA); (0x24F5, 0x24FD); (0x24FF, 0x24FF);
    (0x2776, 0x277E); (0x2780, 0x2788); (0x278A, 0x2792); (0x10A40, 0x10A43);
    (0x10E60, 0x10E68); (0x11052, 0x1105A); (0x1F100, 0x1F10A) ]%N.

Definition is_digit (c : char) : bool :=
  is_decimal c || in_ranges other_digit_ranges c.

(** Characters of the source that are not ASCII. *)
Definition ch_ku : char := 0x5E93%N.            (* 库 *)
Definition ch_cun : char := 0x5B58%N.           (* 存 *)
Definition ch_yuan : char := 0x5143%N.          (* 元 *)
Definition ch_fullwidth_colon : char := 0xFF1A%N. (* ： *)
Definition ch_colon : char := 0x3A%N.           (* : *)
Definition ch_eq : char := 0x3D%N.              (* = *)
Definition ch_dot : char := 0x2E%N.             (* . *)

(** [s.startswith(p)] *)
Fixpoint startswith (s p : str) {struct p} : bool :=
  match p with
  | [] => true
  | c :: p' =>
      match s with
      | [] => false
      | d :: s' => (c =? d)%N && startswith s' p'
      end
  end.

(** [sub in s] *)
Fixpoint contains (s sub : str) : bool :=
  startswith s sub ||
  match s with
  | [] => false
  | _ :: s' => contains s' sub
  end.

(** [s.split(sep)] for a non-empty [sep]: the pieces between the occurrences
    of [sep], found left to right without overlap.  [skip] counts the
    characters of an occurrence still to pass over, [cur] is the piece being
    read (reversed). *)
Fixpoint split_from (sep : str) (skip : nat) (cur : str) (s : str) : list str :=
  match s with
  | [] => [rev cur]
  | c :: s' =>
      match skip with
      | S k => split_from sep k cur s'
      | O =>
          if startswith s sep
          then rev cur :: split_from sep (length sep - 1) [] s'
          else split_from sep 0 (c :: cur) s'
      end
  end.

Definition split (s sep : str) : list str := split_from sep 0 [] s.

(** [sep.join(parts)] *)
Fixpoint join (sep : str) (parts : list str) : str :=
  match parts with
  | [] => []
  | [x] => x
  | x :: rest => x ++ sep ++ join sep rest
  end.

(** [s.replace(old, new)] for a non-empty [old]. *)
Definition replace (s old new : str) : str := join new (split s old).

Fixpoint drop_while (p : char → bool) (s : str) : str :=
  match s with
  | [] => []
  | c :: s' => if p c then drop_while p s' else s
  end.

Fixpoint take_while (p : char → bool) (s : str) : str :=
  match s with
  | [] => []
  | c :: s' => if p c then c :: take_while p s' else []
  end.

(** [s.strip()] *)
Definition lstrip (s : str) : str := drop_while is_space s.
Definition rstrip (s : str) : str := rev (drop_while is_space (rev s)).
Definition strip (s : str) : str := rstrip (lstrip s).

(** [s.isdigit()] *)
Definition isdigit (s : str) : bool :=
  match s with
  | [] => false
  | _ => forallb is_digit s
  end.

(** The value of a run of decimal digits, most significant first. *)
Fixpoint digits_value (acc : Z) (s : str) : option Z :=
  match s with
  | [] => Some acc
  | c :: s' =>
      match decimal_value c with
      | Some d => digits_value (10 * acc + d) s'
      | None => None
      end
  end.

(** [int(s)] on the strings the extractor passes to it: a match of [\d+], or
    a stripped text on which [isdigit()] holds.  Such a string has no sign,
    blank or underscore, so [int] returns its value when every character is a
    decimal digit and raises [ValueError] otherwise.  (The interpreter's
    optional cap on the number of digits is not modelled.) *)
Definition int_of_str (s : str) : result Z :=
  match s with
  | [] => Raise ValueError
  | _ =>
      match digits_value 0 s with
      | Some n => Ok n
      | None => Raise ValueError
      end
  end.

(** [re.search(r'\d+', s)]: the first maximal run of decimal digits. *)
Fixpoint search_digits (s : str) : option str :=
  match s with
  | [] => None
  | c :: s' =>
      if is_decimal c then Some (take_while is_decimal s) else search_digits s'
  end.

(** [re.sub(r'[^\d.]', '', s)]: keep the decimal digits and the periods. *)
Definition keep_digits_and_dots (s : str) : str :=
  List.filter (fun c => is_decimal c || (c =? ch_dot)%N) s.

(** The pattern [库存\s*[：:]\s*(\d+)] matched at the start of [s]; the result
    is group 1.  White space, the two colons and the decimal digits are
    pairwise disjoint, so the greedy match is the only candidate. *)
Definition is_stock_colon (c : char) : bool :=
  (c =? ch_fullwidth_colon)%N || (c =? ch_colon)%N.

Definition match_stock_here (s : str) : option str :=
  match s with
  | a :: b :: s0 =>
      if (a =? ch_ku)%N && (b =? ch_cun)%N then
        match drop_while is_space s0 with
        | c :: s1 =>
            if is_stock_colon c then
              match take_while is_decimal (drop_while is_space s1) with
              | [] => None
              | ds => Some ds
              end
            else None
        | [] => None
        end
      else None
  | _ => None
  end.

(** [re.search(r'库存\s*[：:]\s*(\d+)', s)], group 1 of the leftmost match. *)
Fixpoint search_stock (s : str) : option str :=
  match match_stock_here s with
  | Some ds => Some ds
  | None =>
      match s with
      | [] => None
      | _ :: s' => search_stock s'
      end
  end.

(** *** Floats

    The code parses floats, divides one by an [int], compares them with [<]
    and uses [float('inf')] and [0.0].  No property below depends on how a
    quotient is rounded, so [float] is an interface; [FloatLaws] states the
    facts of IEEE 754 doubles and of CPython that the proofs use. *)
Class Float : Type := {
  float : Type;
  (** [float(s)]; [None] stands for [ValueError], the only exception of
      [float] on a [str] *)
  float_of_str : str → option float;
  (** [x / n] for a float [x] and an int [n] *)
  float_div_int : float → Z → result float;
  (** [x < y] *)
  float_lt : float → float → bool;
  float_isnan : float → bool;
  (** [float('inf')] *)
  float_inf : float;
  (** [0.0] *)
  float_zero : float
}.

(** The least positive int whose conversion to a double overflows. *)
Definition int_too_large : Z := 2 ^ 1024 - 2 ^ 970.

Class FloatLaws (F : Float) : Prop := {
  float_of_str_empty : float_of_str [] = None;
  float_div_zero : ∀ x, float_div_int x 0 = Raise ZeroDivisionError;
  float_div_overflow : ∀ x n,
    int_too_large ≤ Z.abs n → float_div_int x n = Raise OverflowError;
  float_div_defined : ∀ x n,
    n ≠ 0 → Z.abs n < int_too_large → ∃ y, float_div_int x n = Ok y;
  float_div_one : ∀ x, float_div_int x 1 = Ok x;
  float_lt_irrefl : ∀ x, float_lt x x = false;
  float_lt_trans : ∀ x y z,
    float_lt x y = true → float_lt y z = true → float_lt x z = true;
  float_lt_cotrans : ∀ x y z,
    float_isnan y = false → float_lt x z = true →
    float_lt x y = true ∨ float_lt y z = true
}.


(** The characters other than [c]. *)
Definition is_not (c : char) : char → bool := fun d => negb (d =? c)%N.

End Py.
Import Py.


(* ===================================================================== *)
(** ** The BeautifulSoup tree *)
(* ===================================================================== *)

Module Soup.

(** What the extractor reads of an element: its name (lower case, as
    [html.parser] delivers it), the tokens of its [class] attribute and its
    [href] attribute. *)
Record attrs : Type := Attrs {
  tag_name : str;
  classes : list str;
  href : option str
}.

(** A node of the tree: a string or an element.  Comments and the like have
    no text and match no selector, so they are left out. *)
#[warnings="-register-all"]
Inductive node : Type :=
| Text (s : str)
| Elem (a : attrs) (children : list node).

(** A [Tag]: an element with the chain of its parents (nearest first), which
    CSS matching may inspect, and its children. *)
Record Tag : Type := MkTag {
  parents : list attrs;
  attributes : attrs;
  contents : list node
}.

(** [tag.text]: the strings below the tag, in document order. *)
Fixpoint node_text (n : node) : str :=
  match n with
  | Text s => s
  | Elem _ children => flat_map node_text children
  end.

Definition text (t : Tag) : str := flat_map node_text (contents t).

(** [tag.get('href', '')] *)
Definition get_href (t : Tag) : str := default [] (href (attributes t)).

(** The elements at and below a node, in document order. *)
Fixpoint tags_of (ps : list attrs) (n : node) : list Tag :=
  match n with
  | Text _ => []
  | Elem a children => MkTag ps a children :: flat_map (tags_of (a :: ps)) children
  end.

(** [tag.descendants], restricted to elements. *)
Definition descendants (t : Tag) : list Tag :=
  flat_map (tags_of (attributes t :: parents t)) (contents t).

(** A compound selector [name.class] with either part optional, and a
    selector [target] or [within target] (descendant combinator): all the
    selectors of the source have one of these two shapes. *)
Record compound : Type := Compound {
  sel_name : option str;
  sel_class : option str
}.

Record selector : Type := Selector {
  within : option compound;
  target : compound
}.

Definition matches_compound (c : compound) (a : attrs) : bool :=
  match sel_name c with
  | Some n => bool_decide (tag_name a = n)
  | None => true
  end &&
  match sel_class c with
  | Some k => bool_decide (k ∈ classes a)
  | None => true
  end.

(** The ancestor of a descendant combinator may be any parent of the element,
    also one above the tag that [select] is called on. *)
Definition matches (sel : selector) (t : Tag) : bool :=
  matches_compound (target sel) (attributes t) &&
  match within sel with
  | Some c => existsb (matches_compound c) (parents t)
  | None => true
  end.

(** [tag.select(sel)] and [tag.select_one(sel)] *)
Definition select (sel : selector) (t : Tag) : list Tag :=
  List.filter (matches sel) (descendants t).

Definition select_one (sel : selector) (t : Tag) : option Tag :=
  head (select sel t).

Definition by_class (k : string) : selector :=
  Selector None (Compound None (Some (lit k))).
Definition by_name (n : string) : selector :=
  Selector None (Compound (Some (lit n)) None).
Definition by_name_class (n k : string) : selector :=
  Selector None (Compound (Some (lit n)) (Some (lit k))).

End Soup.
Import Soup.

(* ===================================================================== *)
(** ** Products, the eligibility filter and the extractor *)
(* ===================================================================== *)

Module Offers.
Section WithFloat.
Context {F : Float}.

(** [class DD373Product] *)
Record DD373Product : Type := Product {
  title : str;
  url : str;
  product_id : str;
  server_info : str;
  price : float;
  stock : Z;
  exchange_rate_1 : str;
  exchange_rate_2 : str;
  credit_rating : Z;
  purchase_url : str
}.

(** [cls()]: every field at its default. *)
Definition new_product : DD373Product :=
  Product [] [] [] [] float_zero 0 [] [] 0 [].

(** Field assignments [product.f = v]. *)
Definition set_title (v : str) (p : DD373Product) : DD373Product :=
  Product v (url p) (product_id p) (server_info p) (price p) (stock p)
          (exchange_rate_1 p) (exchange_rate_2 p) (credit_rating p) (purchase_url p).
Definition set_url (v : str) (p : DD373Product) : DD373Product :=
  Product (title p) v (product_id p) (server_info p) (price p) (stock p)
          (exchange_rate_1 p) (exchange_rate_2 p) (credit_rating p) (purchase_url p).
Definition set_product_id (v : str) (p : DD373Product) : DD373Product :=
  Product (title p) (url p) v (server_info p) (price p) (stock p)
          (exchange_rate_1 p) (exchange_rate_2 p) (credit_rating p) (purchase_url p).
Definition set_server_info (v : str) (p : DD373Product) : DD373Product :=
  Product (title p) (url p) (product_id p) v (price p) (stock p)
          (exchange_rate_1 p) (exchange_rate_2 p) (credit_rating p) (purchase_url p).
Definition set_price (v : float) (p : DD373Product) : DD373Product :=
  Product (title p) (url p) (product_id p) (server_info p) v (stock p)
          (exchange_rate_1 p) (exchange_rate_2 p) (credit_rating p) (purchase_url p).
Definition set_stock (v : Z) (p : DD373Product) : DD373Product :=
  Product (title p) (url p) (product_id p) (server_info p) (price p) v
          (exchange_rate_1 p) (exchange_rate_2 p) (credit_rating p) (purchase_url p).
Definition set_exchange_rates (v1 v2 : str) (p : DD373Product) : DD373Product :=
  Product (title p) (url p) (product_id p) (server_info p) (price p) (stock p)
          v1 v2 (credit_rating p) (purchase_url p).
Definition set_credit_rating (v : Z) (p : DD373Product) : DD373Product :=
  Product (title p) (url p) (product_id p) (server_info p) (price p) (stock p)
          (exchange_rate_1 p) (exchange_rate_2 p) v (purchase_url p).
Definition set_purchase_url (v : str) (p : DD373Product) : DD373Product :=
  Product (title p) (url p) (product_id p) (server_info p) (price p) (stock p)
          (exchange_rate_1 p) (exchange_rate_2 p) (credit_rating p) v.

(** [class FilterParams]; [None] is Python's [None], which [apply] tests for. *)
Record FilterParams : Type := Params {
  stock_min : option Z;
  level_min : option Z
}.

(** [FilterParams.__init__] *)
Definition FilterParams_init : FilterParams := Params (Some 0) (Some 0).

(** [FilterParams.apply] *)
Definition apply (self : FilterParams) (product : DD373Product) : bool :=
  if match level_min self with
     | Some l => credit_rating product <? l
     | None => false
     end
  then false
  else if match stock_min self with
          | Some s => stock product <? s
          | None => false
          end
  then false
  else true.

(** *** [DD373Product.from_html_element], section by section *)

(** 1. Title and URL *)
Definition step_title (item : Tag) (domain : str) (product : DD373Product)
  : DD373Product :=
  match select_one (by_class "goods-list-title") item with
  | Some title_elem =>
      let product := set_title (strip (text title_elem)) product in
      let href := get_href title_elem in
      let href :=
        match href with
        | [] => href
        | _ => if startswith href (lit "/") then domain ++ href else href
        end in
      let product := set_url href product in
      if contains href (lit "/detail-") then
        (* try: ...[1]...[0]  except IndexError: pass *)
        match split href (lit "/detail-") !! 1%nat with
        | Some rest =>
            match split rest (lit ".html") !! 0%nat with
            | Some id => set_product_id id product
            | None => product
            end
        | None => product
        end
      else product
  | None => product
  end.

(** 2. Server info *)
Definition step_server_info (item : Tag) (product : DD373Product) : DD373Product :=
  match select_one (by_class "game-qufu-attr") item with
  | Some server_info =>
      let servers := map (fun a => strip (text a)) (select (by_name "a") server_info) in
      set_server_info
        (match servers with [] => [] | _ => join (lit "/") servers end) product
  | None => product
  end.

(** 3. Price; a [ValueError] of [float] is caught and gives [0.0]. *)
Definition step_price (item : Tag) (product : DD373Product) : DD373Product :=
  match select_one (by_class "goods-price") item with
  | Some price_elem =>
      match float_of_str (keep_digits_and_dots (text price_elem)) with
      | Some x => set_price x product
      | None => set_price float_zero product
      end
  | None => product
  end.

(** A text on which [int] succeeds whenever [isdigit()] holds: its digits, if
    it consists of digits, are decimal digits. *)
Definition decimal_when_digit (t : str) : Prop :=
  isdigit (strip t) = true → Forall (fun c => is_decimal c = true) (strip t).

(** The guarded conversion [if t.strip().isdigit(): product.stock = int(t.strip())]. *)
Definition stock_from_digits (t : str) (product : DD373Product)
  : result DD373Product :=
  if isdigit (strip t)
  then n ← int_of_str (strip t); Ok (set_stock n product)
  else Ok product.

(** The legacy stock element, [.kucun span]. *)
Definition legacy_stock : selector :=
  Selector (Some (Compound None (Some (lit "kucun")))) (Compound (Some (lit "span")) None).

(** 4. Stock: the labelled number in the reputation container, else the bold
    element there; then, if the stock is 0 at that point, the legacy element. *)
Definition step_stock (item : Tag) (product : DD373Product) : result DD373Product :=
  product ←
    match select_one (by_class "game-reputation") item with
    | Some reputation_div =>
        match search_stock (text reputation_div) with
        | Some digits => n ← int_of_str digits; Ok (set_stock n product)
        | None =>
            match select_one (by_class "bold") reputation_div with
            | Some bold_span => stock_from_digits (text bold_span) product
            | None => Ok product
            end
        end
    | None => Ok product
    end;
  if stock product =? 0 then
    match select_one legacy_stock item with
    | Some stock_elem_old => stock_from_digits (text stock_elem_old) product
    | None => Ok product
    end
  else Ok product.

(** The first two of a list of paragraphs, when there are at least two. *)
Definition rates_of (ps : list Tag) (product : DD373Product) : DD373Product :=
  match ps with
  | p0 :: p1 :: _ => set_exchange_rates (strip (text p0)) (strip (text p1)) product
  | _ => product
  end.

(** 5. Exchange rates *)
Definition step_rates (item : Tag) (product : DD373Product) : DD373Product :=
  match select_one (by_class "kucun") item with
  | Some kucun_div =>
      match select (by_name "p") kucun_div with
      | [] =>
          match select_one (by_class "width233") item with
          | Some old_rate_div => rates_of (select (by_name "p") old_rate_div) product
          | None => product
          end
      | ps => rates_of ps product
      end
  | None => product
  end.

(** The three icon counts of a reputation container. *)
Definition hearts (reputation : Tag) : Z :=
  Z.of_nat (length (select (by_name_class "i" "icon-heart") reputation)).
Definition diamonds (reputation : Tag) : Z :=
  Z.of_nat (length (select (by_name_class "i" "icon-bluediamond") reputation)).
Definition crowns (reputation : Tag) : Z :=
  Z.of_nat (length (select (by_name_class "i" "icon-crown") reputation)).

(** 6. Credit rating *)
Definition step_credit (item : Tag) (product : DD373Product) : DD373Product :=
  match select_one (by_class "game-reputation") item with
  | Some reputation =>
      if hearts reputation >? 0 then set_credit_rating (hearts reputation) product
      else if diamonds reputation >? 0
      then set_credit_rating (5 + diamonds reputation) product
      else if crowns reputation >? 0
      then set_credit_rating (10 + crowns reputation) product
      else product
  | None => product
  end.

Definition buy_button : selector :=
  Selector (Some (Compound None (Some (lit "shop-btn-group"))))
           (Compound (Some (lit "a")) (Some (lit "im-buy-btn"))).

(** 7. Purchase URL *)
Definition step_purchase_url (item : Tag) (product : DD373Product) : DD373Product :=
  match select_one buy_button item with
  | Some buy_btn =>
      let href := get_href buy_btn in
      let href :=
        match href with
        | [] => href
        | _ => if negb (startswith href (lit "http")) then lit "https:" ++ href else href
        end in
      set_purchase_url href product
  | None => product
  end.

(** Sections 1 to 7: the fields as scraped. *)
Definition scrape_fields (item : Tag) (domain : str) : result DD373Product :=
  let product := new_product in
  let product := step_title item domain product in
  let product := step_server_info item product in
  let product := step_price item product in
  product ← step_stock item product;
  let product := step_rates item product in
  let product := step_credit item product in
  let product := step_purchase_url item product in
  Ok product.

(** The local [quantity] and the product after the [try] block of section 8.
    A [ValueError] of [int] is caught and resets [quantity] to 1, the stock
    being untouched. *)
Definition bundle_quantity (product : DD373Product) : Z * DD373Product :=
  match title product with
  | [] => (1, product)
  | _ =>
      if contains (title product) [ch_eq] then
        match split (title product) [ch_eq] !! 0%nat with
        | Some quantity_part =>
            match search_digits quantity_part with
            | Some digits =>
                match int_of_str digits with
                | Ok quantity => (quantity, set_stock (quantity * stock product) product)
                | Raise _ => (1, product)
                end
            | None => (1, product)
            end
        | None => (1, product)
        end
      else (1, product)
  end.

(** 8. Quantity and unit price *)
Definition step_quantity (product : DD373Product) : result DD373Product :=
  let '(quantity, product) := bundle_quantity product in
  if quantity >? 0 then
    unit_price ← float_div_int (price product) quantity;
    Ok (set_price unit_price product)
  else Ok product.

(** [DD373Product.from_html_element] *)
Definition from_html_element (item : Tag) (domain : str) : result DD373Product :=
  product ← scrape_fields item domain;
  step_quantity product.

End WithFloat.
End Offers.
Import Offers.

(* ===================================================================== *)
(** ** The ranker: [_filter_valid_offer_item] and [get_dd_min_price] *)
(* ===================================================================== *)

Module Ranker.
Section WithFloat.
Context {F : Float}.

(** *** The object store

    Lists and products are objects with an identity; a list holds references.
    An address is an index into the store and allocation appends, so the
    objects that exist before a call are a prefix of the store after it. *)
#[local] Abbreviation loc := nat (only parsing).

Inductive object : Type :=
| ObjProduct (p : DD373Product)
| ObjList (items : list loc).

#[local] Abbreviation heap := (list object) (only parsing).

(** A computation on the store that returns or raises. *)
Definition M (A : Type) : Type := heap → heap * result A.

#[global] Instance M_ret : MRet M := fun A a h => (h, Ok a).
#[global] Instance M_bind : MBind M := fun A B k m h =>
  match m h with
  | (h', Ok a) => k a h'
  | (h', Raise e) => (h', Raise e)
  end.

(** A computation that does not touch the store. *)
Definition lift {A : Type} (r : result A) : M A := fun h => (h, r).

(** A new object. *)
Definition alloc (o : object) : M loc := fun h => (h ++ [o], Ok (length h)).

(** The items of a list object; anything else is not iterable. *)
Definition get_list (l : loc) : M (list loc) := fun h =>
  match h !! l with
  | Some (ObjList items) => (h, Ok items)
  | _ => (h, Raise TypeError)
  end.

(** The fields of a product object; anything else lacks them. *)
Definition get_product (l : loc) : M DD373Product := fun h =>
  match h !! l with
  | Some (ObjProduct p) => (h, Ok p)
  | _ => (h, Raise AttributeError)
  end.

(** [l.append(x)]: the list object is updated in place. *)
Definition append (l x : loc) : M unit := fun h =>
  match h !! l with
  | Some (ObjList items) => (<[l := ObjList (items ++ [x])]> h, Ok ())
  | _ => (h, Raise AttributeError)
  end.

(** *** [copy.deepcopy] of a list of products

    [memo] maps the identity of an object already copied to its copy, so an
    object that occurs twice is copied once.  The fields of a product are
    strings and numbers, which [deepcopy] returns as they are. *)
Definition deepcopy_product (memo : gmap loc loc) (a : loc) : M (gmap loc loc * loc) :=
  match memo !! a with
  | Some y => mret (memo, y)
  | None =>
      p ← get_product a;
      y ← alloc (ObjProduct p);
      mret (<[a := y]> memo, y)
  end.

Fixpoint deepcopy_items (memo : gmap loc loc) (items : list loc) (y : loc)
  : M (gmap loc loc) :=
  match items with
  | [] => mret memo
  | a :: rest =>
      '(memo, c) ← deepcopy_product memo a;
      _ ← append y c;
      deepcopy_items memo rest y
  end.

Definition deepcopy (x : loc) : M loc :=
  items ← get_list x;
  y ← alloc (ObjList []);
  _ ← deepcopy_items {[x := y]} items y;
  mret y.

(** *** The sort *)

(** The [key] of the sort: the float after the first ['='] of
    [exchange_rate_2], without ['元'] and blanks, or [float('inf')]. *)
Definition sort_key (x : DD373Product) : result float :=
  if contains (exchange_rate_2 x) [ch_eq]
     && (1 <? length (split (exchange_rate_2 x) [ch_eq]))%nat
  then
    match split (exchange_rate_2 x) [ch_eq] !! 1%nat with
    | Some part =>
        match float_of_str (strip (replace part [ch_yuan] [])) with
        | Some k => Ok k
        | None => Raise ValueError
        end
    | None => Raise IndexError
    end
  else Ok float_inf.

(** The keys of the items, computed in order before any comparison. *)
Fixpoint keyed (items : list loc) : M (list (float * loc)) :=
  match items with
  | [] => mret []
  | x :: rest =>
      p ← get_product x;
      k ← lift (sort_key p);
      keyed_rest ← keyed rest;
      mret ((k, x) :: keyed_rest)
  end.

(** [sorted] is stable and compares keys with [<] only.  On keys that [<]
    orders (no NaN among them) every stable sort yields the same list; it is
    computed here by insertion from the right.  With a NaN among the keys the
    list that CPython yields depends on the steps of its sorting algorithm
    and is not what is computed here: what is stated on the order of the sorted
    offers, or on which of them is returned, is stated for keys without NaN
    only. *)
Fixpoint insert_by_key {A : Type} (kx : float * A) (sorted : list (float * A))
  : list (float * A) :=
  match sorted with
  | [] => [kx]
  | ky :: rest =>
      if float_lt ky.1 kx.1 then ky :: insert_by_key kx rest else kx :: sorted
  end.

Definition sort_by_key {A : Type} (l : list (float * A)) : list (float * A) :=
  foldr insert_by_key [] l.

(** [sorted(l, key=...)]: a new list object. *)
Definition sorted (l : loc) : M loc :=
  items ← get_list l;
  ks ← keyed items;
  alloc (ObjList (map snd (sort_by_key ks))).

(** The loop [for offer in ...: if filterParams.apply(offer): valid_offers.append(offer)]. *)
Fixpoint filter_loop (filterParams : FilterParams) (offers : list loc)
    (valid_offers : loc) : M unit :=
  match offers with
  | [] => mret ()
  | offer :: rest =>
      p ← get_product offer;
      _ ← (if apply filterParams p then append valid_offers offer else mret ());
      filter_loop filterParams rest valid_offers
  end.

(** [_filter_valid_offer_item] *)
Definition _filter_valid_offer_item (listOffers : loc) (filterParams : FilterParams)
  : M loc :=
  offers_copy ← deepcopy listOffers;
  sorted_offers ← sorted offers_copy;
  valid_offers ← alloc (ObjList []);
  offers ← get_list sorted_offers;
  _ ← filter_loop filterParams offers valid_offers;
  mret valid_offers.

(** [min(l, key=lambda product: product.price)] on a non-empty list: the
    current minimum is replaced when a later price is [<] its price. *)
Fixpoint min_loop (best : loc) (best_price : float) (rest : list loc) : M loc :=
  match rest with
  | [] => mret best
  | x :: rest' =>
      p ← get_product x;
      if float_lt (price p) best_price
      then min_loop x (price p) rest'
      else min_loop best best_price rest'
  end.

(** [get_dd_min_price] once the page is scraped: [list_offers] is the list
    that [get_dd373_listings] returned, [DD_STOCKMIN] and [DD_LEVELMIN] are
    the two thresholds of the row. *)
Definition get_dd_min_price (DD_STOCKMIN DD_LEVELMIN : option Z) (list_offers : loc)
  : M (option (float * str * Z)) :=
  let _filterParams := Params DD_STOCKMIN DD_LEVELMIN in
  filter_list ← _filter_valid_offer_item list_offers _filterParams;
  items ← get_list filter_list;
  match items with
  | [] => mret None
  | first :: rest =>
      p ← get_product first;
      min_price_object ← min_loop first (price p) rest;
      q ← get_product min_price_object;
      mret (Some (price q, title q, stock q))
  end.

(** *** The same on values

    What the two functions compute, read off the fields of the products in
    the list, without the store: the keys, the sorted and filtered products,
    the first product of least price.  [get_dd_min_price_values] below shows
    that [get_dd_min_price] returns exactly this.  The order of the sorted
    products is that of [sort_by_key], which is the order of [sorted] for
    keys without NaN. *)
Fixpoint sort_keys (products : list DD373Product) : result (list float) :=
  match products with
  | [] => Ok []
  | p :: rest =>
      k ← sort_key p;
      ks ← sort_keys rest;
      Ok (k :: ks)
  end.

Definition valid_offers_of (filterParams : FilterParams) (products : list DD373Product)
  : result (list DD373Product) :=
  ks ← sort_keys products;
  Ok (List.filter (apply filterParams) (map snd (sort_by_key (zip ks products)))).

Fixpoint cheapest (best : DD373Product) (rest : list DD373Product) : DD373Product :=
  match rest with
  | [] => best
  | p :: rest' =>
      if float_lt (price p) (price best) then cheapest p rest' else cheapest best rest'
  end.

Definition min_price_of (DD_STOCKMIN DD_LEVELMIN : option Z)
    (products : list DD373Product) : result (option (float * str * Z)) :=
  valid ← valid_offers_of (Params DD_STOCKMIN DD_LEVELMIN) products;
  Ok match valid with
     | [] => None
     | first :: rest =>
         let q := cheapest first rest in Some (price q, title q, stock q)
     end.

(** The references [xs] lead to the products [ps]. *)
Definition points_to (h : heap) (xs : list loc) (ps : list DD373Product) : Prop :=
  Forall2 (fun x p => h !! x = Some (ObjProduct p)) xs ps.

(** Every product of [h] is a product of [h'], with the same fields. *)
Definition products_kept (h h' : heap) : Prop :=
  ∀ c p, h !! c = Some (ObjProduct p) → h' !! c = Some (ObjProduct p).

(** *** Predicates used to state the properties of the ranker *)

(** [m] keeps the objects of [h0] as they are, whatever it allocates after
    them, and its result satisfies [Q]. *)
Definition keeps (h0 : heap) {A : Type} (m : M A) (Q : A → Prop) : Prop :=
  ∀ h, h0 `prefix_of` h →
       h0 `prefix_of` (m h).1 ∧ ∀ a, (m h).2 = Ok a → Q a.

(** The memo of a copy of the list [l] into [y]: besides the list itself it
    records products of the caller's store [h] with their copies, which are
    new objects. *)
Definition memo_ok (h : heap) (l y : loc) (memo : gmap loc loc) (hc : heap) : Prop :=
  ∀ a c, memo !! a = Some c →
         (a = l ∧ c = y)
         ∨ ∃ p, h !! a = Some (ObjProduct p) ∧ hc !! c = Some (ObjProduct p)
                ∧ (length h ≤ c)%nat.

(** Two keyed lists with the same keys and related payloads. *)
Definition same_keys {A B : Type} (R : A → B → Prop)
    (la : list (float * A)) (lb : list (float * B)) : Prop :=
  Forall2 (fun u v => u.1 = v.1 ∧ R u.2 v.2) la lb.

(** [v] is not below [u]: two elements in ascending order. *)
Definition not_above {A : Type} (u v : float * A) : Prop := float_lt v.1 u.1 = false.

(** [q] is in [l], no price in [l] is below its price, and every product
    before it has a price above. *)
Definition first_cheapest (q : DD373Product) (l : list DD373Product) : Prop :=
  ∃ before after,
    l = before ++ q :: after
    ∧ Forall (fun p => float_lt (price q) (price p) = true) before
    ∧ Forall (fun p => float_lt (price p) (price q) = false) after.

End WithFloat.

Abbreviation loc := nat (only parsing).
Abbreviation heap := (list object) (only parsing).

End Ranker.
Import Ranker.

(* ===================================================================== *)
(** ** A reference instance of the float interface *)
(* ===================================================================== *)

(** Exact decimal arithmetic: a finite value is a fraction and is never
    rounded.  The instance satisfies [FloatLaws] and serves to run the model
    on concrete listings; the theorems hold for every lawful instance. *)
Module DecimalFloat.

Inductive dfloat : Type :=
| DNan
| DInf (negative : bool)
| DFin (num : Z) (den : positive).

Definition dlt (x y : dfloat) : bool :=
  match x, y with
  | DNan, _ | _, DNan => false
  | DInf true, DInf true => false
  | DInf true, _ => true
  | _, DInf true => false
  | DInf false, _ => false
  | _, DInf false => true
  | DFin a b, DFin c d => a * Z.pos d <? c * Z.pos b
  end.

Definition disnan (x : dfloat) : bool :=
  match x with DNan => true | _ => false end.

Definition ddiv_int (x : dfloat) (n : Z) : result dfloat :=
  if n =? 0 then Raise ZeroDivisionError
  else if int_too_large <=? Z.abs n then Raise OverflowError
  else Ok match x with
          | DNan => DNan
          | DInf s => DInf (xorb s (n <? 0))
          | DFin a b => DFin (a * Z.sgn n) (b * Z.to_pos (Z.abs n))
          end.

(** *** [float(s)]: the grammar of the language reference

    [[sign] (number [exponent] | "inf" | "infinity" | "nan")] between optional
    blanks, with [number ::= [digitpart] "." digitpart | digitpart ["."]],
    [digitpart ::= digit (["_"] digit)*] and letters in either case.  Unicode
    decimal digits count as their ASCII digit. *)

(** A [digitpart] at the start of [s]: its digits (reversed onto [acc]) and
    the rest.  [fresh] is true where a digit is required. *)
Fixpoint digitpart (fresh : bool) (acc : list Z) (s : str) : option (list Z * str) :=
  match s with
  | c :: s' =>
      match decimal_value c with
      | Some d => digitpart false (d :: acc) s'
      | None =>
          if fresh then None
          else if (c =? 0x5F)%N then
            match s' with
            | c' :: _ =>
                if is_decimal c' then digitpart true acc s' else Some (acc, s)
            | [] => Some (acc, s)
            end
          else Some (acc, s)
      end
  | [] => if fresh then None else Some (acc, s)
  end.

Definition digits_to_Z (ds : list Z) : Z :=
  fold_right (fun d acc => 10 * acc + d) 0 ds.

(** ASCII lower case of a letter. *)
Definition lower (c : char) : char :=
  if (0x41 <=? c)%N && (c <=? 0x5A)%N then (c + 32)%N else c.

Definition parse_sign (s : str) : bool * str :=
  match s with
  | c :: s' =>
      if (c =? 0x2D)%N then (true, s')
      else if (c =? 0x2B)%N then (false, s')
      else (false, s)
  | [] => (false, s)
  end.

(** The mantissa digits (reversed), the number of fraction digits, the rest. *)
Definition parse_number (s : str) : option (list Z * nat * str) :=
  match digitpart true [] s with
  | Some (ip, rest) =>
      match rest with
      | c :: rest' =>
          if (c =? ch_dot)%N then
            match digitpart true ip rest' with
            | Some (all, rest'') => Some (all, (length all - length ip)%nat, rest'')
            | None => Some (ip, 0%nat, rest')
            end
          else Some (ip, 0%nat, rest)
      | [] => Some (ip, 0%nat, rest)
      end
  | None =>
      match s with
      | c :: rest' =>
          if (c =? ch_dot)%N then
            match digitpart true [] rest' with
            | Some (fp, rest'') => Some (fp, length fp, rest'')
            | None => None
            end
          else None
      | [] => None
      end
  end.

Definition parse_exponent (s : str) : option Z :=
  match s with
  | [] => Some 0
  | c :: s' =>
      if (lower c =? 0x65)%N then
        let '(neg, s'') := parse_sign s' in
        match digitpart true [] s'' with
        | Some (ds, []) => Some (if neg then - digits_to_Z ds else digits_to_Z ds)
        | _ => None
        end
      else None
  end.

(** A decimal [m * 10^e]; a value that a double cannot hold becomes an
    infinity, as in [float('1e400')]. *)
Definition of_decimal (neg : bool) (m e : Z) : dfloat :=
  let m' := if neg then - m else m in
  if e <? 0 then
    if int_too_large * 10 ^ (- e) <=? m then DInf neg
    else DFin m' (Z.to_pos (10 ^ (- e)))
  else
    if int_too_large <=? m * 10 ^ e then DInf neg
    else DFin (m' * 10 ^ e) 1.

Definition dfloat_of_str (s : str) : option dfloat :=
  let '(neg, body) := parse_sign (strip s) in
  let word := map lower body in
  if bool_decide (word = lit "inf") || bool_decide (word = lit "infinity")
  then Some (DInf neg)
  else if bool_decide (word = lit "nan") then Some DNan
  else
    match parse_number body with
    | Some (ds, frac, rest) =>
        match parse_exponent rest with
        | Some e => Some (of_decimal neg (digits_to_Z ds) (e - Z.of_nat frac))
        | None => None
        end
    | None => None
    end.

#[global] Instance decimal_float : Float := {|
  float := dfloat;
  float_of_str := dfloat_of_str;
  float_div_int := ddiv_int;
  float_lt := dlt;
  float_isnan := disnan;
  float_inf := DInf false;
  float_zero := DFin 0 1
|}.

End DecimalFloat.
Import DecimalFloat.

(* ===================================================================== *)
(** ** Sample listings and offers *)
(* ===================================================================== *)

Module Samples.

Definition el (name : string) (cls : list string) (children : list node) : node :=
  Elem (Attrs (lit name) (map lit cls) None) children.

Definition link (cls : list string) (target : string) (children : list node) : node :=
  Elem (Attrs (lit "a") (map lit cls) (Some (lit target))) children.

Definition txt (s : string) : node := Text (lit s).

(** A [div.goods-list-item] taken from the page [<html><body>...]. *)
Definition listing (children : list node) : Tag :=
  MkTag [Attrs (lit "body") [] None; Attrs (lit "html") [] None]
        (Attrs (lit "div") [lit "goods-list-item"] None) children.

Definition domain : str := lit "https://www.dd373.com".

Definition ch_zuan : char := 0x94BB%N.  (* 钻 *)
Definition ch_yen : char := 0xFFE5%N.   (* ￥ *)

(** The label [库存：] followed by a number. *)
Definition stock_label (n : string) : node :=
  Text ([ch_ku; ch_cun; ch_fullwidth_colon] ++ lit n).

Definition price_tag (amount : string) : node :=
  Elem (Attrs (lit "span") [lit "goods-price"] None) [Text (ch_yen :: lit amount)].

Definition heart : node := el "i" ["icon-heart"] [].
Definition diamond : node := el "i" ["icon-bluediamond"] [].
Definition crown : node := el "i" ["icon-crown"] [].

(** The two rate lines [1元=17.5439钻] and [1钻=0.0570元]. *)
Definition rate_lines : node :=
  el "div" ["kucun"]
    [ el "p" [] [Text (lit "1" ++ [ch_yuan] ++ lit "=17.5439" ++ [ch_zuan])];
      el "p" [] [Text (lit "1" ++ [ch_zuan] ++ lit "=0.0570" ++ [ch_yuan])] ].

Definition page_parents : list attrs :=
  [Attrs (lit "div") [lit "goods-list-item"] None;
   Attrs (lit "body") [] None; Attrs (lit "html") [] None].

(** A reputation container, as a node and as the tag [select_one] returns. *)
Definition reputation_box (children : list node) : node :=
  el "div" ["game-reputation"] children.
Definition reputation_tag (children : list node) : Tag :=
  MkTag page_parents (Attrs (lit "div") [lit "game-reputation"] None) children.

Definition buy_link (target : string) : node :=
  el "div" ["shop-btn-group"] [link ["im-buy-btn"] target [txt "buy"]].
Definition buy_link_tag (target : string) : Tag :=
  MkTag (Attrs (lit "div") [lit "shop-btn-group"] None :: page_parents)
        (Attrs (lit "a") [lit "im-buy-btn"] (Some (lit target))) [txt "buy"].

(** A listing with every field: a bundle of 1000 at 103.10, 7 bundles in
    stock, three hearts and a diamond, a site-relative buy link. *)
Definition full_reputation : list node :=
  [heart; heart; heart; diamond; el "span" [] [stock_label " 7"]].

Definition full_listing : Tag :=
  listing
    [ link ["goods-list-title"] "/detail-abc123.html" [txt " 1000 gold=100 yuan "];
      el "div" ["game-qufu-attr"] [link [] "/a1" [txt "Area 1"]; link [] "/s2" [txt "Server 2 "]];
      price_tag "103.10";
      reputation_box full_reputation;
      rate_lines;
      buy_link "/order" ].

(** A listing with a title only. *)
Definition bare_listing : Tag :=
  listing [ link ["goods-list-title"] "https://www.dd373.com/x.html" [txt "gold"] ].


(** The labelled stock is 0 and the legacy element says 7. *)
Definition sold_out_listing : Tag :=
  listing
    [ link ["goods-list-title"] "/detail-2.html" [txt "gold"];
      reputation_box [heart; stock_label "0"];
      el "div" ["kucun"] [el "span" [] [txt "7"]] ].

(** A listing whose second rate line has no number after the ['=']:
    [1钻=abc元]. *)
Definition malformed_rate_listing : Tag :=
  listing
    [ link ["goods-list-title"] "/detail-3.html" [txt "D"];
      price_tag "9.0";
      reputation_box [heart; heart; heart; heart];
      el "div" ["kucun"]
        [ el "p" [] [Text (lit "1" ++ [ch_yuan] ++ lit "=10" ++ [ch_zuan])];
          el "p" [] [Text (lit "1" ++ [ch_zuan] ++ lit "=abc" ++ [ch_yuan])] ] ].

(** Six crowns. *)
Definition six_crowns_listing : Tag :=
  listing [ reputation_box [crown; crown; crown; crown; crown; crown] ].

(** *** Offers in the store *)

(** An offer with a name, a unit price, a stock, a rating and the second
    rate line. *)
Definition offer (name : string) (unit_price : dfloat) (units rating : Z) (rate2 : str)
  : DD373Product (F := decimal_float) :=
  Product (lit name) [] [] [] unit_price units [] rate2 rating [].

(** The rate line [1钻=...元]. *)
Definition rate_line (amount : string) : str :=
  lit "1" ++ [ch_zuan] ++ lit "=" ++ lit amount ++ [ch_yuan].

(** A store that holds the offers and, after them, the list of them: the
    list is the object at address [length offers]. *)
Definition store_of (offers : list (DD373Product (F := decimal_float))) : heap :=
  map ObjProduct offers ++ [ObjList (seq 0 (length offers))].

Definition offer_A := offer "A" (DFin 100 10) 5 3 (rate_line "0.0570").
Definition offer_B := offer "B" (DFin 80 10) 0 10 (rate_line "0.0400").
Definition offer_C := offer "C" (DFin 100 10) 9 2 (rate_line "0.0300").
(** An offer whose rate line has no number after the ['=']. *)
Definition offer_bad := offer "D" (DFin 90 10) 0 4 (rate_line "abc").

(** The products the extractor returns for them, with the reference floats. *)
Definition full_product : DD373Product (F := decimal_float) :=
  Product (lit "1000 gold=100 yuan")
          (lit "https://www.dd373.com/detail-abc123.html")
          (lit "abc123")
          (lit "Area 1/Server 2")
          (DFin 10310 100000)
          7000
          (lit "1" ++ [ch_yuan] ++ lit "=17.5439" ++ [ch_zuan])
          (lit "1" ++ [ch_zuan] ++ lit "=0.0570" ++ [ch_yuan])
          3
          (lit "https:/order").

Definition bare_product : DD373Product (F := decimal_float) :=
  Product (lit "gold") (lit "https://www.dd373.com/x.html") [] [] (DFin 0 1) 0 [] [] 0 [].



Definition malformed_rate_product : DD373Product (F := decimal_float) :=
  Product (lit "D") (lit "https://www.dd373.com/detail-3.html") (lit "3") []
          (DFin 90 10) 0
          (lit "1" ++ [ch_yuan] ++ lit "=10" ++ [ch_zuan]) (rate_line "abc") 4 [].

Definition six_crowns_product : DD373Product (F := decimal_float) :=
  Product [] [] [] [] (DFin 0 1) 0 [] [] 16 [].

Definition sold_out_product : DD373Product (F := decimal_float) :=
  Product (lit "gold") (lit "https://www.dd373.com/detail-2.html") (lit "2") []
          (DFin 0 1) 7 [] [] 1 [].

End Samples.
Import Samples.

(* ===================================================================== *)
(** ** The listing collector *)
(* ===================================================================== *)

Module Collector.

(** [sep] occurs in [s] at index [n] and at no index before. *)
Definition first_at (s sep : str) (n : nat) : Prop :=
  startswith (drop n s) sep = true
  ∧ ∀ i, (i < n)%nat → startswith (drop i s) sep = false.

Definition ch_slash : char := 0x2F%N.  (* / *)

(** The threshold [a] asks no more than [b]: it is absent, or both are
    numbers and [a] is the lower one. *)
Definition threshold_le (a b : option Z) : Prop :=
  match a, b with
  | None, _ => True
  | Some x, Some y => x ≤ y
  | Some _, None => False
  end.

(** A text that [isdigit()] accepts and [int] rejects: it consists of digits,
    one of which is not a decimal digit. *)
Definition digit_not_decimal (t : str) : Prop :=
  isdigit (strip t) = true ∧ Exists (fun c => is_decimal c = false) (strip t).

(** [url.split('/s-')[0] if '/s-' in url else 'https://www.dd373.com'] *)
Definition listing_domain (url : str) : result str :=
  if contains url (lit "/s-") then
    match split url (lit "/s-") !! 0%nat with
    | Some d => Ok d
    | None => Raise IndexError
    end
  else Ok (lit "https://www.dd373.com").

(** The selector ['div.goods-list-item'] of the listing containers. *)
Definition goods_list_item : selector := by_name_class "div" "goods-list-item".

Section WithFloat.
Context {F : Float}.

(** The comprehension [[DD373Product.from_html_element(item, domain) for item
    in goods_list_items]]: every record is a new object, appended to the list
    [listings] under construction; the first extraction that raises ends
    it. *)
Fixpoint extract_all (goods_list_items : list Tag) (domain : str) (listings : loc)
  : M unit :=
  match goods_list_items with
  | [] => mret ()
  | item :: rest =>
      product ← lift (from_html_element item domain);
      x ← alloc (ObjProduct product);
      _ ← append listings x;
      extract_all rest domain listings
  end.

(** [get_dd373_listings] from the page on: [soup] is the tree that
    [BeautifulSoup(page_source, 'html.parser')] builds of the page source the
    polling loop ends with.  The browser and the clock of that loop are not
    modelled. *)
Definition get_dd373_listings (url : str) (soup : Tag) : M loc :=
  domain ← lift (listing_domain url);
  let goods_list_items := select goods_list_item soup in
  listings ← alloc (ObjList []);
  _ ← extract_all goods_list_items domain listings;
  mret listings.

(** [get_dd_min_price] with its call of [get_dd373_listings]: the fields
    [DD_STOCKMIN], [DD_LEVELMIN] and [DD_PRODUCT_LINK] of the row and the
    tree of the page behind the link. *)
Definition get_dd_min_price_of_page (DD_STOCKMIN DD_LEVELMIN : option Z)
    (DD_PRODUCT_LINK : str) (soup : Tag) : M (option (float * str * Z)) :=
  _ ← alloc (ObjList []);
  list_offers ← get_dd373_listings DD_PRODUCT_LINK soup;
  get_dd_min_price DD_STOCKMIN DD_LEVELMIN list_offers.

(** *** The same on values *)

(** The records of the containers, in order, or the first exception. *)
Fixpoint extract_records (goods_list_items : list Tag) (domain : str)
  : result (list DD373Product) :=
  match goods_list_items with
  | [] => Ok []
  | item :: rest =>
      product ← from_html_element item domain;
      products ← extract_records rest domain;
      Ok (product :: products)
  end.

Definition page_records (url : str) (soup : Tag) : result (list DD373Product) :=
  domain ← listing_domain url;
  extract_records (select goods_list_item soup) domain.

(** *** Groups of fields, to state which section writes what *)

Definition title_fields (p : DD373Product) : str * str * str :=
  (title p, url p, product_id p).

Definition rate_fields (p : DD373Product) : str * str :=
  (exchange_rate_1 p, exchange_rate_2 p).

(** *** Predicates used to state the properties of the ranker *)

(** The keys [a] and [b] are tied: neither is below the other. *)
Definition tied (a b : float) : bool := negb (float_lt a b) && negb (float_lt b a).

(** The key of [p] is a float tied with [k]. *)
Definition key_tied_with (k : float) (p : DD373Product) : bool :=
  match sort_key p with
  | Ok k' => tied k k'
  | Raise _ => false
  end.

(** The key of [q] is not below the key of [p]. *)
Definition key_not_above (p q : DD373Product) : Prop :=
  ∀ kp kq, sort_key p = Ok kp → sort_key q = Ok kq → float_lt kq kp = false.

End WithFloat.
End Collector.
Import Collector.

(* ===================================================================== *)
(** ** Sample pages *)
(* ===================================================================== *)

Module Pages.

Definition ch_superscript_two : char := 0xB2%N.  (* ² *)

(** A listing whose bold stock text is a superscript two: a digit for
    [isdigit], not one for [int]. *)
Definition superscript_bold : Tag :=
  MkTag (Attrs (lit "div") [lit "game-reputation"] None :: page_parents)
        (Attrs (lit "span") [lit "bold"] None) [Text [ch_superscript_two]].

Definition superscript_listing : Tag :=
  listing
    [ link ["goods-list-title"] "/detail-4.html" [txt "gold"];
      reputation_box [heart; el "span" ["bold"] [Text [ch_superscript_two]]] ].




(** A listing whose price text has no number: [面议]. *)
Definition negotiable_price : Tag :=
  MkTag page_parents (Attrs (lit "span") [lit "goods-price"] None)
        [Text [0x9762%N; 0x8BAE%N]].

Definition negotiable_listing : Tag :=
  listing
    [ link ["goods-list-title"] "/detail-7.html" [txt "gold"];
      Elem (Attrs (lit "span") [lit "goods-price"] None) [Text [0x9762%N; 0x8BAE%N]];
      reputation_box [heart; stock_label "3"] ].

Definition negotiable_raw : DD373Product (F := decimal_float) :=
  Product (lit "gold") (lit "https://www.dd373.com/detail-7.html") (lit "7") []
          (DFin 0 1) 3 [] [] 1 [].

(** A listing container without any element inside. *)
Definition empty_listing : Tag := listing [txt "sold out"].

(** The page [<html><body>...] with the given listing containers. *)
Definition page (items : list (list node)) : Tag :=
  MkTag [] (Attrs (lit "[document]") [] None)
    [ el "html" []
        [ el "body" []
            (map (Elem (Attrs (lit "div") [lit "goods-list-item"] None)) items) ] ].

Definition search_url : str :=
  lit "https://www.dd373.com/s-9fv09v-5tgdjq.html".

(** A listing container of such a page, as [select] returns it. *)
Definition page_item (children : list node) : Tag :=
  MkTag [Attrs (lit "body") [] None; Attrs (lit "html") [] None;
         Attrs (lit "[document]") [] None]
        (Attrs (lit "div") [lit "goods-list-item"] None) children.

(** A page with the full and the bare listing, and one on which the second
    listing has the superscript stock. *)
Definition sample_page : Tag := page [contents full_listing; contents bare_listing].
Definition bad_page : Tag := page [contents full_listing; contents superscript_listing].

(** A relative title link and one rate paragraph only. *)
Definition one_rate_listing : Tag :=
  listing
    [ link ["goods-list-title"] "/detail-5.html?from=/detail-6.html" [txt "gold"];
      el "div" ["kucun"] [el "p" [] [txt "1=2"]];
      el "div" ["width233"] [el "p" [] [txt "1=3"]; el "p" [] [txt "1=4"]] ].

(** Six hearts and a diamond. *)
Definition six_hearts_reputation : list node :=
  [heart; heart; heart; heart; heart; heart; diamond].

Definition six_hearts_listing : Tag :=
  listing [ reputation_box six_hearts_reputation ].

Definition six_hearts_product : DD373Product (F := decimal_float) :=
  Product [] [] [] [] (DFin 0 1) 0 [] [] 6 [].

(** Two offers without a rate line at the same price, and an offer whose
    rate line has a second ['=']. *)
Definition offer_E := offer "E" (DFin 50 10) 4 2 [].
Definition offer_G := offer "G" (DFin 50 10) 6 2 [].
Definition offer_H := offer "H" (DFin 70 10) 1 1 (lit "1=0.5=7").

End Pages.
Import Pages.

(* ===================================================================== *)
(** ** Facts about the string functions *)
(* ===================================================================== *)

Section StringFacts.

Lemma startswith_single (c d : char) (s : str) :
  startswith (d :: s) [c] = bool_decide (c = d).
Proof.
  simpl. rewrite andb_true_r.
  destruct (N.eqb_spec c d);
    [by rewrite bool_decide_eq_true_2|by rewrite bool_decide_eq_false_2].
Qed.

(** [c in s] for a single character is membership. *)
Lemma contains_single (c : char) (s : str) :
  contains s [c] = true ↔ c ∈ s.
Proof.
  induction s as [|d s IH].
  - simpl. split; [done|]. by intros ?%elem_of_nil.
  - cbn [contains]. rewrite startswith_single, orb_true_iff, IH.
    rewrite bool_decide_eq_true, elem_of_cons. done.
Qed.

Lemma contains_single_false (c : char) (s : str) :
  contains s [c] = false ↔ c ∉ s.
Proof.
  rewrite <- contains_single. destruct (contains s [c]); naive_solver.
Qed.

(** Splitting at a one-character separator: the first piece is the text
    before the first occurrence, the remaining pieces are those of the text
    after it. *)
Lemma split_from_single (c : char) (cur before after : str) :
  c ∉ before →
  split_from [c] 0 cur (before ++ c :: after)
  = (rev cur ++ before) :: split_from [c] 0 [] after.
Proof.
  revert cur. induction before as [|d before IH]; intros cur Hnot.
  - cbn [app split_from]. rewrite startswith_single, bool_decide_eq_true_2 by done.
    by rewrite app_nil_r.
  - apply not_elem_of_cons in Hnot as [Hne Hnot].
    cbn [app split_from]. rewrite startswith_single, bool_decide_eq_false_2 by done.
    rewrite IH by done. cbn [rev]. by rewrite <- app_assoc.
Qed.

Lemma split_from_single_none (c : char) (cur s : str) :
  c ∉ s → split_from [c] 0 cur s = [rev cur ++ s].
Proof.
  revert cur. induction s as [|d s IH]; intros cur Hnot.
  - simpl. by rewrite app_nil_r.
  - apply not_elem_of_cons in Hnot as [Hne Hnot].
    cbn [split_from]. rewrite startswith_single, bool_decide_eq_false_2 by done.
    rewrite IH by done. cbn [rev]. by rewrite <- app_assoc.
Qed.

Lemma split_single (c : char) (before after : str) :
  c ∉ before →
  split (before ++ c :: after) [c] = before :: split after [c].
Proof. intros. unfold split. by rewrite split_from_single. Qed.

Lemma split_single_none (c : char) (s : str) :
  c ∉ s → split s [c] = [s].
Proof. intros. unfold split. by rewrite split_from_single_none. Qed.

(** Any string is the text before its first [c], then [c] and a rest, or has
    no [c]. *)
Lemma first_occurrence (c : char) (s : str) :
  c ∉ s ∨ ∃ before after, s = before ++ c :: after ∧ c ∉ before.
Proof.
  induction s as [|d s IH].
  - left. by intros ?%elem_of_nil.
  - destruct (decide (c = d)) as [->|Hne].
    + right. exists [], s. split; [done|]. by intros ?%elem_of_nil.
    + destruct IH as [Hnot|(before & after & -> & Hnot)].
      * left. by apply not_elem_of_cons.
      * right. exists (d :: before), after. split; [done|].
        by apply not_elem_of_cons.
Qed.

Lemma split_nonempty (s sep : str) : split s sep ≠ [].
Proof.
  unfold split. generalize 0%nat. generalize (@nil char).
  induction s as [|d s IH]; intros cur n; [done|].
  cbn [split_from]. destruct n; [|apply IH].
  destruct (startswith (d :: s) sep); [done|apply IH].
Qed.

(** *** Decimal digits *)

Lemma decimal_in_range (table : list (N * N)) (c : char) (d : Z) :
  decimal_in table c = Some d → 0 ≤ d ≤ 9.
Proof.
  induction table as [|[lo hi] table IH]; simpl; [done|].
  destruct (_ && _); [|done].
  intros [= <-].
  pose proof (N.mod_upper_bound (c - lo) 10 ltac:(done)) as Hlt.
  apply N2Z.inj_lt in Hlt. change (Z.of_N 10) with 10 in Hlt.
  pose proof (N2Z.is_nonneg ((c - lo) mod 10)). lia.
Qed.

Lemma decimal_value_range (c : char) (d : Z) :
  decimal_value c = Some d → 0 ≤ d ≤ 9.
Proof. apply decimal_in_range. Qed.

Lemma digits_value_nonneg (s : str) (acc n : Z) :
  0 ≤ acc → digits_value acc s = Some n → 0 ≤ n.
Proof.
  revert acc. induction s as [|c s IH]; intros acc Hacc; simpl.
  - by intros [= <-].
  - destruct (decimal_value c) as [d|] eqn:Hd; [|done].
    apply decimal_value_range in Hd. apply IH. lia.
Qed.

Lemma digits_value_decimal (s : str) (acc : Z) :
  Forall (fun c => is_decimal c = true) s → is_Some (digits_value acc s).
Proof.
  revert acc. induction s as [|c s IH]; intros acc Hall; simpl; [done|].
  inversion_clear Hall as [|?? Hc Hs]. unfold is_decimal in Hc.
  destruct (decimal_value c); [by apply IH|done].
Qed.

Lemma take_while_all (p : char → bool) (s : str) :
  Forall (fun c => p c = true) (take_while p s).
Proof.
  induction s as [|c s IH]; simpl; [done|].
  destruct (p c) eqn:Hc; by constructor.
Qed.

(** [int] never fails on a run of decimal digits, and its value is not
    negative. *)
Lemma int_of_str_decimal (s : str) :
  s ≠ [] → Forall (fun c => is_decimal c = true) s →
  ∃ n, int_of_str s = Ok n ∧ digits_value 0 s = Some n ∧ 0 ≤ n.
Proof.
  intros Hne Hall. destruct (digits_value_decimal s 0 Hall) as [n Hn].
  exists n. unfold int_of_str. rewrite Hn.
  split; [by destruct s|]. split; [done|].
  by eapply digits_value_nonneg.
Qed.


Lemma drop_while_head (p : char → bool) (s : str) :
  match drop_while p s with [] => True | c :: _ => p c = false end.
Proof.
  induction s as [|c s IH]; simpl; [done|].
  destruct (p c) eqn:Hc; [done|by simpl].
Qed.



End StringFacts.

(* ===================================================================== *)
(** ** The reference floats satisfy the laws *)
(* ===================================================================== *)

Lemma dlt_fin_trans (a c e : Z) (b d f : positive) :
  a * Z.pos d < c * Z.pos b → c * Z.pos f < e * Z.pos d → a * Z.pos f < e * Z.pos b.
Proof.
  intros H1 H2.
  apply (Z.mul_lt_mono_pos_r (Z.pos d)); [lia|].
  apply Z.lt_trans with (c * Z.pos b * Z.pos f).
  - replace (a * Z.pos f * Z.pos d) with (a * Z.pos d * Z.pos f) by ring.
    apply Z.mul_lt_mono_pos_r; lia.
  - replace (c * Z.pos b * Z.pos f) with (c * Z.pos f * Z.pos b) by ring.
    replace (e * Z.pos b * Z.pos d) with (e * Z.pos d * Z.pos b) by ring.
    apply Z.mul_lt_mono_pos_r; lia.
Qed.

Lemma dlt_fin_cotrans (a c e : Z) (b d f : positive) :
  a * Z.pos f < e * Z.pos b → a * Z.pos d < c * Z.pos b ∨ c * Z.pos f < e * Z.pos d.
Proof.
  intros H.
  destruct (Z.lt_ge_cases (a * Z.pos d) (c * Z.pos b)) as [|Hge]; [by left|right].
  destruct (Z.lt_ge_cases (c * Z.pos f) (e * Z.pos d)) as [|Hge']; [done|exfalso].
  assert (e * Z.pos d * Z.pos b ≤ c * Z.pos f * Z.pos b)
    by (apply Z.mul_le_mono_nonneg_r; lia).
  assert (c * Z.pos b * Z.pos f ≤ a * Z.pos d * Z.pos f)
    by (apply Z.mul_le_mono_nonneg_r; lia).
  assert (a * Z.pos f * Z.pos d < e * Z.pos b * Z.pos d)
    by (apply Z.mul_lt_mono_pos_r; lia).
  lia.
Qed.

#[global] Instance decimal_float_laws : FloatLaws decimal_float.
Proof.
  split; simpl.
  - reflexivity.
  - intros x. reflexivity.
  - intros x n Hn. unfold ddiv_int.
    destruct (Z.eqb_spec n 0) as [->|_].
    + exfalso. revert Hn. by vm_compute.
    + by rewrite (proj2 (Z.leb_le _ _) Hn).
  - intros x n Hn Hlt. unfold ddiv_int.
    rewrite (proj2 (Z.eqb_neq _ _) Hn), (proj2 (Z.leb_gt _ _) Hlt). eauto.
  - intros [| |a b]; unfold ddiv_int; simpl; try reflexivity.
    + by destruct negative.
    + by rewrite Z.mul_1_r, Pos.mul_1_r.
  - intros [|[]|a b]; simpl; try reflexivity. apply Z.ltb_irrefl.
  - intros [|[]|a b] [|[]|c d] [|[]|e f]; simpl; try done.
    rewrite !Z.ltb_lt. apply dlt_fin_trans.
  - intros [|[]|a b] [|[]|c d] [|[]|e f]; simpl; try done; try (by left);
      try (by right); try tauto.
    intros _. rewrite !Z.ltb_lt. apply dlt_fin_cotrans.
Qed.

(* ===================================================================== *)
(** ** Facts about the extractor *)
(* ===================================================================== *)

Section ExtractorFacts.
Context {F : Float}.

Implicit Types (item : Tag) (domain : str) (p product raw : DD373Product).

Lemma set_stock_same p : set_stock (stock p) p = p.
Proof. by destruct p. Qed.

Lemma set_stock_twice (n m : Z) p : set_stock n (set_stock m p) = set_stock n p.
Proof. by destruct p. Qed.

(** The sections that cannot raise are settled by cases on their matches. *)
Ltac unfold_steps :=
  unfold step_title, step_server_info, step_price, step_rates, rates_of,
    step_credit, step_purchase_url.

Ltac by_cases := intros; unfold_steps; repeat case_match; reflexivity.

(** *** Which section writes which field *)

Lemma credit_rating_step_title item domain p :
  credit_rating (step_title item domain p) = credit_rating p.
Proof. by_cases. Qed.

Lemma credit_rating_step_server_info item p :
  credit_rating (step_server_info item p) = credit_rating p.
Proof. by_cases. Qed.

Lemma credit_rating_step_price item p :
  credit_rating (step_price item p) = credit_rating p.
Proof. by_cases. Qed.

Lemma credit_rating_step_rates item p :
  credit_rating (step_rates item p) = credit_rating p.
Proof. by_cases. Qed.

Lemma credit_rating_step_purchase_url item p :
  credit_rating (step_purchase_url item p) = credit_rating p.
Proof. by_cases. Qed.

Lemma purchase_url_step_title item domain p :
  purchase_url (step_title item domain p) = purchase_url p.
Proof. by_cases. Qed.

Lemma purchase_url_step_server_info item p :
  purchase_url (step_server_info item p) = purchase_url p.
Proof. by_cases. Qed.

Lemma purchase_url_step_price item p :
  purchase_url (step_price item p) = purchase_url p.
Proof. by_cases. Qed.

Lemma purchase_url_step_rates item p :
  purchase_url (step_rates item p) = purchase_url p.
Proof. by_cases. Qed.

Lemma purchase_url_step_credit item p :
  purchase_url (step_credit item p) = purchase_url p.
Proof. by_cases. Qed.

Lemma stock_step_title item domain p :
  stock (step_title item domain p) = stock p.
Proof. by_cases. Qed.

Lemma stock_step_server_info item p :
  stock (step_server_info item p) = stock p.
Proof. by_cases. Qed.

Lemma stock_step_price item p : stock (step_price item p) = stock p.
Proof. by_cases. Qed.

Lemma stock_step_rates item p : stock (step_rates item p) = stock p.
Proof. by_cases. Qed.

Lemma stock_step_credit item p : stock (step_credit item p) = stock p.
Proof. by_cases. Qed.

Lemma stock_step_purchase_url item p : stock (step_purchase_url item p) = stock p.
Proof. by_cases. Qed.

(** Section 4 changes the stock only. *)
Lemma stock_from_digits_only_stock (t : str) p p' :
  stock_from_digits t p = Ok p' → p' = set_stock (stock p') p.
Proof.
  unfold stock_from_digits. destruct (isdigit (strip t)).
  - destruct (int_of_str (strip t)) as [n|e]; simpl; [|done].
    intros [= <-]. by destruct p.
  - intros [= <-]. by rewrite set_stock_same.
Qed.

Lemma step_stock_only_stock item p p' :
  step_stock item p = Ok p' → p' = set_stock (stock p') p.
Proof.
  unfold step_stock.
  set (first := match select_one (by_class "game-reputation") item with
                | Some _ => _ | None => _ end).
  assert (Hfirst : ∀ q, first = Ok q → q = set_stock (stock q) p).
  { subst first. intros q. repeat case_match; simpl.
    - destruct (int_of_str _); simpl; [|done]. intros [= <-]. by destruct p.
    - apply stock_from_digits_only_stock.
    - intros [= <-]. by rewrite set_stock_same.
    - intros [= <-]. by rewrite set_stock_same. }
  destruct first as [q|e]; simpl; [|done].
  specialize (Hfirst q eq_refl).
  destruct (stock q =? 0).
  - destruct (select_one _ item).
    + intros H%stock_from_digits_only_stock. rewrite H, Hfirst.
      by rewrite set_stock_twice.
    + by intros [= <-].
  - by intros [= <-].
Qed.

(** Section 8 changes the stock and the price only. *)
Lemma bundle_quantity_only_stock p :
  (bundle_quantity p).2 = set_stock (stock (bundle_quantity p).2) p.
Proof.
  unfold bundle_quantity. repeat case_match; simpl;
    by rewrite ?set_stock_same; try by destruct p.
Qed.

Lemma step_quantity_fields p p' :
  step_quantity p = Ok p' →
  credit_rating p' = credit_rating p ∧ purchase_url p' = purchase_url p
  ∧ title p' = title p.
Proof.
  unfold step_quantity.
  pose proof (bundle_quantity_only_stock p) as H.
  destruct (bundle_quantity p) as [q p1]. simpl in H.
  destruct (q >? 0).
  - destruct (float_div_int (price p1) q) as [x|e]; simpl; [|done].
    intros [= <-]. rewrite H. by destruct p.
  - intros [= <-]. rewrite H. by destruct p.
Qed.

(** The extractor returns when section 4 and section 8 do. *)
Lemma from_html_element_inv item domain product :
  from_html_element item domain = Ok product →
  ∃ p4 raw,
    step_stock item (step_price item (step_server_info item
                      (step_title item domain new_product))) = Ok p4
    ∧ raw = step_purchase_url item (step_credit item (step_rates item p4))
    ∧ scrape_fields item domain = Ok raw
    ∧ step_quantity raw = Ok product.
Proof.
  unfold from_html_element, scrape_fields.
  destruct (step_stock item _) as [p4|e]; simpl; [|done].
  intros H. by eexists _, _.
Qed.

Lemma step_credit_rating item p :
  credit_rating (step_credit item p) =
  match select_one (by_class "game-reputation") item with
  | Some reputation =>
      if hearts reputation >? 0 then hearts reputation
      else if diamonds reputation >? 0 then 5 + diamonds reputation
      else if crowns reputation >? 0 then 10 + crowns reputation
      else credit_rating p
  | None => credit_rating p
  end.
Proof. unfold step_credit. by repeat case_match. Qed.

(** The rating of an extracted product is the one section 6 computes, or the
    default 0. *)
Lemma from_html_element_credit_rating item domain product :
  from_html_element item domain = Ok product →
  credit_rating product =
  match select_one (by_class "game-reputation") item with
  | Some reputation =>
      if hearts reputation >? 0 then hearts reputation
      else if diamonds reputation >? 0 then 5 + diamonds reputation
      else if crowns reputation >? 0 then 10 + crowns reputation
      else 0
  | None => 0
  end.
Proof.
  intros (p4 & raw & H4 & -> & _ & H8)%from_html_element_inv.
  apply step_quantity_fields in H8 as (-> & _ & _).
  rewrite credit_rating_step_purchase_url, step_credit_rating.
  rewrite credit_rating_step_rates.
  apply step_stock_only_stock in H4. rewrite H4.
  replace (credit_rating (set_stock _ _)) with 0; [done|].
  simpl. by rewrite credit_rating_step_price, credit_rating_step_server_info,
    credit_rating_step_title.
Qed.

Lemma step_purchase_url_value item p :
  purchase_url (step_purchase_url item p) =
  match select_one buy_button item with
  | Some buy_btn =>
      match get_href buy_btn with
      | [] => []
      | href => if startswith href (lit "http") then href else lit "https:" ++ href
      end
  | None => purchase_url p
  end.
Proof. unfold step_purchase_url. by repeat case_match. Qed.

Lemma from_html_element_purchase_url item domain product :
  from_html_element item domain = Ok product →
  purchase_url product =
  match select_one buy_button item with
  | Some buy_btn =>
      match get_href buy_btn with
      | [] => []
      | href => if startswith href (lit "http") then href else lit "https:" ++ href
      end
  | None => []
  end.
Proof.
  intros (p4 & raw & H4 & -> & _ & H8)%from_html_element_inv.
  apply step_quantity_fields in H8 as (_ & -> & _).
  rewrite step_purchase_url_value. destruct (select_one buy_button item); [done|].
  rewrite purchase_url_step_credit, purchase_url_step_rates.
  apply step_stock_only_stock in H4. rewrite H4.
  replace (purchase_url (set_stock _ _)) with (@nil char); [done|].
  simpl. by rewrite purchase_url_step_price, purchase_url_step_server_info,
    purchase_url_step_title.
Qed.

End ExtractorFacts.



(* ===================================================================== *)
(** ** The eligibility filter *)
(* ===================================================================== *)

Section FilterTheorems.
Context {F : Float}.

(** [apply] in general: each threshold that is not [None] must be met. *)
Lemma apply_true_iff (filterParams : FilterParams) (product : DD373Product) :
  apply filterParams product = true ↔
  (∀ l, level_min filterParams = Some l → l ≤ credit_rating product)
  ∧ (∀ s, stock_min filterParams = Some s → s ≤ stock product).
Proof.
  unfold apply. destruct filterParams as [[s|] [l|]]; simpl;
    repeat match goal with
           | |- context [?a <? ?b] => destruct (Z.ltb_spec a b)
           end;
    (split; [try done|try done]).
  all: try (intros [Hl Hs]; try specialize (Hl _ eq_refl);
            try specialize (Hs _ eq_refl); lia).
  all: intros _; split; intros ? [= <-]; lia.
Qed.

(** C4. For integer thresholds, [apply] returns [True] exactly when
    [credit_rating >= level_min] and [stock >= stock_min], both inclusive; a
    threshold of zero imposes nothing on a product whose field is not
    negative. *)
Theorem apply_iff_thresholds (s l : Z) (product : DD373Product) :
  (apply (Params (Some s) (Some l)) product = true
   ↔ l ≤ credit_rating product ∧ s ≤ stock product)
  ∧ (0 ≤ credit_rating product →
     (apply (Params (Some s) (Some 0)) product = true ↔ s ≤ stock product))
  ∧ (0 ≤ stock product →
     (apply (Params (Some 0) (Some l)) product = true ↔ l ≤ credit_rating product)).
Proof.
  assert (H : ∀ s l, apply (Params (Some s) (Some l)) product = true
                     ↔ l ≤ credit_rating product ∧ s ≤ stock product).
  { intros s' l'. rewrite apply_true_iff. simpl. split.
    - intros [H1 H2]. split; [by apply H1|by apply H2].
    - intros [H1 H2]. split; by intros ? [= <-]. }
  split; [apply H|]. split; intros Hnonneg; rewrite H; tauto.
Qed.

End FilterTheorems.

Lemma apply_iff_thresholds_witness :
  0 ≤ credit_rating (F := decimal_float) (set_credit_rating 3 (set_stock 5 new_product))
  ∧ 0 ≤ stock (F := decimal_float) (set_credit_rating 3 (set_stock 5 new_product))
  ∧ (apply (Params (Some 5) (Some 3)) (set_credit_rating 3 (set_stock 5 new_product)) = true
     ↔ 3 ≤ 3 ∧ 5 ≤ 5).
Proof.
  split; [by vm_compute|]. split; [by vm_compute|].
  exact (proj1 (apply_iff_thresholds (F := decimal_float) 5 3
                  (set_credit_rating 3 (set_stock 5 new_product)))).
Defined.

(* ===================================================================== *)
(** ** The credit rating and the purchase URL *)
(* ===================================================================== *)

Section RatingTheorems.
Context {F : Float}.

(** C5 as amended. With a reputation container, hearts decide the rating
    when there is one, then diamonds (plus 5), then crowns (plus 10).  The
    number of hearts is not capped: the hearts-based rating is at least 1 and
    lies in 1..5 exactly when there are at most five hearts.  A fragment with
    both hearts and diamonds gets the number of hearts, which differs from
    the diamonds-based value exactly when it is not 5 plus the number of
    diamonds, in particular whenever there are at most five hearts. *)
Theorem credit_rating_tier_priority (item : Tag) (domain : str)
    (reputation : Tag) (product : DD373Product) :
  select_one (by_class "game-reputation") item = Some reputation →
  from_html_element item domain = Ok product →
  (0 < hearts reputation →
     credit_rating product = hearts reputation
     ∧ 1 ≤ credit_rating product
     ∧ (credit_rating product ≤ 5 ↔ hearts reputation ≤ 5))
  ∧ (hearts reputation = 0 → 0 < diamonds reputation →
     credit_rating product = 5 + diamonds reputation)
  ∧ (hearts reputation = 0 → diamonds reputation = 0 → 0 < crowns reputation →
     credit_rating product = 10 + crowns reputation)
  ∧ (0 < hearts reputation → 0 < diamonds reputation →
     credit_rating product = hearts reputation
     ∧ (credit_rating product ≠ 5 + diamonds reputation
        ↔ hearts reputation ≠ 5 + diamonds reputation)
     ∧ (hearts reputation ≤ 5 →
        1 ≤ credit_rating product ≤ 5
        ∧ credit_rating product ≠ 5 + diamonds reputation)).
Proof.
  intros Hrep Hok. rewrite (from_html_element_credit_rating _ _ _ Hok), Hrep.
  destruct (Z.gtb_spec (hearts reputation) 0),
    (Z.gtb_spec (diamonds reputation) 0), (Z.gtb_spec (crowns reputation) 0);
    repeat split; intros; lia.
Qed.

(** C8 as amended. The rating is 0 without a reputation container or without
    any icon; with an icon it is at least 1; and it is at most 15 when no
    kind of icon occurs more than five times. *)
Theorem credit_rating_range (item : Tag) (domain : str) (product : DD373Product) :
  from_html_element item domain = Ok product →
  match select_one (by_class "game-reputation") item with
  | None => credit_rating product = 0
  | Some reputation =>
      (hearts reputation = 0 → diamonds reputation = 0 → crowns reputation = 0 →
       credit_rating product = 0)
      ∧ (0 < hearts reputation + diamonds reputation + crowns reputation →
         1 ≤ credit_rating product)
      ∧ (hearts reputation ≤ 5 → diamonds reputation ≤ 5 → crowns reputation ≤ 5 →
         0 ≤ credit_rating product ≤ 15)
  end.
Proof.
  intros Hok. rewrite (from_html_element_credit_rating _ _ _ Hok).
  destruct (select_one _ item) as [reputation|]; [|done].
  assert (0 ≤ hearts reputation ∧ 0 ≤ diamonds reputation ∧ 0 ≤ crowns reputation)
    by (unfold hearts, diamonds, crowns; lia).
  repeat split; intros;
    repeat match goal with
           | |- context [?a >? ?b] => destruct (Z.gtb_spec a b)
           end; lia.
Qed.

(** C10. A buy link whose href is not empty and does not start with [http]
    yields ["https:"] followed by the href, whatever the href and the domain
    are. *)
Theorem purchase_url_https_prefix (item : Tag) (domain : str) (buy_btn : Tag)
    (product : DD373Product) :
  select_one buy_button item = Some buy_btn →
  get_href buy_btn ≠ [] →
  startswith (get_href buy_btn) (lit "http") = false →
  from_html_element item domain = Ok product →
  purchase_url product = lit "https:" ++ get_href buy_btn.
Proof.
  intros Hbtn Hne Hhttp Hok.
  rewrite (from_html_element_purchase_url _ _ _ Hok), Hbtn.
  destruct (get_href buy_btn); [done|]. cbv zeta. by rewrite Hhttp.
Qed.

End RatingTheorems.

Lemma credit_rating_tier_priority_witness :
  select_one (by_class "game-reputation") full_listing = Some (reputation_tag full_reputation)
  ∧ from_html_element full_listing domain = Ok full_product
  ∧ 0 < hearts (reputation_tag full_reputation)
  ∧ 0 < diamonds (reputation_tag full_reputation)
  ∧ credit_rating full_product = hearts (reputation_tag full_reputation).
Proof.
  assert (Hrep : select_one (by_class "game-reputation") full_listing
                 = Some (reputation_tag full_reputation)) by reflexivity.
  assert (Hok : from_html_element full_listing domain = Ok full_product)
    by reflexivity.
  split; [exact Hrep|]. split; [exact Hok|].
  split; [reflexivity|]. split; [reflexivity|].
  exact (proj1 (proj1 (credit_rating_tier_priority full_listing domain _ _ Hrep Hok)
                  eq_refl)).
Defined.

(** C5 fails as stated: a fragment with six hearts and one diamond has the
    rating 6, which is outside the range 1..5 of the hearts and is the
    diamonds-based value 5 + 1. *)
Lemma credit_rating_tier_priority_counterexample :
  select_one (by_class "game-reputation") six_hearts_listing
  = Some (reputation_tag six_hearts_reputation)
  ∧ hearts (reputation_tag six_hearts_reputation) = 6
  ∧ diamonds (reputation_tag six_hearts_reputation) = 1
  ∧ from_html_element six_hearts_listing domain = Ok six_hearts_product
  ∧ credit_rating six_hearts_product = hearts (reputation_tag six_hearts_reputation)
  ∧ ¬ (1 ≤ credit_rating six_hearts_product ≤ 5)
  ∧ credit_rating six_hearts_product
    = 5 + diamonds (reputation_tag six_hearts_reputation).
Proof.
  do 5 (split; [reflexivity|]). split; [simpl; lia|reflexivity].
Qed.

(** C8 fails as stated: a listing without reputation container has rating 0,
    and a listing with six crowns has rating 16; neither is in 1..15. *)
Lemma credit_rating_range_counterexample :
  (from_html_element bare_listing domain = Ok bare_product
   ∧ ¬ (1 ≤ credit_rating bare_product ≤ 15))
  ∧ (from_html_element six_crowns_listing domain = Ok six_crowns_product
     ∧ ¬ (1 ≤ credit_rating six_crowns_product ≤ 15)).
Proof. split; (split; [reflexivity|]); simpl; lia. Qed.

Lemma credit_rating_range_witness :
  from_html_element full_listing domain = Ok full_product
  ∧ 1 ≤ credit_rating full_product
  ∧ 0 ≤ credit_rating full_product ≤ 15.
Proof.
  assert (Hok : from_html_element full_listing domain = Ok full_product)
    by reflexivity.
  split; [exact Hok|].
  pose proof (credit_rating_range full_listing domain full_product Hok) as Hrange.
  assert (Hrep : select_one (by_class "game-reputation") full_listing
                 = Some (reputation_tag full_reputation)) by reflexivity.
  rewrite Hrep in Hrange. destruct Hrange as (_ & Hlow & Hhigh).
  split; [apply Hlow; reflexivity|].
  apply Hhigh; by vm_compute.
Defined.

Lemma purchase_url_https_prefix_witness :
  select_one buy_button full_listing = Some (buy_link_tag "/order")
  ∧ get_href (buy_link_tag "/order") ≠ []
  ∧ startswith (get_href (buy_link_tag "/order")) (lit "http") = false
  ∧ from_html_element full_listing domain = Ok full_product
  ∧ purchase_url full_product = lit "https:/order".
Proof.
  assert (Hbtn : select_one buy_button full_listing = Some (buy_link_tag "/order"))
    by reflexivity.
  assert (Hne : get_href (buy_link_tag "/order") ≠ []) by done.
  assert (Hhttp : startswith (get_href (buy_link_tag "/order")) (lit "http") = false)
    by reflexivity.
  assert (Hok : from_html_element full_listing domain = Ok full_product)
    by reflexivity.
  repeat (split; [assumption|]).
  exact (purchase_url_https_prefix full_listing domain _ _ Hbtn Hne Hhttp Hok).
Defined.

(* ===================================================================== *)
(** ** Quantity normalization *)
(* ===================================================================== *)

Section QuantityTheorems.
Context {F : Float} {L : FloatLaws F}.

Implicit Types (item : Tag) (domain : str) (raw product : DD373Product).

Lemma int_of_str_nonneg (s : str) (n : Z) : int_of_str s = Ok n → 0 ≤ n.
Proof.
  unfold int_of_str. destruct s as [|c s]; [done|].
  destruct (digits_value 0 (c :: s)) as [m|] eqn:Hm; [|done].
  intros [= <-]. by eapply digits_value_nonneg.
Qed.

(** The quantity is never negative. *)
Lemma bundle_quantity_nonneg raw : 0 ≤ (bundle_quantity raw).1.
Proof.
  unfold bundle_quantity. repeat case_match; simpl; try lia.
  by eapply int_of_str_nonneg.
Qed.

(** The stock after the [try] block is the quantity times the stock before. *)
Lemma bundle_quantity_stock raw :
  (bundle_quantity raw).2 = set_stock ((bundle_quantity raw).1 * stock raw) raw.
Proof.
  unfold bundle_quantity.
  repeat case_match; simpl; try done;
    by rewrite Z.mul_1_l, set_stock_same.
Qed.



(** What section 8 returns, by the value of the quantity. *)
Lemma step_quantity_result raw :
  step_quantity raw =
  let q := (bundle_quantity raw).1 in
  if q >? 0 then
    unit_price ← float_div_int (price raw) q;
    Ok (set_price unit_price (set_stock (q * stock raw) raw))
  else Ok (set_stock (q * stock raw) raw).
Proof.
  unfold step_quantity. pose proof (bundle_quantity_stock raw) as H.
  destruct (bundle_quantity raw) as [q p]. simpl in *. subst p.
  by destruct raw.
Qed.


(** *** When the extractor returns *)

Lemma stock_from_digits_returns (t : str) raw :
  decimal_when_digit t → ∃ p', stock_from_digits t raw = Ok p'.
Proof.
  intros Hdec. unfold stock_from_digits.
  destruct (isdigit (strip t)) eqn:Hdigit; [|by eexists].
  destruct (int_of_str_decimal (strip t)) as (n & -> & _); [|by apply Hdec|by eexists].
  intros Hnil. by rewrite Hnil in Hdigit.
Qed.

Lemma stock_from_digits_raises (t : str) raw (e : exn) :
  stock_from_digits t raw = Raise e → e = ValueError.
Proof.
  unfold stock_from_digits, int_of_str. repeat case_match; simpl; congruence.
Qed.

(** A match of the labelled pattern is a run of decimal digits. *)
Lemma search_stock_decimal (s digits : str) :
  search_stock s = Some digits →
  digits ≠ [] ∧ Forall (fun c => is_decimal c = true) digits.
Proof.
  induction s as [|c s IH]; cbn [search_stock].
  - by destruct (match_stock_here []) eqn:H.
  - destruct (match_stock_here (c :: s)) as [ds|] eqn:Hhere; [|done].
    intros [= <-]. unfold match_stock_here in Hhere.
    repeat case_match; simplify_eq.
    split; [done|].
    match goal with H : take_while _ _ = _ |- _ => rewrite <- H end.
    apply take_while_all.
Qed.

(** Section 4 raises nothing but the [ValueError] of [int] on a digit that
    is not decimal, and returns when the bold and the legacy text hold no
    such digit. *)
Lemma step_stock_raises item raw (e : exn) :
  step_stock item raw = Raise e → e = ValueError.
Proof.
  unfold step_stock.
  destruct (select_one (by_class "game-reputation") item) as [reputation|]; simpl.
  - destruct (search_stock (text reputation)) as [digits|] eqn:Hlabel.
    + destruct (search_stock_decimal _ _ Hlabel) as [Hne Hdec].
      destruct (int_of_str_decimal digits Hne Hdec) as (n & -> & _). simpl.
      destruct (n =? 0); [|done].
      destruct (select_one legacy_stock item); [|done].
      apply stock_from_digits_raises.
    + destruct (select_one (by_class "bold") reputation) as [bold_span|].
      * destruct (stock_from_digits (text bold_span) raw) as [p|e'] eqn:Hbold; simpl.
        -- destruct (stock p =? 0); [|done].
           destruct (select_one legacy_stock item); [|done].
           apply stock_from_digits_raises.
        -- intros [= <-]. by eapply stock_from_digits_raises.
      * simpl. destruct (stock raw =? 0); [|done].
        destruct (select_one legacy_stock item); [|done].
        apply stock_from_digits_raises.
  - destruct (stock raw =? 0); [|done].
    destruct (select_one legacy_stock item); [|done].
    apply stock_from_digits_raises.
Qed.

Lemma step_stock_returns item raw :
  (∀ reputation bold_span,
     select_one (by_class "game-reputation") item = Some reputation →
     select_one (by_class "bold") reputation = Some bold_span →
     decimal_when_digit (text bold_span)) →
  (∀ stock_elem_old,
     select_one legacy_stock item = Some stock_elem_old →
     decimal_when_digit (text stock_elem_old)) →
  ∃ p', step_stock item raw = Ok p'.
Proof.
  intros Hbold Hold. unfold step_stock.
  assert (Hlegacy : ∀ p, ∃ p',
             (if stock p =? 0
              then match select_one legacy_stock item with
                   | Some stock_elem_old => stock_from_digits (text stock_elem_old) p
                   | None => Ok p
                   end
              else Ok p) = Ok p').
  { intros p. destruct (stock p =? 0); [|by eexists].
    destruct (select_one legacy_stock item) as [old|] eqn:Hsel; [|by eexists].
    by apply stock_from_digits_returns, Hold. }
  destruct (select_one (by_class "game-reputation") item) as [reputation|];
    [|exact (Hlegacy raw)].
  destruct (search_stock (text reputation)) as [digits|] eqn:Hlabel.
  - destruct (search_stock_decimal _ _ Hlabel) as [Hne Hdec].
    destruct (int_of_str_decimal digits Hne Hdec) as (n & -> & _).
    exact (Hlegacy (set_stock n raw)).
  - destruct (select_one (by_class "bold") reputation) as [bold_span|] eqn:Hsel;
      [|exact (Hlegacy raw)].
    destruct (stock_from_digits_returns (text bold_span) raw) as [p' ->];
      [by eapply Hbold|]. exact (Hlegacy p').
Qed.

(** Section 8 raises nothing but the [OverflowError] of the division by a
    quantity too large for a float. *)
Lemma step_quantity_raises raw (e : exn) :
  step_quantity raw = Raise e →
  e = OverflowError ∧ int_too_large ≤ (bundle_quantity raw).1.
Proof.
  rewrite step_quantity_result. cbv zeta.
  pose proof (bundle_quantity_nonneg raw) as Hq.
  destruct (Z.gtb_spec (bundle_quantity raw).1 0) as [Hpos|]; [|done].
  destruct (Z.lt_ge_cases (bundle_quantity raw).1 int_too_large) as [Hlt|Hge].
  - destruct (float_div_defined (price raw) (bundle_quantity raw).1) as [y ->];
      [lia|lia|done].
  - rewrite float_div_overflow by lia. simpl. intros [= <-]. split; [done|lia].
Qed.

Lemma step_quantity_returns raw :
  (bundle_quantity raw).1 < int_too_large → ∃ product, step_quantity raw = Ok product.
Proof.
  intros Hlt. destruct (step_quantity raw) as [product|e] eqn:Hstep; [by eexists|].
  apply step_quantity_raises in Hstep as [_ Hge]. lia.
Qed.

(** The extractor returns a record for every fragment whose bold and legacy
    stock texts hold no digit other than decimal ones and whose bundle
    quantity fits a float; otherwise it raises [ValueError], respectively
    [OverflowError]. *)
Lemma from_html_element_returns item domain :
  (∀ reputation bold_span,
     select_one (by_class "game-reputation") item = Some reputation →
     select_one (by_class "bold") reputation = Some bold_span →
     decimal_when_digit (text bold_span)) →
  (∀ stock_elem_old,
     select_one legacy_stock item = Some stock_elem_old →
     decimal_when_digit (text stock_elem_old)) →
  ∃ raw, scrape_fields item domain = Ok raw
         ∧ ((bundle_quantity raw).1 < int_too_large →
            ∃ product, from_html_element item domain = Ok product).
Proof.
  intros Hbold Hold. unfold from_html_element, scrape_fields.
  destruct (step_stock_returns item
              (step_price item (step_server_info item (step_title item domain new_product)))
              Hbold Hold) as [p4 ->]. simpl.
  eexists. split; [done|]. apply step_quantity_returns.
Qed.

Lemma from_html_element_raises item domain (e : exn) :
  from_html_element item domain = Raise e → e = ValueError ∨ e = OverflowError.
Proof.
  unfold from_html_element, scrape_fields.
  destruct (step_stock item _) as [p4|e'] eqn:Hstock; simpl.
  - intros [-> _]%step_quantity_raises. by right.
  - intros [= <-]. left. by eapply step_stock_raises.
Qed.

End QuantityTheorems.



(* ===================================================================== *)
(** ** The stock fallbacks *)
(* ===================================================================== *)

Section StockFacts.
Context {F : Float}.

Implicit Types (item reputation : Tag) (p : DD373Product).

(** (a) A labelled number other than 0 in the reputation container is the
    stock, whatever the other two sources hold. *)
Lemma step_stock_label item reputation p (digits : str) (n : Z) :
  select_one (by_class "game-reputation") item = Some reputation →
  search_stock (text reputation) = Some digits →
  int_of_str digits = Ok n → n ≠ 0 →
  step_stock item p = Ok (set_stock n p).
Proof.
  intros Hrep Hlabel Hint Hn. unfold step_stock. rewrite Hrep, Hlabel, Hint. simpl.
  by rewrite (proj2 (Z.eqb_neq n 0)) by done.
Qed.

(** (b) Without a labelled number, a bold number other than 0 in the
    container is the stock, whatever the legacy element holds. *)
Lemma step_stock_bold item reputation bold_span p (n : Z) :
  select_one (by_class "game-reputation") item = Some reputation →
  search_stock (text reputation) = None →
  select_one (by_class "bold") reputation = Some bold_span →
  isdigit (strip (text bold_span)) = true →
  int_of_str (strip (text bold_span)) = Ok n → n ≠ 0 →
  step_stock item p = Ok (set_stock n p).
Proof.
  intros Hrep Hlabel Hbold Hdigit Hint Hn. unfold step_stock, stock_from_digits.
  rewrite Hrep, Hlabel, Hbold, Hdigit, Hint. simpl.
  by rewrite (proj2 (Z.eqb_neq n 0)) by done.
Qed.

(** (c) With neither in a product whose stock is still 0, the number of the
    legacy element is the stock. *)
Lemma step_stock_legacy item stock_elem_old p (n : Z) :
  match select_one (by_class "game-reputation") item with
  | Some reputation =>
      search_stock (text reputation) = None
      ∧ match select_one (by_class "bold") reputation with
        | Some bold_span => isdigit (strip (text bold_span)) = false
        | None => True
        end
  | None => True
  end →
  stock p = 0 →
  select_one legacy_stock item = Some stock_elem_old →
  isdigit (strip (text stock_elem_old)) = true →
  int_of_str (strip (text stock_elem_old)) = Ok n →
  step_stock item p = Ok (set_stock n p).
Proof.
  intros Hfirst Hzero Hold Hdigit Hint. unfold step_stock, stock_from_digits.
  assert (match select_one (by_class "game-reputation") item with
          | Some reputation_div =>
              match search_stock (text reputation_div) with
              | Some digits => n ← int_of_str digits; Ok (set_stock n p)
              | None =>
                  match select_one (by_class "bold") reputation_div with
                  | Some bold_span =>
                      if isdigit (strip (text bold_span))
                      then n ← int_of_str (strip (text bold_span)); Ok (set_stock n p)
                      else Ok p
                  | None => Ok p
                  end
              end
          | None => Ok p
          end = Ok p) as ->.
  { destruct (select_one (by_class "game-reputation") item) as [r|]; [|done].
    destruct Hfirst as [-> Hbold].
    destruct (select_one (by_class "bold") r); [by rewrite Hbold|done]. }
  simpl. by rewrite Hzero, Hold, Hdigit, Hint.
Qed.

(** With none of the three the stock keeps its default. *)
Lemma step_stock_none item p :
  match select_one (by_class "game-reputation") item with
  | Some reputation =>
      search_stock (text reputation) = None
      ∧ match select_one (by_class "bold") reputation with
        | Some bold_span => isdigit (strip (text bold_span)) = false
        | None => True
        end
  | None => True
  end →
  match select_one legacy_stock item with
  | Some stock_elem_old => isdigit (strip (text stock_elem_old)) = false
  | None => True
  end →
  step_stock item p = Ok p.
Proof.
  intros Hfirst Hold. unfold step_stock, stock_from_digits.
  destruct (select_one (by_class "game-reputation") item) as [r|].
  - destruct Hfirst as [-> Hbold].
    destruct (select_one (by_class "bold") r); [rewrite Hbold|]; simpl;
      destruct (stock p =? 0); try done;
      (destruct (select_one legacy_stock item); [by rewrite Hold|done]).
  - simpl. destruct (stock p =? 0); [|done].
    destruct (select_one legacy_stock item); [by rewrite Hold|done].
Qed.

End StockFacts.

(** C6 on the listing whose reputation container reads [库存：0] and whose
    legacy element reads [7]: the labelled pattern matches, with value 0, and
    the extractor still takes the stock from the legacy element. *)
Theorem stock_label_zero_overridden :
  select_one (by_class "game-reputation") sold_out_listing
  = Some (reputation_tag [heart; stock_label "0"])
  ∧ search_stock (text (reputation_tag [heart; stock_label "0"])) = Some (lit "0")
  ∧ int_of_str (lit "0") = Ok 0
  ∧ from_html_element sold_out_listing domain = Ok sold_out_product
  ∧ stock sold_out_product = 7.
Proof. repeat split; reflexivity. Qed.

(* ===================================================================== *)
(** ** The ranker leaves the caller's objects alone *)
(* ===================================================================== *)

Section FrameFacts.
Context {F : Float}.

Implicit Types (h base : heap) (l x y : loc).

Lemma keeps_weaken base {A : Type} (m : M A) (Q Q' : A → Prop) :
  keeps base m Q → (∀ a, Q a → Q' a) → keeps base m Q'.
Proof. intros Hm HQ h Hh. destruct (Hm h Hh). split; [done|]. auto. Qed.

Lemma keeps_ret base {A : Type} (a : A) (Q : A → Prop) :
  Q a → keeps base (mret a) Q.
Proof. intros HQ h Hh. split; [done|]. by intros ? [= <-]. Qed.

Lemma keeps_bind base {A B : Type} (m : M A) (k : A → M B)
    (Q : A → Prop) (R : B → Prop) :
  keeps base m Q → (∀ a, Q a → keeps base (k a) R) → keeps base (m ≫= k) R.
Proof.
  intros Hm Hk h Hh. destruct (Hm h Hh) as [Hpre HQ].
  unfold mbind, M_bind. destruct (m h) as [h1 [a|e]]; simpl in *.
  - by apply (Hk a (HQ a eq_refl)).
  - by split.
Qed.

Lemma keeps_lift base {A : Type} (r : result A) : keeps base (lift r) (fun _ => True).
Proof. by intros h Hh. Qed.

Lemma keeps_get_list base l : keeps base (get_list l) (fun _ => True).
Proof. intros h Hh. unfold get_list. cbv beta. by repeat case_match. Qed.

Lemma keeps_get_product base l : keeps base (get_product l) (fun _ => True).
Proof. intros h Hh. unfold get_product. cbv beta. by repeat case_match. Qed.

(** A new object lies after the objects of [base]. *)
Lemma keeps_alloc base (o : object) :
  keeps base (alloc o) (fun l => (length base ≤ l)%nat).
Proof.
  intros h Hh. unfold alloc. simpl. split.
  - by apply prefix_app_r.
  - intros ? [= <-]. by apply prefix_length.
Qed.

(** Appending to a list object that lies after [base]. *)
Lemma keeps_append base l x :
  (length base ≤ l)%nat → keeps base (append l x) (fun _ => True).
Proof.
  intros Hl h [new ->]. unfold append. cbv beta.
  destruct (_ !! l) as [[p|items]|]; simpl; try (split; [by eexists|done]).
  split; [|done].
  exists (<[(l - length base)%nat := ObjList (items ++ [x])]> new).
  by apply insert_app_r_alt.
Qed.

Lemma keeps_deepcopy_product base (memo : gmap loc loc) l :
  keeps base (deepcopy_product memo l) (fun _ => True).
Proof.
  unfold deepcopy_product. destruct (memo !! l).
  - by apply keeps_ret.
  - eapply keeps_bind; [apply keeps_get_product|]. intros p _.
    eapply keeps_bind; [apply keeps_alloc|]. intros y _.
    by apply keeps_ret.
Qed.

Lemma keeps_deepcopy_items base (memo : gmap loc loc) (items : list loc) y :
  (length base ≤ y)%nat → keeps base (deepcopy_items memo items y) (fun _ => True).
Proof.
  intros Hy. revert memo. induction items as [|a items IH]; intros memo; simpl.
  - by apply keeps_ret.
  - eapply keeps_bind; [apply keeps_deepcopy_product|]. intros [memo' c] _.
    eapply keeps_bind; [by apply keeps_append|]. intros _ _. apply IH.
Qed.

Lemma keeps_deepcopy base x :
  keeps base (deepcopy x) (fun y => (length base ≤ y)%nat).
Proof.
  unfold deepcopy.
  eapply keeps_bind; [apply keeps_get_list|]. intros items _.
  eapply keeps_bind; [apply keeps_alloc|]. intros y Hy.
  eapply keeps_bind; [by apply keeps_deepcopy_items|]. intros _ _.
  by apply keeps_ret.
Qed.

Lemma keeps_keyed base (items : list loc) : keeps base (keyed items) (fun _ => True).
Proof.
  induction items as [|x items IH]; simpl.
  - by apply keeps_ret.
  - eapply keeps_bind; [apply keeps_get_product|]. intros p _.
    eapply keeps_bind; [apply keeps_lift|]. intros k _.
    eapply keeps_bind; [apply IH|]. intros ks _.
    by apply keeps_ret.
Qed.

Lemma keeps_sorted base l : keeps base (sorted l) (fun y => (length base ≤ y)%nat).
Proof.
  unfold sorted.
  eapply keeps_bind; [apply keeps_get_list|]. intros items _.
  eapply keeps_bind; [apply keeps_keyed|]. intros ks _.
  apply keeps_alloc.
Qed.

Lemma keeps_filter_loop base (filterParams : FilterParams) (offers : list loc) y :
  (length base ≤ y)%nat →
  keeps base (filter_loop filterParams offers y) (fun _ => True).
Proof.
  intros Hy. induction offers as [|offer offers IH]; simpl.
  - by apply keeps_ret.
  - eapply keeps_bind; [apply keeps_get_product|]. intros p _.
    eapply keeps_bind with (Q := fun _ => True).
    + destruct (apply filterParams p); [by apply keeps_append|by apply keeps_ret].
    + intros _ _. apply IH.
Qed.

(** The list that [_filter_valid_offer_item] returns is a new object. *)
Lemma keeps_filter_valid_offer_item base listOffers (filterParams : FilterParams) :
  keeps base (_filter_valid_offer_item listOffers filterParams)
        (fun y => (length base ≤ y)%nat).
Proof.
  unfold _filter_valid_offer_item.
  eapply keeps_bind; [apply keeps_deepcopy|]. intros offers_copy _.
  eapply keeps_bind; [apply keeps_sorted|]. intros sorted_offers _.
  eapply keeps_bind; [apply keeps_alloc|]. intros valid_offers Hvalid.
  eapply keeps_bind; [apply keeps_get_list|]. intros offers _.
  eapply keeps_bind; [by apply keeps_filter_loop|]. intros _ _.
  by apply keeps_ret.
Qed.

(** C9. [_filter_valid_offer_item] changes no object that exists when it is
    called, whether it returns or raises: the store before the call is a
    prefix of the store after it.  So the caller's list holds the same
    references, every product in it has the same fields, and the list that
    is returned is a new object. *)
Theorem filter_valid_offer_item_frame (listOffers : loc)
    (filterParams : FilterParams) (h : heap) :
  let h' := (_filter_valid_offer_item listOffers filterParams h).1 in
  h `prefix_of` h'
  ∧ (∀ l o, h !! l = Some o → h' !! l = Some o)
  ∧ (∀ items, h !! listOffers = Some (ObjList items) →
       h' !! listOffers = Some (ObjList items)
       ∧ ∀ x p, x ∈ items → h !! x = Some (ObjProduct p) →
                h' !! x = Some (ObjProduct p))
  ∧ (∀ valid_offers,
       (_filter_valid_offer_item listOffers filterParams h).2 = Ok valid_offers →
       h !! valid_offers = None).
Proof.
  intros h'.
  destruct (keeps_filter_valid_offer_item h listOffers filterParams h) as [Hpre Hnew];
    [done|]. fold h' in Hpre.
  assert (Hsame : ∀ l o, h !! l = Some o → h' !! l = Some o).
  { intros l o Hl. by eapply prefix_lookup_Some. }
  split; [done|]. split; [done|]. split.
  - intros items Hitems. split; [by apply Hsame|]. intros x p _. apply Hsame.
  - intros y Hy. apply lookup_ge_None. by apply Hnew.
Qed.

End FrameFacts.

Lemma filter_valid_offer_item_frame_witness :
  store_of [offer_A; offer_B] !! 2%nat = Some (ObjList [0; 1]%nat)
  ∧ (_filter_valid_offer_item 2%nat FilterParams_init (store_of [offer_A; offer_B])).1
      !! 2%nat = Some (ObjList [0; 1]%nat)
  ∧ (_filter_valid_offer_item 2%nat FilterParams_init (store_of [offer_A; offer_B])).1
      !! 0%nat = Some (ObjProduct offer_A).
Proof.
  assert (Hlist : store_of [offer_A; offer_B] !! 2%nat = Some (ObjList [0; 1]%nat))
    by reflexivity.
  split; [exact Hlist|].
  pose proof (filter_valid_offer_item_frame 2%nat FilterParams_init
                (store_of [offer_A; offer_B])) as (_ & _ & Hcaller & _).
  destruct (Hcaller _ Hlist) as [Hsame Hitems].
  split; [exact Hsame|].
  apply Hitems; [|reflexivity]. apply list_elem_of_here.
Defined.

(* ===================================================================== *)
(** ** From the store to values *)
(* ===================================================================== *)

Section RefinementFacts.
Context {F : Float}.

Implicit Types (h hc : heap) (l x y : loc) (items xs : list loc)
  (ps : list DD373Product) (memo : gmap loc loc).

Lemma bind_ok {A B : Type} (m : M A) (k : A → M B) h h' (a : A) :
  m h = (h', Ok a) → (m ≫= k) h = k a h'.
Proof. intros H. unfold mbind, M_bind. by rewrite H. Qed.

Lemma bind_raise {A B : Type} (m : M A) (k : A → M B) h h' (e : exn) :
  m h = (h', Raise e) → (m ≫= k) h = (h', Raise e).
Proof. intros H. unfold mbind, M_bind. by rewrite H. Qed.

Lemma get_product_ok h x (p : DD373Product) :
  h !! x = Some (ObjProduct p) → get_product x h = (h, Ok p).
Proof. intros H. unfold get_product. by rewrite H. Qed.

Lemma get_list_ok h l items :
  h !! l = Some (ObjList items) → get_list l h = (h, Ok items).
Proof. intros H. unfold get_list. by rewrite H. Qed.

Lemma append_ok h l items x :
  h !! l = Some (ObjList items) →
  append l x h = (<[l := ObjList (items ++ [x])]> h, Ok ()).
Proof. intros H. unfold append. by rewrite H. Qed.

Lemma products_kept_refl h : products_kept h h.
Proof. by intros c p. Qed.

Lemma products_kept_trans h h' h'' :
  products_kept h h' → products_kept h' h'' → products_kept h h''.
Proof. intros H1 H2 c p Hc. by apply H2, H1. Qed.

Lemma products_kept_alloc h (o : object) : products_kept h (h ++ [o]).
Proof. intros c p Hc. by apply lookup_app_l_Some. Qed.

(** Appending to a list object touches no product. *)
Lemma products_kept_insert_list h l items (o : object) :
  h !! l = Some (ObjList items) → products_kept h (<[l := o]> h).
Proof.
  intros Hl c p Hc. rewrite list_lookup_insert_ne; [done|].
  intros ->. by rewrite Hl in Hc.
Qed.

Lemma points_to_kept h h' xs ps :
  products_kept h h' → points_to h xs ps → points_to h' xs ps.
Proof.
  intros Hk Hpts. eapply Forall2_impl; [exact Hpts|]. intros x p. apply Hk.
Qed.

(** *** [deepcopy] *)

Lemma memo_ok_kept h l y memo hc hc' :
  products_kept hc hc' → memo_ok h l y memo hc → memo_ok h l y memo hc'.
Proof.
  intros Hk Hm a c Hac. destruct (Hm a c Hac) as [?|(p & ? & ? & ?)]; [by left|].
  right. exists p. split; [done|]. split; [by apply Hk|done].
Qed.

(** One item: its copy holds the same fields. *)
Lemma deepcopy_product_spec h l y memo hc (a : loc) (p : DD373Product) :
  h !! a = Some (ObjProduct p) →
  (∀ q, h !! l ≠ Some (ObjProduct q)) →
  products_kept h hc → (length h ≤ length hc)%nat → memo_ok h l y memo hc →
  ∃ hc' memo' c,
    deepcopy_product memo a hc = (hc', Ok (memo', c))
    ∧ hc `prefix_of` hc'
    ∧ hc' !! c = Some (ObjProduct p)
    ∧ (length h ≤ c)%nat
    ∧ memo_ok h l y memo' hc'.
Proof.
  intros Ha Hl Hk Hlen Hm. unfold deepcopy_product.
  destruct (memo !! a) as [c|] eqn:Hmemo.
  - exists hc, memo, c. split; [done|]. split; [done|].
    destruct (Hm a c Hmemo) as [[-> _]|(q & Hq & Hc & Hnew)].
    + by destruct (Hl p).
    + rewrite Ha in Hq. by injection Hq as ->.
  - exists (hc ++ [ObjProduct p]), (<[a := length hc]> memo), (length hc).
    split.
    { erewrite bind_ok; [|by apply get_product_ok, Hk]. done. }
    split; [by apply prefix_app_r|].
    split; [by rewrite lookup_app_r, Nat.sub_diag|]. split; [done|].
    intros a' c'. rewrite lookup_insert. case_decide as Heq.
    + intros [= <-]. subst a'. right. exists p. split; [done|].
      split; [|done]. by rewrite lookup_app_r, Nat.sub_diag.
    + intros Hac. destruct (Hm a' c' Hac) as [?|(q & ? & ? & ?)]; [by left|].
      right. exists q. split; [done|]. split; [|done]. by apply lookup_app_l_Some.
Qed.

Lemma deepcopy_items_spec h l y items ps :
  points_to h items ps →
  (∀ q, h !! l ≠ Some (ObjProduct q)) →
  ∀ memo hc (acc : list loc),
    products_kept h hc → (length h ≤ length hc)%nat → memo_ok h l y memo hc →
    hc !! y = Some (ObjList acc) →
    ∃ h' memo' items',
      deepcopy_items memo items y hc = (h', Ok memo')
      ∧ products_kept hc h'
      ∧ h' !! y = Some (ObjList (acc ++ items'))
      ∧ points_to h' items' ps
      ∧ Forall (fun c => (length h ≤ c)%nat) items'.
Proof.
  intros Hpts Hl. induction Hpts as [|a p items ps Ha Hpts IH];
    intros memo hc acc Hk Hlen Hm Hy.
  - exists hc, memo, []. split; [done|]. split; [apply products_kept_refl|].
    rewrite app_nil_r. split; [done|]. split; constructor.
  - destruct (deepcopy_product_spec h l y memo hc a p Ha Hl Hk Hlen Hm)
      as (hc1 & memo1 & c & Hcopy & Hpre & Hc & Hnew & Hm1).
    assert (Hy1 : hc1 !! y = Some (ObjList acc)) by (by eapply prefix_lookup_Some).
    assert (Hk1 : products_kept hc hc1).
    { intros ? ? ?. by eapply prefix_lookup_Some. }
    set (hc2 := <[y := ObjList (acc ++ [c])]> hc1).
    assert (Hk2 : products_kept hc1 hc2) by (by eapply products_kept_insert_list).
    assert (Hy2 : hc2 !! y = Some (ObjList (acc ++ [c]))).
    { apply list_lookup_insert_eq. by eapply lookup_lt_Some. }
    destruct (IH memo1 hc2 (acc ++ [c]))
      as (h' & memo' & items' & Hrun & Hk' & Hy' & Hpts' & Hnew').
    { eauto using products_kept_trans. }
    { subst hc2. rewrite length_insert. apply prefix_length in Hpre. lia. }
    { by eapply memo_ok_kept. }
    { done. }
    exists h', memo', (c :: items'). split.
    { cbn [deepcopy_items]. erewrite bind_ok by exact Hcopy. cbn beta iota.
      erewrite bind_ok by (by apply append_ok). exact Hrun. }
    split; [eauto using products_kept_trans|].
    split; [by rewrite <- app_assoc in Hy'|].
    split; [|by constructor].
    constructor; [|done]. by apply Hk', Hk2.
Qed.

(** The copy of a list of products is a new list of new objects with the
    same fields, one per product (shared where the list shares); the
    caller's products are still there. *)
Lemma deepcopy_spec h l items ps :
  h !! l = Some (ObjList items) → points_to h items ps →
  ∃ h' y items',
    deepcopy l h = (h', Ok y)
    ∧ products_kept h h'
    ∧ h' !! y = Some (ObjList items')
    ∧ points_to h' items' ps
    ∧ Forall (fun c => (length h ≤ c)%nat) items'.
Proof.
  intros Hl Hpts.
  destruct (deepcopy_items_spec h l (length h) items ps Hpts) with
    (memo := ({[l := length h]} : gmap loc loc)) (hc := h ++ [ObjList []])
    (acc := @nil loc) as (h' & memo' & items' & Hrun & Hk & Hy & Hpts' & Hnew).
  - intros q Hq. by rewrite Hl in Hq.
  - apply products_kept_alloc.
  - rewrite length_app. lia.
  - intros a c [-> ->]%lookup_singleton_Some. by left.
  - by rewrite lookup_app_r, Nat.sub_diag.
  - exists h', (length h), items'. split.
    { unfold deepcopy. erewrite bind_ok by (by apply get_list_ok).
      erewrite bind_ok by reflexivity. erewrite bind_ok by exact Hrun. done. }
    split; [|done].
    eapply products_kept_trans; [apply products_kept_alloc|done].
Qed.

(** *** [sorted] *)

Lemma keyed_spec h items ps :
  points_to h items ps →
  keyed items h = (h, ks ← sort_keys ps; Ok (zip ks items)).
Proof.
  induction 1 as [|x p items ps Hx Hpts IH]; [done|].
  cbn [keyed sort_keys]. erewrite bind_ok by (by apply get_product_ok).
  destruct (sort_key p) as [k|e] eqn:Hk.
  - erewrite bind_ok by reflexivity.
    destruct (sort_keys ps) as [ks|e] eqn:Hks; simpl in IH.
    + by erewrite bind_ok by exact IH.
    + by erewrite bind_raise by exact IH.
  - by erewrite bind_raise by reflexivity.
Qed.

Lemma insert_by_key_same_keys {A B : Type} (R : A → B → Prop)
    (u : float * A) (v : float * B) la lb :
  u.1 = v.1 → R u.2 v.2 → same_keys R la lb →
  same_keys R (insert_by_key u la) (insert_by_key v lb).
Proof.
  intros Hkey HR. induction 1 as [|u' v' la lb [Hkey' HR'] Hrest IH]; simpl.
  - by repeat constructor.
  - rewrite Hkey, Hkey'. destruct (float_lt v'.1 v.1).
    + by constructor.
    + constructor; [done|]. by constructor.
Qed.

Lemma sort_by_key_same_keys {A B : Type} (R : A → B → Prop) la lb :
  same_keys R la lb → same_keys R (sort_by_key la) (sort_by_key lb).
Proof.
  induction 1 as [|u v la lb [Hkey HR] Hrest IH]; simpl; [constructor|].
  by apply insert_by_key_same_keys.
Qed.

Lemma zip_same_keys {A B : Type} (R : A → B → Prop) (ks : list float)
    (xs : list A) (ys : list B) :
  Forall2 R xs ys → same_keys R (zip ks xs) (zip ks ys).
Proof.
  intros H. revert ks. induction H as [|x y xs ys HR Hrest IH]; intros [|k ks];
    simpl; try constructor; [done|apply IH].
Qed.

Lemma same_keys_snd {A B : Type} (R : A → B → Prop) la lb :
  same_keys R la lb → Forall2 R (map snd la) (map snd lb).
Proof. induction 1 as [|u v la lb [_ HR] _ IH]; simpl; by constructor. Qed.

Lemma insert_by_key_perm {A : Type} (u : float * A) (l : list (float * A)) :
  insert_by_key u l ≡ₚ u :: l.
Proof.
  induction l as [|v l IH]; simpl; [done|].
  destruct (float_lt v.1 u.1); [|done].
  rewrite IH. apply Permutation_swap.
Qed.

Lemma sort_by_key_perm {A : Type} (l : list (float * A)) : sort_by_key l ≡ₚ l.
Proof.
  induction l as [|u l IH]; simpl; [done|].
  by rewrite insert_by_key_perm, IH.
Qed.

(** The payloads of a sorted zip are the payloads, in another order. *)
Lemma sorted_snd_perm {A : Type} (ks : list float) (xs : list A) :
  length ks = length xs → map snd (sort_by_key (zip ks xs)) ≡ₚ xs.
Proof. intros Hlen. rewrite sort_by_key_perm, snd_zip; [done|lia]. Qed.

Lemma sorted_spec h y items ps :
  h !! y = Some (ObjList items) → points_to h items ps →
  match sort_keys ps with
  | Ok ks =>
      ∃ sorted_items,
        sorted y h = (h ++ [ObjList sorted_items], Ok (length h))
        ∧ points_to h sorted_items (map snd (sort_by_key (zip ks ps)))
        ∧ sorted_items ≡ₚ items
  | Raise e => sorted y h = (h, Raise e)
  end.
Proof.
  intros Hy Hpts. pose proof (keyed_spec h items ps Hpts) as Hkeyed.
  unfold sorted. destruct (sort_keys ps) as [ks|e] eqn:Hks; simpl in Hkeyed.
  - exists (map snd (sort_by_key (zip ks items))). split; [|split].
    + erewrite bind_ok by (by apply get_list_ok).
      by erewrite bind_ok by exact Hkeyed.
    + apply same_keys_snd, sort_by_key_same_keys, zip_same_keys, Hpts.
    + apply sorted_snd_perm. apply Forall2_length in Hpts.
      unfold points_to in Hpts. rewrite Hpts. clear -Hks.
      revert ks Hks. induction ps as [|p ps IH]; intros ks; simpl.
      * by intros [= <-].
      * destruct (sort_key p); simpl; [|done].
        destruct (sort_keys ps) as [ks'|]; simpl; [|done].
        intros [= <-]. simpl. f_equal. by apply IH.
  - erewrite bind_ok by (by apply get_list_ok).
    by erewrite bind_raise by exact Hkeyed.
Qed.

(** *** The filter loop *)

Lemma filter_loop_spec (filterParams : FilterParams) (valid : loc) offers ps :
  ∀ hc (acc : list loc),
    points_to hc offers ps → hc !! valid = Some (ObjList acc) →
    ∃ h' kept,
      filter_loop filterParams offers valid hc = (h', Ok ())
      ∧ products_kept hc h'
      ∧ h' !! valid = Some (ObjList (acc ++ kept))
      ∧ points_to h' kept (List.filter (apply filterParams) ps)
      ∧ kept ⊆ offers.
Proof.
  revert ps. induction offers as [|offer offers IH]; intros ps hc acc Hpts Hvalid.
  - apply Forall2_nil_inv_l in Hpts as ->. exists hc, [].
    split; [done|]. split; [apply products_kept_refl|].
    rewrite app_nil_r. split; [done|]. split; [constructor|apply list_subseteq_nil].
  - apply Forall2_cons_inv_l in Hpts as (p & ps' & Hoffer & Hpts & ->).
    cbn [filter_loop List.filter].
    destruct (apply filterParams p) eqn:Hp.
    + set (hc1 := <[valid := ObjList (acc ++ [offer])]> hc).
      assert (Hk1 : products_kept hc hc1) by (by eapply products_kept_insert_list).
      destruct (IH ps' hc1 (acc ++ [offer]))
        as (h' & kept & Hrun & Hk & Hv & Hkept & Hsub).
      { by eapply points_to_kept. }
      { apply list_lookup_insert_eq. by eapply lookup_lt_Some. }
      exists h', (offer :: kept). split.
      { erewrite bind_ok by (by apply get_product_ok). rewrite Hp.
        erewrite bind_ok by (by apply append_ok). exact Hrun. }
      split; [eauto using products_kept_trans|].
      split; [by rewrite <- app_assoc in Hv|].
      split; [|by apply list_subseteq_skip].
      constructor; [|done]. by apply Hk, Hk1.
    + destruct (IH ps' hc acc Hpts Hvalid)
        as (h' & kept & Hrun & Hk & Hv & Hkept & Hsub).
      exists h', kept.
      split; [|split; [done|split; [done|split; [done|by apply list_subseteq_cons]]]].
      erewrite bind_ok by (by apply get_product_ok). rewrite Hp.
      erewrite bind_ok by reflexivity. exact Hrun.
Qed.

(** *** [_filter_valid_offer_item] and [get_dd_min_price] *)

(** The list that [_filter_valid_offer_item] returns holds, in this order,
    the products of [valid_offers_of], each in an object that did not exist
    before the call (a copy); it raises when a key does. *)
Lemma filter_valid_offer_item_values h l items ps (filterParams : FilterParams) :
  h !! l = Some (ObjList items) → points_to h items ps →
  match valid_offers_of filterParams ps with
  | Ok valid =>
      ∃ h' y kept,
        _filter_valid_offer_item l filterParams h = (h', Ok y)
        ∧ h' !! y = Some (ObjList kept)
        ∧ points_to h' kept valid
        ∧ Forall (fun c => h !! c = None) kept
  | Raise e => (_filter_valid_offer_item l filterParams h).2 = Raise e
  end.
Proof.
  intros Hl Hpts.
  destruct (deepcopy_spec h l items ps Hl Hpts)
    as (h1 & y1 & items1 & Hcopy & _ & Hy1 & Hpts1 & Hnew1).
  pose proof (sorted_spec h1 y1 items1 ps Hy1 Hpts1) as Hsorted.
  unfold valid_offers_of, _filter_valid_offer_item.
  erewrite bind_ok by exact Hcopy.
  destruct (sort_keys ps) as [ks|e]; simpl.
  - destruct Hsorted as (sorted_items & Hsorted & Hpts2 & Hperm).
    erewrite bind_ok by exact Hsorted.
    set (h2 := h1 ++ [ObjList sorted_items]).
    set (h3 := h2 ++ [ObjList []]).
    assert (Hpts3 : points_to h3 sorted_items (map snd (sort_by_key (zip ks ps)))).
    { eapply points_to_kept; [|exact Hpts2].
      eapply products_kept_trans; apply products_kept_alloc. }
    destruct (filter_loop_spec filterParams (length h2) sorted_items _ h3 [] Hpts3)
      as (h' & kept & Hrun & _ & Hv & Hkept & Hsub).
    { subst h3. by rewrite lookup_app_r, Nat.sub_diag. }
    exists h', (length h2), kept. split; [|split; [done|split; [done|]]].
    + erewrite bind_ok by reflexivity.
      erewrite bind_ok.
      2:{ apply get_list_ok. subst h3 h2.
          rewrite lookup_app_l by (rewrite length_app; simpl; lia).
          by rewrite lookup_app_r, Nat.sub_diag. }
      by erewrite bind_ok by exact Hrun.
    + rewrite Forall_forall in Hnew1 |- *. intros c Hc.
      apply lookup_ge_None, Hnew1. rewrite <- Hperm. by apply Hsub.
  - by erewrite bind_raise by exact Hsorted.
Qed.

Lemma min_loop_spec h (best : loc) (pb : DD373Product) xs ps :
  points_to h xs ps → h !! best = Some (ObjProduct pb) →
  ∃ b, min_loop best (price pb) xs h = (h, Ok b)
       ∧ h !! b = Some (ObjProduct (cheapest pb ps)).
Proof.
  intros Hpts. revert best pb.
  induction Hpts as [|x p xs ps Hx Hpts IH]; intros best pb Hbest.
  - by exists best.
  - cbn [min_loop cheapest]. erewrite bind_ok by (by apply get_product_ok).
    destruct (float_lt (price p) (price pb)); by apply IH.
Qed.

(** [get_dd_min_price] returns what [min_price_of] computes from the fields
    of the offers in the list, and raises what it raises. *)
Theorem get_dd_min_price_values h l items ps (DD_STOCKMIN DD_LEVELMIN : option Z) :
  h !! l = Some (ObjList items) → points_to h items ps →
  (get_dd_min_price DD_STOCKMIN DD_LEVELMIN l h).2
  = min_price_of DD_STOCKMIN DD_LEVELMIN ps.
Proof.
  intros Hl Hpts.
  pose proof (filter_valid_offer_item_values h l items ps
                (Params DD_STOCKMIN DD_LEVELMIN) Hl Hpts) as Hfilter.
  unfold get_dd_min_price, min_price_of.
  destruct (valid_offers_of _ ps) as [valid|e]; simpl.
  - destruct Hfilter as (h' & y & kept & Hrun & Hy & Hkept & _).
    erewrite bind_ok by exact Hrun.
    erewrite bind_ok by (by apply get_list_ok).
    destruct Hkept as [|first p kept valid Hfirst Hkept]; [done|].
    erewrite bind_ok by (by apply get_product_ok).
    destruct (min_loop_spec h' first p kept valid Hkept Hfirst) as (b & Hmin & Hb).
    erewrite bind_ok by exact Hmin.
    by erewrite bind_ok by (by apply get_product_ok).
  - unfold mbind, M_bind.
    destruct (_filter_valid_offer_item l _ h) as [h' r]. simpl in Hfilter.
    by subst r.
Qed.

End RefinementFacts.

(* ===================================================================== *)
(** ** The sort and the minimum on values *)
(* ===================================================================== *)

Section OrderFacts.
Context {F : Float} {L : FloatLaws F}.

Lemma float_lt_asym (a b : float) : float_lt a b = true → float_lt b a = false.
Proof.
  intros Hab. destruct (float_lt b a) eqn:Hba; [|done].
  by rewrite <- (float_lt_irrefl a), (float_lt_trans a b a).
Qed.

(** *** [sorted]: a permutation in ascending order *)

Lemma insert_by_key_sorted {A : Type} (u : float * A) (l : list (float * A)) :
  Forall (fun v => float_isnan v.1 = false) l →
  StronglySorted not_above l → StronglySorted not_above (insert_by_key u l).
Proof.
  intros Hnan Hsorted. induction Hsorted as [|v l Hl IH Hv]; simpl.
  - repeat constructor.
  - inversion_clear Hnan as [|?? Hvnan Hlnan].
    destruct (float_lt v.1 u.1) eqn:Hvu.
    + constructor; [by apply IH|].
      rewrite insert_by_key_perm. constructor; [|done].
      by apply float_lt_asym.
    + constructor; [by constructor|]. constructor; [done|].
      rewrite Forall_forall in Hv |- *. intros w Hw. unfold not_above.
      destruct (float_lt w.1 u.1) eqn:Hwu; [|done].
      destruct (float_lt_cotrans w.1 v.1 u.1 Hvnan Hwu) as [Hwv|Hvu'].
      * by rewrite (Hv w Hw) in Hwv.
      * by rewrite Hvu in Hvu'.
Qed.

(** Without NaN among the keys the result of the sort is ascending: no
    element has a key below that of an element before it. *)
Lemma sort_by_key_sorted {A : Type} (l : list (float * A)) :
  Forall (fun v => float_isnan v.1 = false) l →
  StronglySorted not_above (sort_by_key l).
Proof.
  induction 1 as [|u l Hu Hl IH]; simpl; [constructor|].
  apply insert_by_key_sorted; [|done].
  by rewrite sort_by_key_perm.
Qed.

(** *** [min]: the first product of least price *)

(** The loop of [min]: [best] is the minimum so far, the products [before]
    it are above it, the products [skipped] since are not below it. *)
Lemma cheapest_spec (rest : list DD373Product) :
  Forall (fun p => float_isnan (price p) = false) rest →
  ∀ (best : DD373Product) (before skipped : list DD373Product),
    Forall (fun p => float_isnan (price p) = false) skipped →
    Forall (fun p => float_lt (price best) (price p) = true) before →
    Forall (fun p => float_lt (price p) (price best) = false) skipped →
    first_cheapest (cheapest best rest) (before ++ best :: skipped ++ rest).
Proof.
  induction 1 as [|p rest Hp Hrest IH]; intros best before skipped Hnan Hbefore Hskipped.
  - exists before, skipped. by rewrite app_nil_r.
  - cbn [cheapest]. destruct (float_lt (price p) (price best)) eqn:Hlt.
    + replace (before ++ best :: skipped ++ p :: rest)
        with ((before ++ best :: skipped) ++ p :: [] ++ rest)
        by (by rewrite <- app_assoc).
      apply IH; [done| |done].
      apply Forall_app. split; [|constructor; [done|]].
      * eapply Forall_impl; [exact Hbefore|]. intros r Hr. simpl in Hr.
        by eapply float_lt_trans.
      * rewrite Forall_forall in Hnan, Hskipped |- *. intros r Hr.
        destruct (float_lt_cotrans _ (price r) _ (Hnan r Hr) Hlt) as [|Hrb]; [done|].
        by rewrite (Hskipped r Hr) in Hrb.
    + replace (before ++ best :: skipped ++ p :: rest)
        with (before ++ best :: (skipped ++ [p]) ++ rest)
        by (by rewrite <- (app_assoc skipped)).
      apply IH; [|done|]; apply Forall_app; split; by repeat constructor.
Qed.

(** Without NaN among the prices, [min] returns the first product of least
    price. *)
Lemma cheapest_first (first : DD373Product) (rest : list DD373Product) :
  Forall (fun p => float_isnan (price p) = false) rest →
  first_cheapest (cheapest first rest) (first :: rest).
Proof. intros Hnan. by apply (cheapest_spec rest Hnan first [] []). Qed.

End OrderFacts.

(* ===================================================================== *)
(** ** The sort key *)
(* ===================================================================== *)

Section SortKeyFacts.
Context {F : Float}.

Lemma join_empty_cons (x : str) (parts : list str) :
  join [] (x :: parts) = x ++ join [] parts.
Proof. destruct parts; simpl; by rewrite ?app_nil_r. Qed.

(** [s.replace(c, '')] removes every [c]. *)
Lemma replace_single_empty (s : str) (c : char) :
  replace s [c] [] = List.filter (is_not c) s.
Proof.
  unfold replace, split.
  enough (H : ∀ cur, join [] (split_from [c] 0 cur s)
                     = rev cur ++ List.filter (is_not c) s) by apply (H []).
  induction s as [|d s IH]; intros cur.
  - simpl. by rewrite app_nil_r.
  - cbn [split_from List.filter]. rewrite startswith_single. unfold is_not at 1.
    change (length [c] - 1)%nat with 0%nat.
    case_bool_decide as Hcd.
    + subst d. rewrite N.eqb_refl. cbn [negb].
      by rewrite join_empty_cons, IH.
    + rewrite (proj2 (N.eqb_neq d c)) by done. cbn [negb].
      rewrite IH. cbn [rev]. by rewrite <- app_assoc.
Qed.

(** The first piece of a split at [c] is the text before the first [c]. *)
Lemma split_single_head (s : str) (c : char) :
  ∃ rest, split s [c] = take_while (is_not c) s :: rest.
Proof.
  assert (Hnone : ∀ t, c ∉ t → take_while (is_not c) t = t).
  { induction t as [|d t IH]; [done|]. intros [Hne Hnot]%not_elem_of_cons.
    simpl. unfold is_not at 1. rewrite (proj2 (N.eqb_neq d c)) by done.
    simpl. by rewrite IH. }
  destruct (first_occurrence c s) as [Hnot|(before & after & -> & Hnot)].
  - exists []. by rewrite split_single_none, Hnone.
  - exists (split after [c]). rewrite split_single by done. f_equal.
    clear -Hnot. induction before as [|d before IH]; simpl.
    + unfold is_not. by rewrite N.eqb_refl.
    + apply not_elem_of_cons in Hnot as [Hne Hnot]. unfold is_not at 1.
      rewrite (proj2 (N.eqb_neq d c)) by done. simpl. f_equal. by apply IH.
Qed.

(** A rate line without ['='], the empty one included, has the key
    [float('inf')]. *)
Lemma sort_key_no_marker (x : DD373Product) :
  ch_eq ∉ exchange_rate_2 x → sort_key x = Ok float_inf.
Proof.
  intros Hnot%contains_single_false. unfold sort_key. by rewrite Hnot.
Qed.

(** A rate line with ['=']: the key is the float read from the text between
    the first ['='] and the next one (or the end), without ['元'] and without
    the blanks around; it is a [ValueError] when that text is no float. *)
Lemma sort_key_marker (x : DD373Product) (before after : str) :
  exchange_rate_2 x = before ++ ch_eq :: after → ch_eq ∉ before →
  sort_key x =
  match float_of_str (strip (List.filter (is_not ch_yuan)
                                         (take_while (is_not ch_eq) after))) with
  | Some k => Ok k
  | None => Raise ValueError
  end.
Proof.
  intros Hrate Hnot. unfold sort_key. rewrite Hrate.
  assert (contains (before ++ ch_eq :: after) [ch_eq] = true) as ->.
  { apply contains_single. set_solver. }
  rewrite split_single by done.
  destruct (split_single_head after ch_eq) as [rest ->]. simpl.
  by rewrite replace_single_empty.
Qed.

(** The key raises nothing but [ValueError]. *)
Lemma sort_key_raises (x : DD373Product) (e : exn) :
  sort_key x = Raise e → e = ValueError.
Proof.
  destruct (first_occurrence ch_eq (exchange_rate_2 x))
    as [Hnot|(before & after & Hrate & Hnot)].
  - by rewrite sort_key_no_marker.
  - rewrite (sort_key_marker x before after Hrate Hnot).
    destruct (float_of_str _); [done|]. by intros [= <-].
Qed.

(** *** All the keys of a list *)

Lemma sort_keys_ok (ps : list DD373Product) (ks : list float) :
  sort_keys ps = Ok ks ↔ Forall2 (fun p k => sort_key p = Ok k) ps ks.
Proof.
  revert ks. induction ps as [|p ps IH]; intros ks; simpl.
  - split; [by intros [= <-]; constructor|]. by intros ->%Forall2_nil_inv_l.
  - destruct (sort_key p) as [k|e] eqn:Hk; simpl.
    + destruct (sort_keys ps) as [ks'|e] eqn:Hks; simpl.
      * split.
        -- intros [= <-]. constructor; [done|]. by apply IH.
        -- intros (k' & ks'' & Hk' & Hks' & ->)%Forall2_cons_inv_l.
           apply IH in Hks'. congruence.
      * split; [done|].
        intros (k' & ks'' & Hk' & Hks' & ->)%Forall2_cons_inv_l.
        by apply IH in Hks'.
    + split; [done|].
      intros (k' & ks'' & Hk' & Hks' & ->)%Forall2_cons_inv_l. congruence.
Qed.

Lemma sort_keys_length (ps : list DD373Product) (ks : list float) :
  sort_keys ps = Ok ks → length ks = length ps.
Proof. intros H%sort_keys_ok. symmetry. by eapply Forall2_length. Qed.

(** The sort raises exactly when some key does, and then a [ValueError]. *)
Lemma sort_keys_raises (ps : list DD373Product) :
  (∃ e, sort_keys ps = Raise e)
  ↔ Exists (fun p => sort_key p = Raise ValueError) ps.
Proof.
  induction ps as [|p ps IH]; simpl.
  - split; [by intros [? ?]|by intros ?%Exists_nil].
  - rewrite Exists_cons, <- IH.
    destruct (sort_key p) as [k|e] eqn:Hk; simpl.
    + destruct (sort_keys ps) as [ks|e]; simpl.
      * split; [by intros [? ?]|]. intros [?|[? ?]]; done.
      * split; [intros _; right; by eexists|intros _; by eexists].
    + pose proof (sort_key_raises p e Hk) as ->.
      split; [by left|by eexists].
Qed.

Lemma sort_keys_raises_value (ps : list DD373Product) (e : exn) :
  sort_keys ps = Raise e → e = ValueError.
Proof.
  induction ps as [|p ps IH]; simpl; [done|].
  destruct (sort_key p) as [k|e'] eqn:Hk; simpl.
  - destruct (sort_keys ps) as [ks|e']; simpl; [done|].
    intros [= <-]. by apply IH.
  - intros [= <-]. by eapply sort_key_raises.
Qed.

(** The sorted products are the products, in another order. *)
Lemma sorted_products_perm (ps : list DD373Product) (ks : list float) :
  length ks = length ps → map snd (sort_by_key (zip ks ps)) ≡ₚ ps.
Proof. apply sorted_snd_perm. Qed.

End SortKeyFacts.

(* ===================================================================== *)
(** ** What [get_dd_min_price] returns *)
(* ===================================================================== *)

Section SelectionFacts.
Context {F : Float} {L : FloatLaws F}.

Implicit Types (ps : list DD373Product) (filterParams : FilterParams).

Lemma filter_nil_iff {A : Type} (f : A → bool) (l : list A) :
  List.filter f l = [] ↔ Forall (fun a => f a = false) l.
Proof.
  induction l as [|a l IH]; simpl; [by split; [constructor|]|].
  destruct (f a) eqn:Ha.
  - split; [done|]. intros H. inversion H; congruence.
  - rewrite IH. split; [by constructor|]. by inversion 1.
Qed.

(** No offer is valid exactly when every key is a float and no product
    passes the filter. *)
Lemma valid_offers_nil_iff filterParams ps :
  valid_offers_of filterParams ps = Ok []
  ↔ (∃ ks, sort_keys ps = Ok ks)
    ∧ Forall (fun p => apply filterParams p = false) ps.
Proof.
  unfold valid_offers_of. destruct (sort_keys ps) as [ks|e] eqn:Hks; simpl.
  - rewrite <- (sorted_products_perm ps ks) at 2 by (by apply sort_keys_length).
    rewrite <- filter_nil_iff. split.
    + intros [= ->]. split; [by eexists|done].
    + by intros [_ ->].
  - split; [done|]. by intros [[? ?] _].
Qed.

(** The value of [min_price_of], case by case:
    - it raises, a [ValueError], exactly when some key does;
    - it is [None] exactly when every key is a float and no product passes
      the filter;
    - otherwise, with no NaN among the keys and the prices, it is the price,
      title and stock of the first product of least price among the products
      that pass the filter, taken in the order of the sort. *)
Lemma min_price_of_cases (DD_STOCKMIN DD_LEVELMIN : option Z) ps :
  let filterParams := Params DD_STOCKMIN DD_LEVELMIN in
  let r := min_price_of DD_STOCKMIN DD_LEVELMIN ps in
  (r = Raise ValueError ↔ Exists (fun p => sort_key p = Raise ValueError) ps)
  ∧ (r = Ok None
     ↔ (∃ ks, sort_keys ps = Ok ks)
       ∧ Forall (fun p => apply filterParams p = false) ps)
  ∧ (∀ ks, sort_keys ps = Ok ks →
       Forall (fun k => float_isnan k = false) ks →
       Exists (fun p => apply filterParams p = true) ps →
       Forall (fun p => float_isnan (price p) = false) ps →
       ∃ q, r = Ok (Some (price q, title q, stock q))
            ∧ first_cheapest q
                (List.filter (apply filterParams)
                             (map snd (sort_by_key (zip ks ps))))).
Proof.
  intros filterParams r. subst r. unfold min_price_of. fold filterParams.
  split; [|split].
  - rewrite <- sort_keys_raises. unfold valid_offers_of.
    destruct (sort_keys ps) as [ks|e] eqn:Hks; simpl.
    + split; [done|]. by intros [? ?].
    + apply sort_keys_raises_value in Hks as ->. split; [by eexists|done].
  - rewrite <- valid_offers_nil_iff.
    destruct (valid_offers_of filterParams ps) as [[|first rest]|e]; simpl;
      split; congruence.
  - intros ks Hks _ Hsome Hnan. unfold valid_offers_of. rewrite Hks. simpl.
    pose proof (sorted_products_perm ps ks (sort_keys_length _ _ Hks)) as Hperm.
    set (sorted_ps := map snd (sort_by_key (zip ks ps))) in *.
    destruct (List.filter (apply filterParams) sorted_ps) as [|first rest] eqn:Hvalid.
    + exfalso. apply filter_nil_iff in Hvalid. rewrite Hperm in Hvalid.
      apply Exists_exists in Hsome as (p & Hp & Happly).
      rewrite Forall_forall in Hvalid. by rewrite (Hvalid p Hp) in Happly.
    + exists (cheapest first rest). split; [done|]. apply cheapest_first.
      assert (Hall : Forall (fun p => float_isnan (price p) = false) (first :: rest)).
      { rewrite <- Hvalid. rewrite <- Hperm in Hnan.
        rewrite Forall_forall in Hnan |- *. intros p Hp. apply Hnan.
        apply list_elem_of_In in Hp. apply filter_In in Hp as [Hp _].
        by apply list_elem_of_In. }
      by inversion Hall.
Qed.

(** The same of [get_dd_min_price] on a store in which the list [l] holds
    references to the products [ps]. *)
Theorem get_dd_min_price_cases (h : heap) (l : loc) (items : list loc)
    (DD_STOCKMIN DD_LEVELMIN : option Z) ps :
  h !! l = Some (ObjList items) → points_to h items ps →
  let filterParams := Params DD_STOCKMIN DD_LEVELMIN in
  let r := (get_dd_min_price DD_STOCKMIN DD_LEVELMIN l h).2 in
  (r = Raise ValueError ↔ Exists (fun p => sort_key p = Raise ValueError) ps)
  ∧ (r = Ok None
     ↔ (∃ ks, sort_keys ps = Ok ks)
       ∧ Forall (fun p => apply filterParams p = false) ps)
  ∧ (∀ ks, sort_keys ps = Ok ks →
       Forall (fun k => float_isnan k = false) ks →
       Exists (fun p => apply filterParams p = true) ps →
       Forall (fun p => float_isnan (price p) = false) ps →
       ∃ q, r = Ok (Some (price q, title q, stock q))
            ∧ first_cheapest q
                (List.filter (apply filterParams)
                             (map snd (sort_by_key (zip ks ps))))).
Proof.
  intros Hl Hpts filterParams r. subst r.
  rewrite (get_dd_min_price_values h l items ps _ _ Hl Hpts).
  apply min_price_of_cases.
Qed.

(** On the empty list the result is [None]; the loop body, and with it the
    filter, is never entered. *)
Lemma get_dd_min_price_empty (h : heap) (l : loc)
    (DD_STOCKMIN DD_LEVELMIN : option Z) :
  h !! l = Some (ObjList []) →
  (get_dd_min_price DD_STOCKMIN DD_LEVELMIN l h).2 = Ok None.
Proof.
  intros Hl.
  assert (Hpts : points_to h [] []) by constructor.
  by rewrite (get_dd_min_price_values h l [] [] _ _ Hl Hpts).
Qed.

(** The valid offers come out in ascending order of their keys when no key
    is NaN. *)
Lemma sorted_products_ascending ps (ks : list float) :
  Forall (fun k => float_isnan k = false) ks →
  StronglySorted not_above (sort_by_key (zip ks ps)).
Proof.
  intros Hnan. apply sort_by_key_sorted.
  rewrite Forall_forall in Hnan. apply Forall_forall. intros [k p] Hin. simpl.
  apply Hnan. by apply elem_of_zip_l in Hin.
Qed.

End SelectionFacts.

(* ===================================================================== *)
(** ** The ranker on rate lines without a number *)
(* ===================================================================== *)

(** The key of a rate line that ends at the ['='], for every lawful float. *)
Lemma sort_key_nothing_after_marker {F : Float} {L : FloatLaws F}
    (product : DD373Product) (before : str) :
  exchange_rate_2 product = before ++ [ch_eq] → ch_eq ∉ before →
  sort_key product = Raise ValueError.
Proof.
  intros Hrate Hnot. unfold sort_key. rewrite Hrate.
  rewrite split_single by done.
  assert (contains (before ++ [ch_eq]) [ch_eq] = true) as ->.
  { apply contains_single. set_solver. }
  simpl. by rewrite float_of_str_empty.
Qed.

(** C2 on the rate line [1钻=abc元]: the part after ['='] is not a number,
    the key is not infinity but a [ValueError], and the ranker raises it. *)
Theorem sort_key_malformed_raises :
  exchange_rate_2 offer_bad = rate_line "abc"
  ∧ sort_key offer_bad = Raise ValueError
  ∧ sort_key offer_bad ≠ Ok float_inf
  ∧ (_filter_valid_offer_item 1%nat FilterParams_init (store_of [offer_bad])).2
    = Raise ValueError.
Proof. repeat split; try reflexivity. discriminate. Qed.

(** C3 on the offers A (eligible, well-formed rate line) and D (rate line
    without a number): no offer is returned, the call raises [ValueError]. *)
Theorem select_best_raises_despite_eligible :
  apply (Params (Some 1) (Some 1)) offer_A = true
  ∧ sort_key offer_A = Ok (DFin 570 10000)
  ∧ (get_dd_min_price (Some 1) (Some 1) 2%nat (store_of [offer_A; offer_bad])).2
    = Raise ValueError.
Proof. repeat split; reflexivity. Qed.

(** C7 on the single offer D, which fails the filter (stock 0 < 1): the
    result is not [None], the call raises [ValueError]. *)
Theorem no_eligible_offer_raises :
  apply (Params (Some 1) (Some 1)) offer_bad = false
  ∧ (get_dd_min_price (Some 1) (Some 1) 1%nat (store_of [offer_bad])).2
    = Raise ValueError
  ∧ (get_dd_min_price (Some 1) (Some 1) 1%nat (store_of [offer_bad])).2 ≠ Ok None.
Proof. repeat split; try reflexivity. discriminate. Qed.

(** Such an offer comes out of the extractor: the listing with the rate line
    [1钻=abc元] is extracted without error, and ranking it raises. *)
Example extracted_offer_raises :
  from_html_element malformed_rate_listing domain = Ok malformed_rate_product
  ∧ exchange_rate_2 malformed_rate_product = exchange_rate_2 offer_bad
  ∧ (get_dd_min_price (Some 1) (Some 1) 1%nat (store_of [malformed_rate_product])).2
    = Raise ValueError.
Proof. repeat split; reflexivity. Qed.

(** The keys of the specification's examples: ["1=0.057元"] has the key
    0.057, the empty line the key infinity. *)
Example sort_key_examples :
  sort_key (offer "E" (DFin 1 1) 1 1 (lit "1=0.057" ++ [ch_yuan])) = Ok (DFin 57 1000)
  ∧ sort_key (offer "E" (DFin 1 1) 1 1 []) = Ok (DInf false).
Proof. split; reflexivity. Qed.

(** With well-formed rate lines the offers come out by ascending key and
    the cheapest valid one is returned: C (key 0.03) before A (key 0.057),
    both at price 10.0, so C wins the tie. *)
Example select_best_tie_example :
  (get_dd_min_price (Some 1) (Some 1) 3%nat (store_of [offer_A; offer_B; offer_C])).2
  = Ok (Some (DFin 100 10, lit "C", 9)).
Proof. reflexivity. Qed.

(** The example of the specification: A survives, B is excluded. *)
Example select_best_example :
  (get_dd_min_price (Some 1) (Some 1) 2%nat (store_of [offer_A; offer_B])).2
  = Ok (Some (DFin 100 10, lit "A", 5)).
Proof. reflexivity. Qed.

(* ===================================================================== *)
(** ** Splitting at a separator of several characters *)
(* ===================================================================== *)

Section OccurrenceFacts.

Implicit Types (s sep cur rest : str) (n : nat).

Lemma startswith_app sep rest : startswith (sep ++ rest) sep = true.
Proof. induction sep as [|c sep IH]; simpl; [done|]. by rewrite N.eqb_refl. Qed.

Lemma startswith_inv s sep : startswith s sep = true → ∃ rest, s = sep ++ rest.
Proof.
  revert s. induction sep as [|c sep IH]; intros s; simpl; [by exists s|].
  destruct s as [|d s]; [done|].
  intros [Hcd [rest ->]%IH]%andb_prop. apply N.eqb_eq in Hcd as ->. by exists rest.
Qed.

(** The characters of an occurrence are passed over. *)
Lemma split_from_skip sep (passed : str) cur rest :
  split_from sep (length passed) cur (passed ++ rest) = split_from sep 0 cur rest
  ∨ (rest = [] ∧ split_from sep (length passed) cur (passed ++ rest) = [rev cur]).
Proof.
  induction passed as [|c passed IH]; simpl; [by left|].
  destruct IH as [IH|[-> IH]]; [by left|]. right. by rewrite IH.
Qed.

Lemma split_from_nil sep cur : split_from sep 0 cur [] = [rev cur].
Proof. done. Qed.

Lemma split_from_passed sep (passed : str) cur rest :
  split_from sep (length passed) cur (passed ++ rest) = split_from sep 0 cur rest.
Proof.
  destruct (split_from_skip sep passed cur rest) as [H|[-> H]]; [done|].
  by rewrite H.
Qed.

Lemma first_at_zero s sep : first_at s sep 0 ↔ startswith s sep = true.
Proof.
  unfold first_at. rewrite drop_0. split; [by intros [? _]|].
  intros H. split; [done|]. intros i Hi. lia.
Qed.

Lemma first_at_succ (c : char) s sep n :
  sep ≠ [] →
  first_at (c :: s) sep (S n) ↔ startswith (c :: s) sep = false ∧ first_at s sep n.
Proof.
  intros Hsep. unfold first_at. split.
  - intros [Hat Hbefore]. split; [apply (Hbefore 0%nat); lia|].
    split; [done|]. intros i Hi. apply (Hbefore (S i)). lia.
  - intros [Hhere [Hat Hbefore]]. split; [done|].
    intros [|i] Hi; [done|]. apply Hbefore. lia.
Qed.

Lemma first_at_nonempty s sep n : sep ≠ [] → first_at s sep (S n) → s ≠ [].
Proof.
  intros Hsep [Hat _] ->. destruct sep; [done|]. by rewrite drop_nil in Hat.
Qed.

(** The split at the first occurrence: the text before it, then the split of
    the text after it. *)
Lemma split_from_first sep n : sep ≠ [] → ∀ s cur,
  first_at s sep n →
  split_from sep 0 cur s
  = (rev cur ++ take n s) :: split_from sep 0 [] (drop (n + length sep) s).
Proof.
  intros Hsep. induction n as [|n IH]; intros s cur Hfirst.
  - apply first_at_zero in Hfirst. destruct (startswith_inv _ _ Hfirst) as [rest ->].
    destruct sep as [|c sep]; [done|]. cbn [app split_from].
    change (c :: sep ++ rest) with ((c :: sep) ++ rest). rewrite startswith_app.
    cbn [length]. rewrite Nat.sub_succ, Nat.sub_0_r, split_from_passed.
    rewrite take_0, app_nil_r. simpl. by rewrite drop_app_length.
  - pose proof (first_at_nonempty _ _ _ Hsep Hfirst) as Hne.
    destruct s as [|c s]; [done|].
    apply first_at_succ in Hfirst as [Hhere Hfirst]; [|done].
    cbn [split_from]. rewrite Hhere, (IH _ _ Hfirst). cbn [rev].
    by rewrite <- app_assoc.
Qed.

Lemma split_first s sep n :
  sep ≠ [] → first_at s sep n →
  split s sep = take n s :: split (drop (n + length sep) s) sep.
Proof. intros Hsep Hfirst. unfold split. by rewrite (split_from_first sep n). Qed.

Lemma contains_false s sep :
  contains s sep = false ↔ ∀ i, startswith (drop i s) sep = false.
Proof.
  induction s as [|c s IH]; cbn [contains].
  - rewrite orb_false_r. split; [|intros H; apply (H 0%nat)].
    intros H i. by rewrite drop_nil.
  - rewrite orb_false_iff, IH. split.
    + intros [Hhere Hrest] [|i]; [done|apply Hrest].
    + intros H. split; [apply (H 0%nat)|]. intros i. apply (H (S i)).
Qed.

(** Without an occurrence the split is the string itself. *)
Lemma split_from_none sep s cur :
  contains s sep = false → split_from sep 0 cur s = [rev cur ++ s].
Proof.
  revert cur. induction s as [|c s IH]; intros cur; cbn [contains split_from].
  - by rewrite app_nil_r.
  - intros [Hhere Hrest]%orb_false_iff. rewrite Hhere, IH by done.
    cbn [rev]. by rewrite <- app_assoc.
Qed.

Lemma split_none s sep : contains s sep = false → split s sep = [s].
Proof. apply split_from_none. Qed.

(** A string that contains [sep] has a first occurrence of it. *)
Lemma contains_first_at s sep : contains s sep = true → ∃ n, first_at s sep n.
Proof.
  destruct sep as [|c0 sep0] eqn:Hsep.
  { intros _. exists 0%nat. by apply first_at_zero. }
  rewrite <- Hsep. assert (Hne : sep ≠ []) by (by rewrite Hsep). clear Hsep.
  induction s as [|c s IH]; cbn [contains].
  - rewrite orb_false_r. intros H. exists 0%nat. by apply first_at_zero.
  - destruct (startswith (c :: s) sep) eqn:Hhere.
    + intros _. exists 0%nat. by apply first_at_zero.
    + simpl. intros [n Hn]%IH. exists (S n). by apply first_at_succ.
Qed.

Lemma first_at_contains s sep n : first_at s sep n → contains s sep = true.
Proof.
  intros [Hat _]. destruct (contains s sep) eqn:Hc; [done|].
  rewrite contains_false in Hc. by rewrite Hc in Hat.
Qed.

(** The first occurrence of [sep] in [before ++ sep ++ after] is at the end
    of [before] when [sep] does not start earlier. *)
Lemma first_at_app before sep after :
  (∀ i, (i < length before)%nat →
        startswith (drop i (before ++ sep ++ after)) sep = false) →
  first_at (before ++ sep ++ after) sep (length before).
Proof.
  intros Hbefore. split; [|done].
  by rewrite drop_app_length, startswith_app.
Qed.

Lemma first_at_unique s sep n m : first_at s sep n → first_at s sep m → n = m.
Proof.
  intros [Hn Hbn] [Hm Hbm]. destruct (Nat.lt_trichotomy n m) as [Hlt|[->|Hlt]];
    [|done|].
  - by rewrite (Hbm n Hlt) in Hn.
  - by rewrite (Hbn m Hlt) in Hm.
Qed.

End OccurrenceFacts.

(* ===================================================================== *)
(** ** The text fields of an extracted record *)
(* ===================================================================== *)

Section TextFieldFacts.
Context {F : Float}.

Implicit Types (item : Tag) (domain : str) (p product raw : DD373Product).

Ltac unfold_steps :=
  unfold title_fields, rate_fields, step_title, step_server_info, step_price,
    step_rates, rates_of, step_credit, step_purchase_url.

Ltac frame_cases := intros; unfold_steps; repeat case_match; reflexivity.

(** *** Sections 2 to 7 leave the title, the URL and the product id *)

Lemma title_fields_step_server_info item p :
  title_fields (step_server_info item p) = title_fields p.
Proof. frame_cases. Qed.

Lemma title_fields_step_price item p :
  title_fields (step_price item p) = title_fields p.
Proof. frame_cases. Qed.

Lemma title_fields_step_rates item p :
  title_fields (step_rates item p) = title_fields p.
Proof. frame_cases. Qed.

Lemma title_fields_step_credit item p :
  title_fields (step_credit item p) = title_fields p.
Proof. frame_cases. Qed.

Lemma title_fields_step_purchase_url item p :
  title_fields (step_purchase_url item p) = title_fields p.
Proof. frame_cases. Qed.

(** *** The server info is written by section 2 only *)

Lemma server_info_step_title item domain p :
  server_info (step_title item domain p) = server_info p.
Proof. frame_cases. Qed.

Lemma server_info_step_price item p :
  server_info (step_price item p) = server_info p.
Proof. frame_cases. Qed.

Lemma server_info_step_rates item p :
  server_info (step_rates item p) = server_info p.
Proof. frame_cases. Qed.

Lemma server_info_step_credit item p :
  server_info (step_credit item p) = server_info p.
Proof. frame_cases. Qed.

Lemma server_info_step_purchase_url item p :
  server_info (step_purchase_url item p) = server_info p.
Proof. frame_cases. Qed.

(** *** The rate lines are written by section 5 only *)

Lemma rate_fields_step_title item domain p :
  rate_fields (step_title item domain p) = rate_fields p.
Proof. frame_cases. Qed.

Lemma rate_fields_step_server_info item p :
  rate_fields (step_server_info item p) = rate_fields p.
Proof. frame_cases. Qed.

Lemma rate_fields_step_price item p :
  rate_fields (step_price item p) = rate_fields p.
Proof. frame_cases. Qed.

Lemma rate_fields_step_credit item p :
  rate_fields (step_credit item p) = rate_fields p.
Proof. frame_cases. Qed.

Lemma rate_fields_step_purchase_url item p :
  rate_fields (step_purchase_url item p) = rate_fields p.
Proof. frame_cases. Qed.

(** *** The price is written by section 3 only, before section 8 *)

Lemma price_step_title item domain p :
  price (step_title item domain p) = price p.
Proof. frame_cases. Qed.

Lemma price_step_server_info item p :
  price (step_server_info item p) = price p.
Proof. frame_cases. Qed.

Lemma price_step_rates item p : price (step_rates item p) = price p.
Proof. frame_cases. Qed.

Lemma price_step_credit item p : price (step_credit item p) = price p.
Proof. frame_cases. Qed.

Lemma price_step_purchase_url item p : price (step_purchase_url item p) = price p.
Proof. frame_cases. Qed.

Lemma step_price_value item p :
  price (step_price item p) =
  match select_one (by_class "goods-price") item with
  | Some price_elem =>
      match float_of_str (keep_digits_and_dots (text price_elem)) with
      | Some x => x
      | None => float_zero
      end
  | None => price p
  end.
Proof. unfold step_price. by repeat case_match. Qed.

Lemma scrape_fields_price item domain raw :
  scrape_fields item domain = Ok raw →
  price raw =
  match select_one (by_class "goods-price") item with
  | Some price_elem =>
      match float_of_str (keep_digits_and_dots (text price_elem)) with
      | Some x => x
      | None => float_zero
      end
  | None => float_zero
  end.
Proof.
  unfold scrape_fields.
  destruct (step_stock item _) as [p4|e] eqn:H4; simpl; [|done].
  intros [= <-]. rewrite price_step_purchase_url, price_step_credit, price_step_rates.
  apply step_stock_only_stock in H4. rewrite H4.
  change (price (set_stock ?n ?q)) with (price q).
  rewrite step_price_value. destruct (select_one _ item); [done|].
  by rewrite price_step_server_info, price_step_title.
Qed.

(** Section 8 leaves every text field. *)
Lemma step_quantity_texts p p' :
  step_quantity p = Ok p' →
  title_fields p' = title_fields p ∧ server_info p' = server_info p
  ∧ rate_fields p' = rate_fields p.
Proof.
  unfold step_quantity.
  pose proof (bundle_quantity_only_stock p) as H.
  destruct (bundle_quantity p) as [q p1]. simpl in H.
  destruct (q >? 0).
  - destruct (float_div_int (price p1) q) as [x|e]; simpl; [|done].
    intros [= <-]. rewrite H. by destruct p.
  - intros [= <-]. rewrite H. by destruct p.
Qed.

(** *** What sections 2 and 5 write *)

Lemma step_server_info_value item p :
  server_info (step_server_info item p) =
  match select_one (by_class "game-qufu-attr") item with
  | Some server_info_elem =>
      match map (fun a => strip (text a)) (select (by_name "a") server_info_elem) with
      | [] => []
      | servers => join (lit "/") servers
      end
  | None => server_info p
  end.
Proof. unfold step_server_info. by repeat case_match. Qed.

Lemma step_rates_value item p :
  rate_fields (step_rates item p) =
  match select_one (by_class "kucun") item with
  | Some kucun_div =>
      match select (by_name "p") kucun_div with
      | p0 :: p1 :: _ => (strip (text p0), strip (text p1))
      | [_] => rate_fields p
      | [] =>
          match select_one (by_class "width233") item with
          | Some old_rate_div =>
              match select (by_name "p") old_rate_div with
              | q0 :: q1 :: _ => (strip (text q0), strip (text q1))
              | _ => rate_fields p
              end
          | None => rate_fields p
          end
      end
  | None => rate_fields p
  end.
Proof. unfold step_rates, rates_of, rate_fields. by repeat case_match. Qed.

(** *** The text fields of the record that the extractor returns *)

Lemma from_html_element_title_fields item domain product :
  from_html_element item domain = Ok product →
  title_fields product = title_fields (step_title item domain new_product).
Proof.
  intros (p4 & raw & H4 & -> & _ & H8)%from_html_element_inv.
  apply step_quantity_texts in H8 as (-> & _ & _).
  rewrite title_fields_step_purchase_url, title_fields_step_credit,
    title_fields_step_rates.
  apply step_stock_only_stock in H4. rewrite H4.
  change (title_fields (set_stock ?n ?q)) with (title_fields q).
  by rewrite title_fields_step_price, title_fields_step_server_info.
Qed.

Lemma from_html_element_server_info item domain product :
  from_html_element item domain = Ok product →
  server_info product = server_info (step_server_info item new_product).
Proof.
  intros (p4 & raw & H4 & -> & _ & H8)%from_html_element_inv.
  apply step_quantity_texts in H8 as (_ & -> & _).
  rewrite server_info_step_purchase_url, server_info_step_credit,
    server_info_step_rates.
  apply step_stock_only_stock in H4. rewrite H4.
  change (server_info (set_stock ?n ?q)) with (server_info q).
  rewrite server_info_step_price, !step_server_info_value.
  by rewrite server_info_step_title.
Qed.

Lemma from_html_element_rate_fields item domain product :
  from_html_element item domain = Ok product →
  rate_fields product = rate_fields (step_rates item new_product).
Proof.
  intros (p4 & raw & H4 & -> & _ & H8)%from_html_element_inv.
  apply step_quantity_texts in H8 as (_ & _ & ->).
  rewrite rate_fields_step_purchase_url, rate_fields_step_credit.
  rewrite !step_rates_value.
  apply step_stock_only_stock in H4. rewrite H4.
  change (rate_fields (set_stock ?n ?q)) with (rate_fields q).
  by rewrite rate_fields_step_price, rate_fields_step_server_info,
    rate_fields_step_title.
Qed.

(** The product id is read from the URL of the record. *)
Lemma step_title_product_id item domain :
  let product := step_title item domain new_product in
  product_id product =
  if contains (url product) (lit "/detail-") then
    match split (url product) (lit "/detail-") !! 1%nat with
    | Some rest =>
        match split rest (lit ".html") !! 0%nat with
        | Some id => id
        | None => []
        end
    | None => []
    end
  else [].
Proof.
  unfold step_title.
  destruct (select_one (by_class "goods-list-title") item) as [title_elem|]; [|done].
  cbv zeta.
  set (href := match get_href title_elem with [] => _ | _ => _ end).
  destruct (contains href (lit "/detail-")) eqn:Hc.
  - destruct (split href (lit "/detail-") !! 1%nat) as [rest|] eqn:Hrest.
    + destruct (split rest (lit ".html") !! 0%nat) as [id|] eqn:Hid.
      * cbn [url product_id set_product_id set_url set_title]. by rewrite Hc, Hrest, Hid.
      * cbn [url product_id set_product_id set_url set_title new_product].
        by rewrite Hc, Hrest, Hid.
    + cbn [url product_id set_product_id set_url set_title new_product].
      by rewrite Hc, Hrest.
  - cbn [url product_id set_product_id set_url set_title new_product]. by rewrite Hc.
Qed.

End TextFieldFacts.

(* ===================================================================== *)
(** ** Properties of the extractor *)
(* ===================================================================== *)

Section StripFacts.

Implicit Types (s t : str) (c : char).

Lemma drop_while_app_last (p : char → bool) s c :
  p c = false → drop_while p (s ++ [c]) = drop_while p s ++ [c].
Proof.
  intros Hc. induction s as [|d s IH]; simpl; [by rewrite Hc|].
  by destruct (p d).
Qed.

Lemma drop_while_idem (p : char → bool) s :
  drop_while p (drop_while p s) = drop_while p s.
Proof.
  induction s as [|c s IH]; simpl; [done|].
  destruct (p c) eqn:Hc; [done|]. simpl. by rewrite Hc.
Qed.

Lemma rstrip_idem s : rstrip (rstrip s) = rstrip s.
Proof. unfold rstrip. by rewrite rev_involutive, drop_while_idem. Qed.

Lemma rstrip_cons c t : is_space c = false → rstrip (c :: t) = c :: rstrip t.
Proof.
  intros Hc. unfold rstrip. cbn [rev].
  by rewrite drop_while_app_last, rev_unit.
Qed.

(** [strip] of a stripped text changes nothing. *)
Lemma strip_idem s : strip (strip s) = strip s.
Proof.
  unfold strip. set (t := lstrip s).
  assert (Hhead : match t with [] => True | c :: _ => is_space c = false end)
    by apply drop_while_head.
  clearbody t. destruct t as [|c t]; [reflexivity|].
  rewrite (rstrip_cons c t Hhead). unfold lstrip. cbn [drop_while].
  rewrite Hhead. by rewrite (rstrip_cons c _ Hhead), rstrip_idem.
Qed.

(** The pieces of a joined list are the list, when no piece holds the
    separator. *)
Lemma split_join_single c (parts : list str) :
  parts ≠ [] → Forall (fun part => c ∉ part) parts →
  split (join [c] parts) [c] = parts.
Proof.
  intros Hne Hall. induction Hall as [|x parts Hx Hall IH]; [done|].
  destruct parts as [|y parts].
  - simpl. by apply split_single_none.
  - change (join [c] (x :: y :: parts)) with (x ++ c :: join [c] (y :: parts)).
    rewrite split_single by done. f_equal. by apply IH.
Qed.

Lemma digits_value_none s (acc : Z) :
  digits_value acc s = None ↔ Exists (fun c => is_decimal c = false) s.
Proof.
  revert acc. induction s as [|c s IH]; intros acc; simpl.
  - split; [done|]. by intros ?%Exists_nil.
  - rewrite Exists_cons. unfold is_decimal at 1.
    destruct (decimal_value c) as [d|].
    + rewrite IH. split; [by right|]. by intros [?|?].
    + split; [by left|done].
Qed.


End StripFacts.

Section ExtractorProperties.
Context {F : Float} {L : FloatLaws F}.

Implicit Types (item reputation : Tag) (domain : str) (p product raw : DD373Product).

(** *** Errors *)

(** The guarded conversion raises exactly on a text of digits that are not
    all decimal. *)
Lemma stock_from_digits_value_error (t : str) p :
  stock_from_digits t p = Raise ValueError ↔ digit_not_decimal t.
Proof.
  unfold stock_from_digits, digit_not_decimal, int_of_str.
  destruct (isdigit (strip t)) eqn:Hdigit; [|split; [done|by intros [? _]]].
  destruct (strip t) as [|c s] eqn:Ht; [done|].
  rewrite <- digits_value_none with (acc := 0).
  destruct (digits_value 0 (c :: s)); simpl.
  - split; [done|]. by intros [_ ?].
  - by split.
Qed.





(** X3. When the labelled stock is not found in the reputation container
    and the text of its bold element is accepted by [isdigit()] but holds a
    digit that is not decimal, such as a superscript two, the extractor
    raises [ValueError]: the test before [int] does not protect it. *)
Theorem stock_digit_not_decimal_raises item domain reputation (bold_span : Tag) :
  select_one (by_class "game-reputation") item = Some reputation →
  search_stock (text reputation) = None →
  select_one (by_class "bold") reputation = Some bold_span →
  digit_not_decimal (text bold_span) →
  from_html_element item domain = Raise ValueError.
Proof.
  intros Hrep Hlabel Hbold Hbad.
  unfold from_html_element, scrape_fields, step_stock.
  rewrite Hrep, Hlabel, Hbold.
  by rewrite (proj2 (stock_from_digits_value_error _ _) Hbad).
Qed.

(** X4. A container without any element inside yields the record of the
    defaults: empty strings, price [0.0], stock 0, rating 0. *)
Theorem empty_fragment_default_record item domain :
  descendants item = [] → from_html_element item domain = Ok new_product.
Proof.
  intros Hnone.
  assert (Hsel : ∀ sel, select_one sel item = None).
  { intros sel. unfold select_one, select. by rewrite Hnone. }
  unfold from_html_element, scrape_fields, step_title, step_server_info,
    step_price, step_stock, step_rates, step_credit, step_purchase_url.
  rewrite !Hsel. simpl. unfold step_quantity. simpl.
  by rewrite float_div_one.
Qed.

(** *** Title, URL and product id *)

(** X5. Without a title element the title, the URL and the product id are
    empty.  With one, the title is its stripped text and the URL is its
    [href], prefixed by the domain exactly when the [href] starts with
    ['/']; a missing or empty [href] gives the empty URL. *)
Theorem url_resolution item domain product :
  from_html_element item domain = Ok product →
  match select_one (by_class "goods-list-title") item with
  | None => title product = [] ∧ url product = [] ∧ product_id product = []
  | Some title_elem =>
      title product = strip (text title_elem)
      ∧ url product =
        if startswith (get_href title_elem) (lit "/")
        then domain ++ get_href title_elem
        else get_href title_elem
  end.
Proof.
  intros Hfields%from_html_element_title_fields.
  unfold title_fields in Hfields. injection Hfields as -> -> ->.
  unfold step_title.
  destruct (select_one (by_class "goods-list-title") item) as [title_elem|]; [|done].
  cbv zeta. destruct (get_href title_elem) as [|c href] eqn:Hhref.
  - by repeat case_match.
  - by repeat case_match.
Qed.

(** X6. The product id is read off the URL of the record: it is empty when
    the URL has no ["/detail-"]; otherwise, when the URL has one
    ["/detail-"] only, it is the text between that marker and the next
    [".html"], or the whole rest of the URL when no [".html"] follows. *)
Theorem product_id_between_markers item domain product :
  from_html_element item domain = Ok product →
  (contains (url product) (lit "/detail-") = false → product_id product = [])
  ∧ (∀ n, first_at (url product) (lit "/detail-") n →
       let rest := drop (n + 8) (url product) in
       contains rest (lit "/detail-") = false →
       (∀ m, first_at rest (lit ".html") m → product_id product = take m rest)
       ∧ (contains rest (lit ".html") = false → product_id product = rest)).
Proof.
  intros Hfields%from_html_element_title_fields.
  pose proof (step_title_product_id item domain) as Hid. cbv zeta in Hid.
  unfold title_fields in Hfields. injection Hfields as _ Hurl Hpid.
  rewrite <- Hurl, <- Hpid in Hid. clear Hurl Hpid.
  split.
  - intros Hno. by rewrite Hid, Hno.
  - intros n Hfirst rest Hone. rewrite Hid, (first_at_contains _ _ _ Hfirst).
    rewrite (split_first _ _ n) by done.
    change (length (lit "/detail-")) with 8%nat. fold rest.
    rewrite (split_none rest) by done. cbn [lookup list_lookup].
    split.
    + intros m Hm. by rewrite (split_first _ _ m).
    + intros Hno. by rewrite (split_none rest).
Qed.

(** *** Server info, rate lines, purchase URL *)

(** X7. The server info can be taken apart again: when the container
    [.game-qufu-attr] has links and no stripped link text holds a ['/'],
    splitting the server info at ['/'] gives the stripped link texts back,
    in document order. *)
Theorem server_info_round_trip item domain product (server_info_elem : Tag) :
  from_html_element item domain = Ok product →
  select_one (by_class "game-qufu-attr") item = Some server_info_elem →
  let servers := map (fun a => strip (text a)) (select (by_name "a") server_info_elem) in
  servers ≠ [] → Forall (fun server => ch_slash ∉ server) servers →
  split (server_info product) [ch_slash] = servers.
Proof.
  intros Hok Hsel servers Hne Hall.
  rewrite (from_html_element_server_info _ _ _ Hok), step_server_info_value, Hsel.
  fold servers. destruct servers as [|s0 rest] eqn:Hs; [done|].
  change (lit "/") with [ch_slash]. by apply split_join_single.
Qed.

(** X8. Where the two rate lines come from: the first two paragraphs of the
    first [.kucun] element; if that element has no paragraph at all, the
    first two paragraphs of the first [.width233] element.  With a single
    paragraph in [.kucun], or without [.kucun], both rate lines stay empty
    and [.width233] is not consulted. *)
Theorem exchange_rates_sources item domain product :
  from_html_element item domain = Ok product →
  (exchange_rate_1 product, exchange_rate_2 product) =
  match select_one (by_class "kucun") item with
  | Some kucun_div =>
      match select (by_name "p") kucun_div with
      | p0 :: p1 :: _ => (strip (text p0), strip (text p1))
      | [_] => ([], [])
      | [] =>
          match select_one (by_class "width233") item with
          | Some old_rate_div =>
              match select (by_name "p") old_rate_div with
              | q0 :: q1 :: _ => (strip (text q0), strip (text q1))
              | _ => ([], [])
              end
          | None => ([], [])
          end
      end
  | None => ([], [])
  end.
Proof.
  intros Hok. pose proof (from_html_element_rate_fields _ _ _ Hok) as Hrates.
  by rewrite step_rates_value in Hrates.
Qed.

(** X9. The purchase URL of a record is empty or starts with ["http"]. *)
Theorem purchase_url_scheme item domain product :
  from_html_element item domain = Ok product →
  purchase_url product = [] ∨ startswith (purchase_url product) (lit "http") = true.
Proof.
  intros Hok. rewrite (from_html_element_purchase_url _ _ _ Hok).
  destruct (select_one buy_button item) as [buy_btn|]; [|by left].
  destruct (get_href buy_btn) as [|c href]; [by left|]. right. cbv zeta.
  destruct (startswith (c :: href) (lit "http")) eqn:Hhttp; [done|reflexivity].
Qed.

(** X10. The title and the two rate lines of a record are stripped: they
    neither begin nor end with white space, so stripping them again changes
    nothing. *)
Theorem text_fields_stripped item domain product :
  from_html_element item domain = Ok product →
  strip (title product) = title product
  ∧ strip (exchange_rate_1 product) = exchange_rate_1 product
  ∧ strip (exchange_rate_2 product) = exchange_rate_2 product.
Proof.
  intros Hok. split.
  - pose proof (from_html_element_title_fields _ _ _ Hok) as Hfields.
    unfold title_fields in Hfields. injection Hfields as -> _ _.
    unfold step_title. repeat case_match; cbn [title set_product_id set_url set_title];
      by rewrite ?strip_idem.
  - pose proof (from_html_element_rate_fields _ _ _ Hok) as Hrates.
    rewrite step_rates_value in Hrates. unfold rate_fields in Hrates.
    repeat case_match; injection Hrates as -> ->; by rewrite ?strip_idem.
Qed.

(** *** Price *)

Lemma keep_nothing (s : str) :
  Forall (fun c => is_decimal c = false ∧ c ≠ ch_dot) s →
  keep_digits_and_dots s = [].
Proof.
  unfold keep_digits_and_dots. induction 1 as [|c s [Hdec Hdot] Hs IH]; [done|].
  simpl. rewrite Hdec. by rewrite (proj2 (N.eqb_neq c ch_dot)) by done.
Qed.

(** X11. The price as scraped: the float that the digits and periods of the
    price text spell; [0.0] when they spell none, in particular when the
    text has neither a digit nor a period, and when there is no price
    element.  A price that cannot be read is thus not an error but the
    least price there is. *)
Theorem unreadable_price_is_zero item domain raw :
  scrape_fields item domain = Ok raw →
  (select_one (by_class "goods-price") item = None → price raw = float_zero)
  ∧ (∀ price_elem,
       select_one (by_class "goods-price") item = Some price_elem →
       (∀ x, float_of_str (keep_digits_and_dots (text price_elem)) = Some x →
             price raw = x)
       ∧ (float_of_str (keep_digits_and_dots (text price_elem)) = None →
          price raw = float_zero)
       ∧ (Forall (fun c => is_decimal c = false ∧ c ≠ ch_dot) (text price_elem) →
          price raw = float_zero)).
Proof.
  intros Hraw%scrape_fields_price. rewrite Hraw. split.
  - by intros ->.
  - intros price_elem ->. split; [by intros x ->|]. split; [by intros ->|].
    intros Hnone%keep_nothing. by rewrite Hnone, float_of_str_empty.
Qed.

(** *** Stock and rating *)

Lemma stock_from_digits_nonneg (t : str) p p' :
  0 ≤ stock p → stock_from_digits t p = Ok p' → 0 ≤ stock p'.
Proof.
  intros Hp. unfold stock_from_digits. destruct (isdigit (strip t)).
  - destruct (int_of_str (strip t)) as [n|e] eqn:Hn; simpl; [|done].
    intros [= <-]. simpl. by eapply int_of_str_nonneg.
  - by intros [= <-].
Qed.

Lemma step_stock_nonneg item p p' :
  0 ≤ stock p → step_stock item p = Ok p' → 0 ≤ stock p'.
Proof.
  intros Hp. unfold step_stock.
  set (first := match select_one (by_class "game-reputation") item with
                | Some _ => _ | None => _ end).
  assert (Hfirst : ∀ q, first = Ok q → 0 ≤ stock q).
  { subst first. intros q. repeat case_match; simpl.
    - destruct (int_of_str _) as [n|e] eqn:Hn; simpl; [|done].
      intros [= <-]. simpl. by eapply int_of_str_nonneg.
    - by apply stock_from_digits_nonneg.
    - by intros [= <-].
    - by intros [= <-]. }
  destruct first as [q|e]; simpl; [|done].
  specialize (Hfirst q eq_refl).
  destruct (stock q =? 0).
  - destruct (select_one _ item); [|by intros [= <-]].
    by apply stock_from_digits_nonneg.
  - by intros [= <-].
Qed.

Lemma from_html_element_stock_nonneg item domain product :
  from_html_element item domain = Ok product → 0 ≤ stock product.
Proof.
  intros (p4 & raw & H4 & -> & _ & H8)%from_html_element_inv.
  rewrite step_quantity_result in H8. cbv zeta in H8.
  match type of H8 with context [set_stock (?q * ?s) _] =>
    assert (Hstock : 0 ≤ q * s) end.
  { apply Z.mul_nonneg_nonneg; [apply bundle_quantity_nonneg|].
    rewrite stock_step_purchase_url, stock_step_credit, stock_step_rates.
    eapply step_stock_nonneg; [|exact H4].
    by rewrite stock_step_price, stock_step_server_info, stock_step_title. }
  destruct (_ >? 0).
  - destruct (float_div_int _ _); simpl in H8; [|done]. by injection H8 as <-.
  - by injection H8 as <-.
Qed.

Lemma from_html_element_rating_nonneg item domain product :
  from_html_element item domain = Ok product → 0 ≤ credit_rating product.
Proof.
  intros Hok. rewrite (from_html_element_credit_rating _ _ _ Hok).
  destruct (select_one _ item) as [reputation|]; [|done].
  unfold hearts, diamonds, crowns. repeat case_match; lia.
Qed.

(** X12. Neither the stock nor the rating of a record is negative, so the
    filter of [FilterParams()], with both thresholds 0, accepts every record
    that the extractor returns, and so does a filter without thresholds. *)
Theorem default_filter_accepts item domain product :
  from_html_element item domain = Ok product →
  0 ≤ stock product ∧ 0 ≤ credit_rating product
  ∧ apply FilterParams_init product = true
  ∧ apply (Params None None) product = true.
Proof.
  intros Hok.
  pose proof (from_html_element_stock_nonneg _ _ _ Hok) as Hstock.
  pose proof (from_html_element_rating_nonneg _ _ _ Hok) as Hrating.
  repeat split; try done. unfold apply, FilterParams_init. simpl.
  rewrite (proj2 (Z.ltb_ge _ _) Hstock), (proj2 (Z.ltb_ge _ _) Hrating). done.
Qed.

End ExtractorProperties.

(** *** The properties of the extractor on the sample listings *)

(** An occurrence at a given index, checked index by index. *)
Ltac first_at_here :=
  split; [reflexivity|];
  let i := fresh "i" in let Hi := fresh "Hi" in
  intros i Hi; repeat (destruct i as [|i]; [reflexivity|]); lia.

Lemma stock_digit_not_decimal_raises_witness :
  digit_not_decimal (text superscript_bold)
  ∧ from_html_element superscript_listing domain = Raise ValueError.
Proof.
  assert (Hbad : digit_not_decimal (text superscript_bold)).
  { split; [reflexivity|]. exact (Exists_cons_hd _ ch_superscript_two [] eq_refl). }
  split; [exact Hbad|].
  exact (stock_digit_not_decimal_raises superscript_listing domain
           (reputation_tag [heart; el "span" ["bold"] [Text [ch_superscript_two]]])
           superscript_bold eq_refl eq_refl eq_refl Hbad).
Defined.



Lemma empty_fragment_default_record_witness :
  from_html_element empty_listing domain = Ok new_product.
Proof. exact (empty_fragment_default_record empty_listing domain eq_refl). Defined.

Lemma url_resolution_witness :
  from_html_element full_listing domain = Ok full_product
  ∧ title full_product = lit "1000 gold=100 yuan"
  ∧ url full_product = domain ++ lit "/detail-abc123.html".
Proof.
  assert (Hok : from_html_element full_listing domain = Ok full_product)
    by reflexivity.
  split; [exact Hok|]. exact (url_resolution full_listing domain full_product Hok).
Defined.

Lemma product_id_between_markers_witness :
  from_html_element full_listing domain = Ok full_product
  ∧ first_at (url full_product) (lit "/detail-") 21
  ∧ first_at (drop 29 (url full_product)) (lit ".html") 6
  ∧ product_id full_product = lit "abc123".
Proof.
  assert (Hok : from_html_element full_listing domain = Ok full_product)
    by reflexivity.
  assert (Hdetail : first_at (url full_product) (lit "/detail-") 21)
    by first_at_here.
  assert (Hhtml : first_at (drop 29 (url full_product)) (lit ".html") 6)
    by first_at_here.
  split; [exact Hok|]. split; [exact Hdetail|]. split; [exact Hhtml|].
  exact (proj1 (proj2 (product_id_between_markers full_listing domain full_product Hok)
                  21%nat Hdetail eq_refl) 6%nat Hhtml).
Defined.

Lemma server_info_round_trip_witness :
  from_html_element full_listing domain = Ok full_product
  ∧ server_info full_product = lit "Area 1/Server 2"
  ∧ split (server_info full_product) [ch_slash] = [lit "Area 1"; lit "Server 2"].
Proof.
  assert (Hok : from_html_element full_listing domain = Ok full_product)
    by reflexivity.
  split; [exact Hok|]. split; [reflexivity|].
  refine (server_info_round_trip full_listing domain full_product _ Hok eq_refl _ _).
  - discriminate.
  - repeat constructor; apply (bool_decide_unpack _); reflexivity.
Defined.

Lemma exchange_rates_sources_witness :
  from_html_element full_listing domain = Ok full_product
  ∧ (exchange_rate_1 full_product, exchange_rate_2 full_product)
    = (lit "1" ++ [ch_yuan] ++ lit "=17.5439" ++ [ch_zuan],
       lit "1" ++ [ch_zuan] ++ lit "=0.0570" ++ [ch_yuan]).
Proof.
  assert (Hok : from_html_element full_listing domain = Ok full_product)
    by reflexivity.
  split; [exact Hok|].
  exact (exchange_rates_sources full_listing domain full_product Hok).
Defined.

(** A single paragraph in [.kucun]: the rate lines stay empty although
    [.width233] holds two; and a second ["/detail-"] in the URL ends the
    product id. *)
Example one_rate_listing_record :
  ∃ product : DD373Product (F := decimal_float),
    from_html_element one_rate_listing domain = Ok product
    ∧ exchange_rate_1 product = [] ∧ exchange_rate_2 product = []
    ∧ url product = domain ++ lit "/detail-5.html?from=/detail-6.html"
    ∧ product_id product = lit "5".
Proof. eexists. split; [reflexivity|]. repeat split. Qed.

Lemma purchase_url_scheme_witness :
  from_html_element full_listing domain = Ok full_product
  ∧ startswith (purchase_url full_product) (lit "http") = true.
Proof.
  assert (Hok : from_html_element full_listing domain = Ok full_product)
    by reflexivity.
  split; [exact Hok|].
  destruct (purchase_url_scheme full_listing domain full_product Hok) as [Hnil|Hhttp].
  - discriminate Hnil.
  - exact Hhttp.
Defined.

Lemma text_fields_stripped_witness :
  from_html_element full_listing domain = Ok full_product
  ∧ text (MkTag page_parents (Attrs (lit "a") [lit "goods-list-title"]
                                 (Some (lit "/detail-abc123.html")))
                  [txt " 1000 gold=100 yuan "])
    = lit " 1000 gold=100 yuan "
  ∧ strip (title full_product) = title full_product.
Proof.
  assert (Hok : from_html_element full_listing domain = Ok full_product)
    by reflexivity.
  split; [exact Hok|]. split; [reflexivity|].
  exact (proj1 (text_fields_stripped full_listing domain full_product Hok)).
Defined.

Lemma unreadable_price_is_zero_witness :
  scrape_fields negotiable_listing domain = Ok negotiable_raw
  ∧ price negotiable_raw = float_zero.
Proof.
  assert (Hraw : scrape_fields negotiable_listing domain = Ok negotiable_raw)
    by reflexivity.
  split; [exact Hraw|].
  refine (proj2 (proj2 (proj2 (unreadable_price_is_zero negotiable_listing domain
                                 negotiable_raw Hraw)
                          negotiable_price eq_refl)) _).
  repeat constructor; discriminate.
Defined.

Lemma default_filter_accepts_witness :
  from_html_element full_listing domain = Ok full_product
  ∧ apply FilterParams_init full_product = true.
Proof.
  assert (Hok : from_html_element full_listing domain = Ok full_product)
    by reflexivity.
  split; [exact Hok|].
  exact (proj1 (proj2 (proj2 (default_filter_accepts full_listing domain full_product Hok)))).
Defined.

(* ===================================================================== *)
(** ** Properties of the ranker *)
(* ===================================================================== *)

Section ListFacts.
Context {A B : Type}.

Lemma filter_perm (f : A → bool) (l l' : list A) :
  l ≡ₚ l' → List.filter f l ≡ₚ List.filter f l'.
Proof.
  induction 1 as [|a l l' Hl IH|a b l|l l' l'' H1 IH1 H2 IH2]; simpl.
  - done.
  - destruct (f a); [by constructor|done].
  - destruct (f a), (f b); try done. apply Permutation_swap.
  - by etrans.
Qed.

Lemma filter_comm (f g : A → bool) (l : list A) :
  List.filter f (List.filter g l) = List.filter g (List.filter f l).
Proof.
  induction l as [|a l IH]; simpl; [done|].
  destruct (g a) eqn:Hg, (f a) eqn:Hf; simpl; rewrite ?Hg, ?Hf, IH; done.
Qed.

Lemma filter_map_snd (f : B → bool) (l : list (A * B)) :
  List.filter f (map snd l) = map snd (List.filter (fun u => f u.2) l).
Proof.
  induction l as [|u l IH]; simpl; [done|].
  destruct (f u.2); simpl; by rewrite IH.
Qed.

Lemma filter_ext_Forall (f g : A → bool) (l : list A) :
  Forall (fun a => f a = g a) l → List.filter f l = List.filter g l.
Proof.
  induction 1 as [|a l Ha Hl IH]; simpl; [done|]. by rewrite Ha, IH.
Qed.

Lemma filter_strongly_sorted (R : A → A → Prop) (f : A → bool) (l : list A) :
  StronglySorted R l → StronglySorted R (List.filter f l).
Proof.
  induction 1 as [|a l Hl IH Ha]; simpl; [constructor|].
  destruct (f a); [|done]. constructor; [done|].
  rewrite Forall_forall in Ha |- *. intros b Hb. apply Ha.
  apply list_elem_of_In in Hb. apply filter_In in Hb as [Hb _].
  by apply list_elem_of_In.
Qed.

End ListFacts.

Section RankerProperties.
Context {F : Float} {L : FloatLaws F}.

Implicit Types (h : heap) (l y : loc) (items kept : list loc)
  (ps valid : list DD373Product) (ks : list float) (filterParams : FilterParams).

(** *** The sort on values *)

(** Every pair of the zip holds a product with its key. *)
Lemma zip_keys ps ks :
  sort_keys ps = Ok ks →
  Forall (fun u => sort_key u.2 = Ok u.1) (zip ks ps).
Proof.
  intros Hks%sort_keys_ok. induction Hks as [|p k ps ks Hk Hks IH]; simpl.
  - constructor.
  - by constructor.
Qed.

Lemma sorted_keys ps ks :
  sort_keys ps = Ok ks →
  Forall (fun u => sort_key u.2 = Ok u.1) (sort_by_key (zip ks ps)).
Proof. intros Hks. rewrite sort_by_key_perm. by apply zip_keys. Qed.

Lemma valid_offers_perm filterParams ps valid :
  valid_offers_of filterParams ps = Ok valid →
  valid ≡ₚ List.filter (apply filterParams) ps.
Proof.
  unfold valid_offers_of. destruct (sort_keys ps) as [ks|e] eqn:Hks; simpl; [|done].
  intros [= <-]. apply filter_perm, sorted_products_perm.
  by apply sort_keys_length.
Qed.

Lemma snd_strongly_sorted (s : list (float * DD373Product)) :
  Forall (fun u => sort_key u.2 = Ok u.1) s →
  StronglySorted not_above s → StronglySorted key_not_above (map snd s).
Proof.
  intros Hkeys Hsorted. induction Hsorted as [|u s Hs IH Hu]; simpl; [constructor|].
  inversion_clear Hkeys as [|?? Hku Hks]. constructor; [by apply IH|].
  rewrite Forall_forall in Hu, Hks. apply Forall_forall. intros q Hq.
  apply list_elem_of_fmap in Hq as (v & -> & Hv).
  intros kp kq Hp Hq. rewrite Hku in Hp. rewrite (Hks v Hv) in Hq.
  injection Hp as <-. injection Hq as <-. by apply Hu.
Qed.

Lemma valid_offers_sorted filterParams ps ks valid :
  sort_keys ps = Ok ks → Forall (fun k => float_isnan k = false) ks →
  valid_offers_of filterParams ps = Ok valid →
  StronglySorted key_not_above valid.
Proof.
  intros Hks Hnan. unfold valid_offers_of. rewrite Hks. simpl. intros [= <-].
  apply filter_strongly_sorted, snd_strongly_sorted; [by apply sorted_keys|].
  by apply sorted_products_ascending.
Qed.

(** *** Stability *)

(** Two keys of which one is below the other are not both tied with a key
    that is a number. *)
Lemma tied_apart (k a b : float) :
  float_isnan k = false → float_lt a b = true → tied k a && tied k b = false.
Proof.
  intros Hk Hab. unfold tied.
  destruct (float_lt_cotrans a k b Hk Hab) as [-> | ->];
    rewrite ?andb_false_r; [|done].
  by destruct (float_lt k a), (float_lt k b), (float_lt b k).
Qed.

Lemma insert_by_key_tied {A : Type} (k : float) (u : float * A) (s : list (float * A)) :
  float_isnan k = false →
  List.filter (fun v => tied k v.1) (insert_by_key u s)
  = List.filter (fun v => tied k v.1) (u :: s).
Proof.
  intros Hk. induction s as [|v s IH]; [done|].
  cbn [insert_by_key]. destruct (float_lt v.1 u.1) eqn:Hvu; [|done].
  pose proof (tied_apart k _ _ Hk Hvu) as Hapart.
  cbn [List.filter] in IH |- *. rewrite IH.
  destruct (tied k v.1), (tied k u.1); done.
Qed.

Lemma sort_by_key_tied {A : Type} (k : float) (s : list (float * A)) :
  float_isnan k = false →
  List.filter (fun v => tied k v.1) (sort_by_key s)
  = List.filter (fun v => tied k v.1) s.
Proof.
  intros Hk. induction s as [|u s IH]; [done|].
  cbn [sort_by_key foldr]. rewrite insert_by_key_tied by done.
  cbn [List.filter]. by rewrite <- IH.
Qed.

Lemma keyed_filter_tied (k : float) (s : list (float * DD373Product)) :
  Forall (fun u => sort_key u.2 = Ok u.1) s →
  List.filter (key_tied_with k) (map snd s)
  = map snd (List.filter (fun v => tied k v.1) s).
Proof.
  intros Hkeys. rewrite filter_map_snd. f_equal. apply filter_ext_Forall.
  eapply Forall_impl; [exact Hkeys|]. intros u Hu. simpl.
  unfold key_tied_with. by rewrite Hu.
Qed.

Lemma valid_offers_stable filterParams ps valid (k : float) :
  valid_offers_of filterParams ps = Ok valid → float_isnan k = false →
  List.filter (key_tied_with k) valid
  = List.filter (key_tied_with k) (List.filter (apply filterParams) ps).
Proof.
  unfold valid_offers_of. destruct (sort_keys ps) as [ks|e] eqn:Hks; simpl; [|done].
  intros [= <-] Hk. rewrite !(filter_comm (key_tied_with k)). f_equal.
  rewrite keyed_filter_tied by (by apply sorted_keys).
  rewrite sort_by_key_tied by done.
  rewrite <- keyed_filter_tied by (by apply zip_keys).
  rewrite snd_zip; [done|]. apply sort_keys_length in Hks. lia.
Qed.

(** *** [_filter_valid_offer_item] *)

(** X13. On a list of offers whose rate lines all give a key that is a
    number, [_filter_valid_offer_item] returns a new list of new objects:
    copies of exactly the offers that pass the filter, each as often as it
    is in the list, in ascending order of their keys. *)
Theorem filter_valid_offer_item_sorted_copies h l items ps ks filterParams :
  h !! l = Some (ObjList items) → points_to h items ps →
  sort_keys ps = Ok ks → Forall (fun k => float_isnan k = false) ks →
  ∃ h' y kept valid,
    _filter_valid_offer_item l filterParams h = (h', Ok y)
    ∧ h' !! y = Some (ObjList kept)
    ∧ points_to h' kept valid
    ∧ Forall (fun c => h !! c = None) kept
    ∧ valid ≡ₚ List.filter (apply filterParams) ps
    ∧ StronglySorted key_not_above valid.
Proof.
  intros Hl Hpts Hks Hnan.
  pose proof (filter_valid_offer_item_values h l items ps filterParams Hl Hpts) as Hrun.
  destruct (valid_offers_of filterParams ps) as [valid|e] eqn:Hvalid.
  - destruct Hrun as (h' & y & kept & Hrun & Hy & Hkept & Hnew).
    exists h', y, kept, valid. do 4 (split; [done|]).
    split; [by apply valid_offers_perm|by eapply valid_offers_sorted].
  - unfold valid_offers_of in Hvalid. by rewrite Hks in Hvalid.
Qed.

(** X14. On a list of offers whose rate lines all give a key that is a
    number, the sort of [_filter_valid_offer_item] is stable: the valid
    offers whose keys are tied with a given number (neither below the
    other), for example all the offers without a rate line, whose key is
    infinity, come out in the order in which they are in the list of
    offers. *)
Theorem filter_valid_offer_item_stable h l items ps ks filterParams :
  h !! l = Some (ObjList items) → points_to h items ps →
  sort_keys ps = Ok ks → Forall (fun k => float_isnan k = false) ks →
  ∃ h' y kept valid,
    _filter_valid_offer_item l filterParams h = (h', Ok y)
    ∧ h' !! y = Some (ObjList kept)
    ∧ points_to h' kept valid
    ∧ ∀ k, float_isnan k = false →
           List.filter (key_tied_with k) valid
           = List.filter (key_tied_with k) (List.filter (apply filterParams) ps).
Proof.
  intros Hl Hpts Hks Hnan.
  pose proof (filter_valid_offer_item_values h l items ps filterParams Hl Hpts) as Hrun.
  destruct (valid_offers_of filterParams ps) as [valid|e] eqn:Hvalid.
  - destruct Hrun as (h' & y & kept & Hrun & Hy & Hkept & Hnew).
    exists h', y, kept, valid. do 3 (split; [done|]).
    intros k Hk. by apply valid_offers_stable.
  - unfold valid_offers_of in Hvalid. by rewrite Hks in Hvalid.
Qed.

(** *** [get_dd_min_price] *)

Lemma cheapest_elem (best : DD373Product) (rest : list DD373Product) :
  cheapest best rest ∈ best :: rest.
Proof.
  revert best. induction rest as [|p rest IH]; intros best; simpl.
  - apply list_elem_of_here.
  - destruct (float_lt (price p) (price best)).
    + apply list_elem_of_further, IH.
    + specialize (IH best). apply elem_of_cons in IH as [->|Hin].
      * apply list_elem_of_here.
      * by do 2 apply list_elem_of_further.
Qed.

(** What is returned is read off one offer of the list, which passes the
    filter. *)
Lemma min_price_of_sound (DD_STOCKMIN DD_LEVELMIN : option Z) ps
    (x : float) (t : str) (n : Z) :
  min_price_of DD_STOCKMIN DD_LEVELMIN ps = Ok (Some (x, t, n)) →
  ∃ q, q ∈ ps ∧ apply (Params DD_STOCKMIN DD_LEVELMIN) q = true
       ∧ x = price q ∧ t = title q ∧ n = stock q.
Proof.
  unfold min_price_of.
  destruct (valid_offers_of _ ps) as [valid|e] eqn:Hvalid; simpl; [|done].
  destruct valid as [|first rest]; [done|]. intros [= <- <- <-].
  exists (cheapest first rest). split; [|split; [|done]].
  - pose proof (cheapest_elem first rest) as Hin.
    rewrite (valid_offers_perm _ _ _ Hvalid) in Hin.
    apply list_elem_of_In in Hin. apply filter_In in Hin as [Hin _].
    by apply list_elem_of_In.
  - pose proof (cheapest_elem first rest) as Hin.
    rewrite (valid_offers_perm _ _ _ Hvalid) in Hin.
    apply list_elem_of_In in Hin. by apply filter_In in Hin as [_ Happly].
Qed.

(** X15. Whatever the rate lines and the prices are, a result of
    [get_dd_min_price] is the price, the title and the stock of one and the
    same offer of the list, and that offer passes the filter of the row. *)
Theorem min_price_from_eligible_offer h l items ps
    (DD_STOCKMIN DD_LEVELMIN : option Z) (x : float) (t : str) (n : Z) :
  h !! l = Some (ObjList items) → points_to h items ps →
  (get_dd_min_price DD_STOCKMIN DD_LEVELMIN l h).2 = Ok (Some (x, t, n)) →
  ∃ q, q ∈ ps ∧ apply (Params DD_STOCKMIN DD_LEVELMIN) q = true
       ∧ x = price q ∧ t = title q ∧ n = stock q.
Proof.
  intros Hl Hpts. rewrite (get_dd_min_price_values h l items ps _ _ Hl Hpts).
  apply min_price_of_sound.
Qed.

(** The keys of a list are defined when the key of every offer is. *)
Lemma sort_keys_defined ps :
  (∃ ks, sort_keys ps = Ok ks) ↔ Forall (fun p => ∃ k, sort_key p = Ok k) ps.
Proof.
  split.
  - intros [ks Hks%sort_keys_ok]. eapply Forall2_Forall_l; [exact Hks|].
    apply Forall_forall. intros k _ p Hp. by exists k.
  - induction 1 as [|p ps' [k Hk] Hall [ks IH]].
    + by exists [].
    + exists (k :: ks). simpl. by rewrite Hk, IH.
Qed.

(** X16. The outcomes of [get_dd_min_price] on a list of offers: it raises
    nothing but [ValueError], and does so exactly when the rate line of some
    offer, eligible or not, has no number after its ['=']; it returns [None]
    exactly when every rate line gives a key and no offer passes the
    filter. *)
Theorem ranker_outcomes h l items ps (DD_STOCKMIN DD_LEVELMIN : option Z) :
  h !! l = Some (ObjList items) → points_to h items ps →
  let r := (get_dd_min_price DD_STOCKMIN DD_LEVELMIN l h).2 in
  (∀ e, r = Raise e → e = ValueError)
  ∧ (r = Raise ValueError ↔ Exists (fun p => sort_key p = Raise ValueError) ps)
  ∧ (r = Ok None
     ↔ Forall (fun p => ∃ k, sort_key p = Ok k) ps
       ∧ Forall (fun p => apply (Params DD_STOCKMIN DD_LEVELMIN) p = false) ps).
Proof.
  intros Hl Hpts r. subst r.
  rewrite (get_dd_min_price_values h l items ps _ _ Hl Hpts).
  destruct (min_price_of_cases DD_STOCKMIN DD_LEVELMIN ps) as (Hraise & Hnone & _).
  cbv zeta in Hraise, Hnone. split; [|split; [done|]].
  - intros e. unfold min_price_of, valid_offers_of.
    destruct (sort_keys ps) as [ks|e'] eqn:Hks; simpl; [done|].
    intros [= <-]. by eapply sort_keys_raises_value.
  - by rewrite Hnone, sort_keys_defined.
Qed.

(** X17. With a key for every offer and no NaN among the keys and the
    prices, [get_dd_min_price] returns the first offer of least price among
    the valid ones, taken in ascending order of their keys: of several offers
    at the least price the one with the lowest key wins, and of those with
    tied keys the one that comes first on the page. *)
Theorem cheapest_valid_offer_returned h l items ps ks
    (DD_STOCKMIN DD_LEVELMIN : option Z) :
  h !! l = Some (ObjList items) → points_to h items ps →
  sort_keys ps = Ok ks → Forall (fun k => float_isnan k = false) ks →
  Forall (fun p => float_isnan (price p) = false) ps →
  Exists (fun p => apply (Params DD_STOCKMIN DD_LEVELMIN) p = true) ps →
  ∃ valid q,
    (get_dd_min_price DD_STOCKMIN DD_LEVELMIN l h).2
    = Ok (Some (price q, title q, stock q))
    ∧ first_cheapest q valid
    ∧ valid ≡ₚ List.filter (apply (Params DD_STOCKMIN DD_LEVELMIN)) ps
    ∧ StronglySorted key_not_above valid
    ∧ ∀ k, float_isnan k = false →
           List.filter (key_tied_with k) valid
           = List.filter (key_tied_with k)
               (List.filter (apply (Params DD_STOCKMIN DD_LEVELMIN)) ps).
Proof.
  intros Hl Hpts Hks Hnan Hprices Hsome.
  destruct (min_price_of_cases DD_STOCKMIN DD_LEVELMIN ps) as (_ & _ & Hbest).
  destruct (Hbest ks Hks Hnan Hsome Hprices) as (q & Hq & Hfirst).
  assert (Hvalid : valid_offers_of (Params DD_STOCKMIN DD_LEVELMIN) ps
                   = Ok (List.filter (apply (Params DD_STOCKMIN DD_LEVELMIN))
                                     (map snd (sort_by_key (zip ks ps))))).
  { unfold valid_offers_of. by rewrite Hks. }
  eexists _, q. split; [|split; [exact Hfirst|split; [|split]]].
  - by rewrite (get_dd_min_price_values h l items ps _ _ Hl Hpts).
  - by eapply valid_offers_perm.
  - by eapply valid_offers_sorted.
  - intros k Hk. by eapply valid_offers_stable.
Qed.

(** X18. Lowering the thresholds, or dropping one, lets every offer pass
    that passed before, and a call of [get_dd_min_price] that returned an
    offer still returns one. *)
Theorem lower_thresholds_keep_offers (s s' lv lv' : option Z) :
  threshold_le s' s → threshold_le lv' lv →
  (∀ p, apply (Params s lv) p = true → apply (Params s' lv') p = true)
  ∧ (∀ h l items ps best,
       h !! l = Some (ObjList items) → points_to h items ps →
       (get_dd_min_price s lv l h).2 = Ok (Some best) →
       ∃ best', (get_dd_min_price s' lv' l h).2 = Ok (Some best')).
Proof.
  intros Hs Hlv.
  assert (Hmono : ∀ p, apply (Params s lv) p = true → apply (Params s' lv') p = true).
  { intros p. rewrite !apply_true_iff. simpl. intros [H1 H2]. split.
    - intros x ->. destruct lv as [y|]; [|done]. specialize (H1 y eq_refl).
      simpl in Hlv. lia.
    - intros x ->. destruct s as [y|]; [|done]. specialize (H2 y eq_refl).
      simpl in Hs. lia. }
  split; [done|]. intros h l items ps best Hl Hpts.
  rewrite !(get_dd_min_price_values h l items ps _ _ Hl Hpts).
  unfold min_price_of, valid_offers_of.
  destruct (sort_keys ps) as [ks|e]; simpl; [|done].
  set (sorted_ps := map snd (sort_by_key (zip ks ps))).
  destruct (List.filter (apply (Params s lv)) sorted_ps) as [|first rest] eqn:Hvalid;
    [done|]. intros _.
  assert (Hin : first ∈ List.filter (apply (Params s lv)) sorted_ps)
    by (rewrite Hvalid; apply list_elem_of_here).
  apply list_elem_of_In, filter_In in Hin as [Hin Happly].
  destruct (List.filter (apply (Params s' lv')) sorted_ps) as [|first' rest'] eqn:Hvalid';
    [|by eexists].
  apply filter_nil_iff in Hvalid'. rewrite Forall_forall in Hvalid'.
  apply list_elem_of_In in Hin. specialize (Hvalid' _ Hin).
  by rewrite (Hmono _ Happly) in Hvalid'.
Qed.

(** *** The sort key *)

(** X19. The key of an offer is read from the text between the first and
    the second ['='] of its second rate line (or the end of the line),
    without ['元'] and without the blanks around: what is before the first
    ['='] and what follows a second one has no influence. *)
Theorem sort_key_between_markers (x : DD373Product) (before middle after : str) :
  exchange_rate_2 x = before ++ ch_eq :: middle ++ after →
  ch_eq ∉ before → ch_eq ∉ middle →
  match after with [] => True | c :: _ => c = ch_eq end →
  sort_key x =
  match float_of_str (strip (List.filter (is_not ch_yuan) middle)) with
  | Some k => Ok k
  | None => Raise ValueError
  end.
Proof.
  intros Hrate Hbefore Hmiddle Hafter.
  rewrite (sort_key_marker x before (middle ++ after) Hrate Hbefore).
  replace (take_while (is_not ch_eq) (middle ++ after)) with middle; [done|].
  clear -Hmiddle Hafter. induction middle as [|c middle IH]; simpl.
  - destruct after as [|c after]; [done|]. by subst c.
  - apply not_elem_of_cons in Hmiddle as [Hne Hmiddle]. unfold is_not at 1.
    rewrite (proj2 (N.eqb_neq c ch_eq)) by done. simpl. f_equal. by apply IH.
Qed.

End RankerProperties.

(** *** [get_dd_min_price] changes no object *)

Section RankerFrame.
Context {F : Float}.

Lemma keeps_min_loop (base : heap) (rest : list loc) :
  ∀ (best : loc) (best_price : float),
    keeps base (min_loop best best_price rest) (fun _ => True).
Proof.
  induction rest as [|x rest IH]; intros best best_price; simpl.
  - by apply keeps_ret.
  - eapply keeps_bind; [apply keeps_get_product|]. intros p _.
    destruct (float_lt (price p) best_price); apply IH.
Qed.

Lemma keeps_get_dd_min_price (base : heap) (DD_STOCKMIN DD_LEVELMIN : option Z)
    (list_offers : loc) :
  keeps base (get_dd_min_price DD_STOCKMIN DD_LEVELMIN list_offers) (fun _ => True).
Proof.
  unfold get_dd_min_price.
  eapply keeps_bind; [apply keeps_filter_valid_offer_item|]. intros filter_list _.
  eapply keeps_bind; [apply keeps_get_list|]. intros [|first rest] _.
  - by apply keeps_ret.
  - eapply keeps_bind; [apply keeps_get_product|]. intros p _.
    eapply keeps_bind; [apply keeps_min_loop|]. intros b _.
    eapply keeps_bind; [apply keeps_get_product|]. intros q _.
    by apply keeps_ret.
Qed.

(** X20. [get_dd_min_price] changes no object that exists when it is called,
    whether it returns or raises, and whatever the store holds: the list of
    offers and every offer in it are afterwards what they were. *)
Theorem get_dd_min_price_frame (DD_STOCKMIN DD_LEVELMIN : option Z)
    (list_offers : loc) (h : heap) :
  let h' := (get_dd_min_price DD_STOCKMIN DD_LEVELMIN list_offers h).1 in
  h `prefix_of` h' ∧ ∀ x o, h !! x = Some o → h' !! x = Some o.
Proof.
  intros h'.
  destruct (keeps_get_dd_min_price h DD_STOCKMIN DD_LEVELMIN list_offers h)
    as [Hpre _]; [done|]. fold h' in Hpre.
  split; [done|]. intros x o Hx. by eapply prefix_lookup_Some.
Qed.

End RankerFrame.

(** *** The properties of the ranker on the sample offers *)

Lemma filter_valid_offer_item_sorted_copies_witness :
  ∃ h' y kept valid,
    _filter_valid_offer_item 3%nat (Params (Some 1) (Some 1))
      (store_of [offer_A; offer_B; offer_C]) = (h', Ok y)
    ∧ h' !! y = Some (ObjList kept)
    ∧ points_to h' kept valid
    ∧ Forall (fun c => store_of [offer_A; offer_B; offer_C] !! c = None) kept
    ∧ valid ≡ₚ List.filter (apply (Params (Some 1) (Some 1)))
                           [offer_A; offer_B; offer_C]
    ∧ StronglySorted key_not_above valid.
Proof.
  refine (filter_valid_offer_item_sorted_copies
            (store_of [offer_A; offer_B; offer_C]) 3%nat [0; 1; 2]%nat
            [offer_A; offer_B; offer_C]
            [DFin 570 10000; DFin 400 10000; DFin 300 10000]
            (Params (Some 1) (Some 1)) eq_refl _ eq_refl _).
  - repeat constructor.
  - repeat constructor.
Defined.

Lemma filter_valid_offer_item_stable_witness :
  ∃ h' y kept valid,
    _filter_valid_offer_item 3%nat FilterParams_init
      (store_of [offer_E; offer_A; offer_G]) = (h', Ok y)
    ∧ h' !! y = Some (ObjList kept)
    ∧ points_to h' kept valid
    ∧ ∀ k, float_isnan k = false →
           List.filter (key_tied_with k) valid
           = List.filter (key_tied_with k)
               (List.filter (apply FilterParams_init) [offer_E; offer_A; offer_G]).
Proof.
  refine (filter_valid_offer_item_stable
            (store_of [offer_E; offer_A; offer_G]) 3%nat [0; 1; 2]%nat
            [offer_E; offer_A; offer_G]
            [DInf false; DFin 570 10000; DInf false]
            FilterParams_init eq_refl _ eq_refl _).
  - repeat constructor.
  - repeat constructor.
Defined.

(** The two offers without a rate line keep their order behind the offer
    with one, and the first of them is returned. *)
Example tied_keys_keep_page_order :
  (get_dd_min_price (Some 0) (Some 0) 3%nat (store_of [offer_E; offer_A; offer_G])).2
  = Ok (Some (DFin 50 10, lit "E", 4))
  ∧ valid_offers_of FilterParams_init [offer_E; offer_A; offer_G]
    = Ok [offer_A; offer_E; offer_G].
Proof. split; reflexivity. Qed.

Lemma min_price_from_eligible_offer_witness :
  ∃ q, q ∈ [offer_A; offer_B] ∧ apply (Params (Some 1) (Some 1)) q = true
       ∧ DFin 100 10 = price q ∧ lit "A" = title q ∧ 5 = stock q.
Proof.
  refine (min_price_from_eligible_offer
            (store_of [offer_A; offer_B]) 2%nat [0; 1]%nat [offer_A; offer_B]
            (Some 1) (Some 1) _ _ _ eq_refl _ eq_refl).
  repeat constructor.
Defined.

Lemma ranker_outcomes_witness :
  (get_dd_min_price (Some 1) (Some 1) 2%nat (store_of [offer_A; offer_bad])).2
  = Raise ValueError.
Proof.
  assert (Hpts : points_to (store_of [offer_A; offer_bad]) [0; 1]%nat
                           [offer_A; offer_bad]) by repeat constructor.
  assert (Hbad : Exists (fun p => sort_key p = Raise ValueError) [offer_A; offer_bad])
    by exact (Exists_cons_tl offer_A (Exists_cons_hd _ offer_bad [] eq_refl)).
  exact (proj2 (proj1 (proj2 (ranker_outcomes (store_of [offer_A; offer_bad]) 2%nat
                                [0; 1]%nat [offer_A; offer_bad] (Some 1) (Some 1)
                                eq_refl Hpts))) Hbad).
Defined.

Lemma cheapest_valid_offer_returned_witness :
  ∃ valid q,
    (get_dd_min_price (Some 1) (Some 1) 3%nat (store_of [offer_A; offer_B; offer_C])).2
    = Ok (Some (price q, title q, stock q))
    ∧ first_cheapest q valid
    ∧ valid ≡ₚ List.filter (apply (Params (Some 1) (Some 1)))
                           [offer_A; offer_B; offer_C]
    ∧ StronglySorted key_not_above valid
    ∧ ∀ k, float_isnan k = false →
           List.filter (key_tied_with k) valid
           = List.filter (key_tied_with k)
               (List.filter (apply (Params (Some 1) (Some 1)))
                            [offer_A; offer_B; offer_C]).
Proof.
  refine (cheapest_valid_offer_returned
            (store_of [offer_A; offer_B; offer_C]) 3%nat [0; 1; 2]%nat
            [offer_A; offer_B; offer_C]
            [DFin 570 10000; DFin 400 10000; DFin 300 10000]
            (Some 1) (Some 1) eq_refl _ eq_refl _ _ _).
  - repeat constructor.
  - repeat constructor.
  - repeat constructor.
  - exact (Exists_cons_hd _ offer_A _ eq_refl).
Defined.

Lemma lower_thresholds_keep_offers_witness :
  threshold_le (Some 0) (Some 1) ∧ threshold_le None (Some 1)
  ∧ ∀ p : DD373Product (F := decimal_float),
      apply (Params (Some 1) (Some 1)) p = true → apply (Params (Some 0) None) p = true.
Proof.
  assert (Hs : threshold_le (Some 0) (Some 1)) by (simpl; lia).
  assert (Hlv : threshold_le None (Some 1)) by exact I.
  split; [exact Hs|]. split; [exact Hlv|].
  exact (proj1 (lower_thresholds_keep_offers (Some 1) (Some 0) (Some 1) None Hs Hlv)).
Defined.

Lemma sort_key_between_markers_witness :
  exchange_rate_2 offer_H = lit "1" ++ ch_eq :: lit "0.5" ++ lit "=7"
  ∧ sort_key offer_H = Ok (DFin 5 10).
Proof.
  split; [reflexivity|].
  refine (sort_key_between_markers offer_H (lit "1") (lit "0.5") (lit "=7")
            eq_refl _ _ eq_refl);
    apply (bool_decide_unpack _); reflexivity.
Defined.

(* ===================================================================== *)
(** ** The listing collector *)
(* ===================================================================== *)

Section DomainFacts.

Lemma listing_domain_first (url : str) (n : nat) :
  first_at url (lit "/s-") n → listing_domain url = Ok (take n url).
Proof.
  intros Hn. unfold listing_domain.
  by rewrite (first_at_contains _ _ _ Hn), (split_first _ _ n).
Qed.

Lemma listing_domain_none (url : str) :
  contains url (lit "/s-") = false →
  listing_domain url = Ok (lit "https://www.dd373.com").
Proof. intros Hc. unfold listing_domain. by rewrite Hc. Qed.

Lemma listing_domain_defined (url : str) : ∃ d, listing_domain url = Ok d.
Proof.
  destruct (contains url (lit "/s-")) eqn:Hc.
  - destruct (contains_first_at _ _ Hc) as [n Hn]. exists (take n url).
    by apply listing_domain_first.
  - eexists. by apply listing_domain_none.
Qed.

(** X21. The domain that [get_dd373_listings] resolves links against is
    always defined: it is the text of the URL before its first ["/s-"], and
    ["https://www.dd373.com"] for a URL without ["/s-"]. *)
Theorem listing_domain_prefix (url : str) :
  ∃ d, listing_domain url = Ok d
       ∧ (contains url (lit "/s-") = false → d = lit "https://www.dd373.com")
       ∧ (∀ n, first_at url (lit "/s-") n → d = take n url).
Proof.
  destruct (contains url (lit "/s-")) eqn:Hc.
  - destruct (contains_first_at _ _ Hc) as [n Hn]. exists (take n url).
    split; [by apply listing_domain_first|]. split; [done|].
    intros m Hm. by rewrite (first_at_unique _ _ _ _ Hn Hm).
  - exists (lit "https://www.dd373.com").
    split; [by apply listing_domain_none|]. split; [done|].
    intros n Hn%first_at_contains. congruence.
Qed.

End DomainFacts.

Section CollectorFacts.
Context {F : Float}.

Implicit Types (h base : heap) (l listings : loc) (items : list Tag)
  (records : list DD373Product) (domain url : str) (soup : Tag).

Lemma result_bind_ok {A B : Type} (a : A) (k : A → result B) : (Ok a ≫= k) = k a.
Proof. done. Qed.

Lemma result_bind_raise {A B : Type} (e : exn) (k : A → result B) :
  (Raise e ≫= k) = Raise e.
Proof. done. Qed.

(** *** The records of a page *)

Lemma extract_records_ok items domain records :
  extract_records items domain = Ok records
  ↔ Forall2 (fun item r => from_html_element item domain = Ok r) items records.
Proof.
  revert records. induction items as [|item items IH]; intros records; simpl.
  - split; [by intros [= <-]; constructor|]. by intros ->%Forall2_nil_inv_l.
  - destruct (from_html_element item domain) as [r|e] eqn:Hr; simpl.
    + destruct (extract_records items domain) as [rs|e] eqn:Hrs; simpl.
      * split.
        -- intros [= <-]. constructor; [done|]. by apply IH.
        -- intros (r' & rs' & Hr' & Hrs' & ->)%Forall2_cons_inv_l.
           apply IH in Hrs'. congruence.
      * split; [done|].
        intros (r' & rs' & Hr' & Hrs' & ->)%Forall2_cons_inv_l.
        by apply IH in Hrs'.
    + split; [done|].
      intros (r' & rs' & Hr' & Hrs' & ->)%Forall2_cons_inv_l. congruence.
Qed.

(** The exception of a page is the exception of one of its containers. *)
Lemma extract_records_raise_cause items domain (e : exn) :
  extract_records items domain = Raise e →
  ∃ item, item ∈ items ∧ from_html_element item domain = Raise e.
Proof.
  induction items as [|item items IH]; simpl; [done|].
  destruct (from_html_element item domain) as [r|e'] eqn:Hr; simpl.
  - destruct (extract_records items domain) as [rs|e']; simpl; [done|].
    intros [= <-]. destruct (IH eq_refl) as (item' & Hin & Hraise).
    exists item'. split; [by apply list_elem_of_further|done].
  - intros [= <-]. exists item. split; [apply list_elem_of_here|done].
Qed.

(** A container that raises makes the page raise. *)
Lemma extract_records_raises items domain item (e : exn) :
  item ∈ items → from_html_element item domain = Raise e →
  ∃ e', extract_records items domain = Raise e'.
Proof.
  intros Hin Hraise. induction items as [|item' items IH]; [by apply elem_of_nil in Hin|].
  simpl. destruct (from_html_element item' domain) as [r|e'] eqn:Hr; simpl;
    [|by eexists].
  apply elem_of_cons in Hin as [->|Hin]; [congruence|].
  destruct (IH Hin) as [e' ->]. by eexists.
Qed.

(** *** The list that [get_dd373_listings] builds *)

Lemma extract_all_spec items domain listings :
  ∀ h (acc : list loc),
    h !! listings = Some (ObjList acc) →
    match extract_records items domain with
    | Ok records =>
        ∃ h' xs,
          extract_all items domain listings h = (h', Ok ())
          ∧ products_kept h h'
          ∧ h' !! listings = Some (ObjList (acc ++ xs))
          ∧ points_to h' xs records
          ∧ Forall (fun x => (length h ≤ x)%nat) xs
          ∧ NoDup xs
    | Raise e => (extract_all items domain listings h).2 = Raise e
    end.
Proof.
  induction items as [|item items IH]; intros h acc Hl;
    cbn [extract_records extract_all].
  - exists h, []. rewrite app_nil_r. split; [done|].
    split; [apply products_kept_refl|]. split; [done|].
    split; [constructor|]. split; constructor.
  - destruct (from_html_element item domain) as [p|e] eqn:Hp; [|done].
    set (h1 := h ++ [ObjProduct p]).
    assert (Hl1 : h1 !! listings = Some (ObjList acc))
      by (by apply lookup_app_l_Some).
    set (h2 := <[listings := ObjList (acc ++ [length h])]> h1).
    assert (Hrun : (lift (Ok p) ≫= fun product =>
                      alloc (ObjProduct product) ≫= fun x =>
                        append listings x ≫= fun _ =>
                          extract_all items domain listings) h
                   = extract_all items domain listings h2).
    { erewrite bind_ok by reflexivity. erewrite bind_ok by reflexivity.
      by erewrite bind_ok by (by apply append_ok). }
    rewrite Hrun. clear Hrun.
    assert (Hl2 : h2 !! listings = Some (ObjList (acc ++ [length h]))).
    { apply list_lookup_insert_eq. by eapply lookup_lt_Some. }
    assert (Hlen2 : length h2 = S (length h)).
    { subst h2 h1. rewrite length_insert, length_app. simpl. lia. }
    assert (Hx : h2 !! length h = Some (ObjProduct p)).
    { subst h2. rewrite list_lookup_insert_ne.
      - subst h1. by rewrite lookup_app_r, Nat.sub_diag.
      - apply lookup_lt_Some in Hl. lia. }
    assert (Hk2 : products_kept h h2).
    { eapply products_kept_trans; [apply products_kept_alloc|].
      by eapply products_kept_insert_list. }
    specialize (IH h2 (acc ++ [length h]) Hl2). clearbody h2. clear h1 Hl1.
    destruct (extract_records items domain) as [records|e]; simpl; [|done].
    destruct IH as (h' & xs & Hrest & Hk & Hl' & Hpts & Hnew & Hdup).
    exists h', (length h :: xs). split; [done|].
    split; [by eapply products_kept_trans|].
    split; [by rewrite <- app_assoc in Hl'|].
    split; [constructor; [by apply Hk|done]|].
    rewrite Hlen2 in Hnew. split.
    + constructor; [done|]. eapply Forall_impl; [exact Hnew|]. simpl. lia.
    + constructor; [|done]. intros Hin. rewrite Forall_forall in Hnew.
      specialize (Hnew _ Hin). lia.
Qed.

(** [get_dd373_listings] returns a new list that holds the records of the
    page, each in a new object, or raises what the extraction raises. *)
Lemma get_dd373_listings_values url soup h :
  match page_records url soup with
  | Ok records =>
      ∃ h' l xs,
        get_dd373_listings url soup h = (h', Ok l)
        ∧ (length h ≤ l)%nat
        ∧ h' !! l = Some (ObjList xs)
        ∧ points_to h' xs records
        ∧ Forall (fun x => (length h < x)%nat) xs
        ∧ NoDup xs
  | Raise e => (get_dd373_listings url soup h).2 = Raise e
  end.
Proof.
  unfold page_records, get_dd373_listings.
  destruct (listing_domain url) as [d|e]; [|done].
  rewrite result_bind_ok.
  erewrite bind_ok by reflexivity. cbv zeta. erewrite bind_ok by reflexivity.
  pose proof (extract_all_spec (select goods_list_item soup) d (length h)
                (h ++ [ObjList []]) []) as Hspec.
  rewrite lookup_app_r, Nat.sub_diag in Hspec by done. specialize (Hspec eq_refl).
  destruct (extract_records _ d) as [records|e].
  - destruct Hspec as (h' & xs & Hrun & _ & Hl & Hpts & Hnew & Hdup).
    exists h', (length h), xs. split; [by erewrite bind_ok by exact Hrun|].
    split; [done|]. split; [done|]. split; [done|]. split; [|done].
    eapply Forall_impl; [exact Hnew|]. intros x. rewrite length_app. simpl. lia.
  - unfold mbind, M_bind.
    destruct (extract_all _ d (length h) (h ++ [ObjList []])) as [h' r].
    simpl in Hspec. by subst r.
Qed.

(** [get_dd_min_price] on a page returns what [min_price_of] computes from
    the records of the page. *)
Lemma get_dd_min_price_of_page_values (DD_STOCKMIN DD_LEVELMIN : option Z)
    url soup h :
  (get_dd_min_price_of_page DD_STOCKMIN DD_LEVELMIN url soup h).2
  = (records ← page_records url soup;
     min_price_of DD_STOCKMIN DD_LEVELMIN records).
Proof.
  unfold get_dd_min_price_of_page. erewrite bind_ok by reflexivity.
  pose proof (get_dd373_listings_values url soup (h ++ [ObjList []])) as Hlist.
  destruct (page_records url soup) as [records|e].
  - destruct Hlist as (h' & l & xs & Hrun & _ & Hl & Hpts & _).
    erewrite bind_ok by exact Hrun. rewrite result_bind_ok.
    by eapply get_dd_min_price_values.
  - unfold mbind, M_bind.
    destruct (get_dd373_listings url soup (h ++ [ObjList []])) as [h' r].
    simpl in Hlist. by subst r.
Qed.

(** *** Nothing that exists is changed *)

Lemma keeps_extract_all base items domain listings :
  (length base ≤ listings)%nat →
  keeps base (extract_all items domain listings) (fun _ => True).
Proof.
  intros Hl. induction items as [|item items IH]; simpl.
  - by apply keeps_ret.
  - eapply keeps_bind; [apply keeps_lift|]. intros product _.
    eapply keeps_bind; [apply keeps_alloc|]. intros x _.
    eapply keeps_bind; [by apply keeps_append|]. intros _ _. apply IH.
Qed.

Lemma keeps_get_dd373_listings base url soup :
  keeps base (get_dd373_listings url soup) (fun l => (length base ≤ l)%nat).
Proof.
  unfold get_dd373_listings.
  eapply keeps_bind; [apply keeps_lift|]. intros d _. cbv zeta.
  eapply keeps_bind; [apply keeps_alloc|]. intros listings Hl.
  eapply keeps_bind; [by apply keeps_extract_all|]. intros _ _.
  by apply keeps_ret.
Qed.

Lemma keeps_get_dd_min_price_of_page base (DD_STOCKMIN DD_LEVELMIN : option Z)
    url soup :
  keeps base (get_dd_min_price_of_page DD_STOCKMIN DD_LEVELMIN url soup)
        (fun _ => True).
Proof.
  unfold get_dd_min_price_of_page.
  eapply keeps_bind; [apply keeps_alloc|]. intros unused _.
  eapply keeps_bind; [apply keeps_get_dd373_listings|]. intros list_offers _.
  apply keeps_get_dd_min_price.
Qed.

(** *** Properties *)

(** X22. When every listing container of the page yields a record,
    [get_dd373_listings] returns a new list with one new object per
    container, in document order, each holding the record of its container;
    no object is in the list twice, and nothing that existed before is
    changed. *)
Theorem get_dd373_listings_new_objects url soup (d : str) records h :
  listing_domain url = Ok d →
  Forall2 (fun item r => from_html_element item d = Ok r)
          (select goods_list_item soup) records →
  ∃ h' l xs,
    get_dd373_listings url soup h = (h', Ok l)
    ∧ h `prefix_of` h'
    ∧ h !! l = None
    ∧ h' !! l = Some (ObjList xs)
    ∧ points_to h' xs records
    ∧ Forall (fun x => h !! x = None) xs
    ∧ NoDup xs.
Proof.
  intros Hd Hall%extract_records_ok.
  pose proof (get_dd373_listings_values url soup h) as Hlist.
  unfold page_records in Hlist. rewrite Hd in Hlist. simpl in Hlist.
  rewrite Hall in Hlist.
  destruct Hlist as (h' & l & xs & Hrun & Hl & Hl' & Hpts & Hnew & Hdup).
  exists h', l, xs. split; [done|]. split.
  { destruct (keeps_get_dd373_listings h url soup h) as [Hpre _]; [done|].
    by rewrite Hrun in Hpre. }
  split; [by apply lookup_ge_None|]. split; [done|]. split; [done|].
  split; [|done]. eapply Forall_impl; [exact Hnew|].
  intros x Hx. simpl in Hx. apply lookup_ge_None. lia.
Qed.

End CollectorFacts.

Section PageProperties.
Context {F : Float} {L : FloatLaws F}.

Implicit Types (h : heap) (url domain : str) (soup : Tag).

(** X23. One listing container on which the extractor raises makes the whole
    page fail: [get_dd373_listings] raises, and so does [get_dd_min_price],
    whatever the other listings and the thresholds are; the exception is a
    [ValueError] or an [OverflowError] of the extractor. *)
Theorem one_bad_listing_aborts_page url soup (d : str) (item : Tag) (e : exn) :
  listing_domain url = Ok d →
  item ∈ select goods_list_item soup →
  from_html_element item d = Raise e →
  ∀ (DD_STOCKMIN DD_LEVELMIN : option Z) h,
    ∃ e', (get_dd373_listings url soup h).2 = Raise e'
          ∧ (get_dd_min_price_of_page DD_STOCKMIN DD_LEVELMIN url soup h).2 = Raise e'
          ∧ (e' = ValueError ∨ e' = OverflowError).
Proof.
  intros Hd Hin Hraise smin lmin h.
  destruct (extract_records_raises _ _ _ _ Hin Hraise) as [e' He'].
  assert (Hpage : page_records url soup = Raise e').
  { unfold page_records. by rewrite Hd. }
  exists e'. split; [|split].
  - pose proof (get_dd373_listings_values url soup h) as Hlist.
    by rewrite Hpage in Hlist.
  - by rewrite get_dd_min_price_of_page_values, Hpage.
  - apply extract_records_raise_cause in He' as (item' & _ & Hitem').
    by eapply from_html_element_raises.
Qed.

(** X24. Links are resolved against the search URL: for a URL with ["/s-"]
    at index [n], the URL of every record whose title link starts with ['/']
    is the first [n] characters of the search URL followed by that link. *)
Theorem relative_links_use_search_domain url soup (n : nat)
    (records : list DD373Product) :
  first_at url (lit "/s-") n →
  page_records url soup = Ok records →
  Forall2 (fun item r =>
             ∀ title_elem,
               select_one (by_class "goods-list-title") item = Some title_elem →
               startswith (get_href title_elem) (lit "/") = true →
               Offers.url r = take n url ++ get_href title_elem)
          (select goods_list_item soup) records.
Proof.
  intros Hn. unfold page_records.
  rewrite (listing_domain_first url n Hn), result_bind_ok.
  intros Hall%extract_records_ok. eapply Forall2_impl; [exact Hall|].
  intros item r Hok title_elem Hsel Hslash.
  apply from_html_element_title_fields in Hok. unfold title_fields in Hok.
  injection Hok as _ -> _. unfold step_title. rewrite Hsel. cbv zeta.
  rewrite Hslash. destruct (get_href title_elem) as [|c href]; [done|].
  by repeat case_match.
Qed.

(** X25. [get_dd_min_price] from the page on.  An exception of the
    extraction of a container is its exception.  When every container yields
    a record and the rate line of every record gives a key that is a number,
    its result is what [min_price_of] computes from the records, in the
    order of the page.  On a page without listing container it returns
    [None].  A single record whose rate line has no number after its ['=']
    makes it raise [ValueError], whatever the thresholds.  It changes no
    object that exists when it is called. *)
Theorem get_dd_min_price_of_page_result (DD_STOCKMIN DD_LEVELMIN : option Z)
    url soup h :
  let r := (get_dd_min_price_of_page DD_STOCKMIN DD_LEVELMIN url soup h).2 in
  (∀ e, page_records url soup = Raise e → r = Raise e)
  ∧ (∀ records ks,
       page_records url soup = Ok records →
       sort_keys records = Ok ks → Forall (fun k => float_isnan k = false) ks →
       r = min_price_of DD_STOCKMIN DD_LEVELMIN records)
  ∧ (select goods_list_item soup = [] → r = Ok None)
  ∧ (∀ records record,
       page_records url soup = Ok records → record ∈ records →
       sort_key record = Raise ValueError → r = Raise ValueError)
  ∧ h `prefix_of` (get_dd_min_price_of_page DD_STOCKMIN DD_LEVELMIN url soup h).1.
Proof.
  intros r. subst r. rewrite get_dd_min_price_of_page_values.
  split; [by intros e ->|]. split; [by intros records ks -> _ _|].
  split; [|split].
  - intros Hnone. unfold page_records. rewrite Hnone.
    destruct (listing_domain_defined url) as [d ->]. done.
  - intros records record -> Hin Hkey. rewrite result_bind_ok.
    apply (min_price_of_cases DD_STOCKMIN DD_LEVELMIN records).
    apply Exists_exists. by exists record.
  - by destruct (keeps_get_dd_min_price_of_page h DD_STOCKMIN DD_LEVELMIN url soup h).
Qed.

End PageProperties.

(** *** The properties of the collector on the sample pages *)

(** The domain of the sample search URL. *)
Example listing_domain_example :
  listing_domain search_url = Ok domain
  ∧ listing_domain (lit "https://example.org/list") = Ok domain.
Proof. split; reflexivity. Qed.

Lemma get_dd373_listings_new_objects_witness :
  ∃ h' l xs,
    get_dd373_listings search_url sample_page [] = (h', Ok l)
    ∧ [] `prefix_of` h'
    ∧ ([] : heap) !! l = None
    ∧ h' !! l = Some (ObjList xs)
    ∧ points_to h' xs [full_product; bare_product]
    ∧ Forall (fun x => ([] : heap) !! x = None) xs
    ∧ NoDup xs.
Proof.
  refine (get_dd373_listings_new_objects search_url sample_page domain
            [full_product; bare_product] [] eq_refl _).
  change (select goods_list_item sample_page)
    with [page_item (contents full_listing); page_item (contents bare_listing)].
  repeat constructor.
Defined.

Lemma one_bad_listing_aborts_page_witness :
  ∃ e', (get_dd373_listings search_url bad_page []).2 = Raise e'
        ∧ (get_dd_min_price_of_page (Some 0) (Some 0) search_url bad_page []).2
          = Raise e'
        ∧ (e' = ValueError ∨ e' = OverflowError).
Proof.
  refine (one_bad_listing_aborts_page search_url bad_page domain
            (page_item (contents superscript_listing)) ValueError eq_refl _ eq_refl
            (Some 0) (Some 0) []).
  change (select goods_list_item bad_page)
    with [page_item (contents full_listing); page_item (contents superscript_listing)].
  apply list_elem_of_further, list_elem_of_here.
Defined.

Lemma relative_links_use_search_domain_witness :
  first_at search_url (lit "/s-") 21
  ∧ page_records search_url sample_page = Ok [full_product; bare_product]
  ∧ Forall2 (fun item r =>
               ∀ title_elem,
                 select_one (by_class "goods-list-title") item = Some title_elem →
                 startswith (get_href title_elem) (lit "/") = true →
                 url r = take 21 search_url ++ get_href title_elem)
            (select goods_list_item sample_page) [full_product; bare_product].
Proof.
  assert (Hfirst : first_at search_url (lit "/s-") 21) by first_at_here.
  assert (Hpage : page_records search_url sample_page = Ok [full_product; bare_product])
    by reflexivity.
  split; [exact Hfirst|]. split; [exact Hpage|].
  exact (relative_links_use_search_domain search_url sample_page 21%nat
           [full_product; bare_product] Hfirst Hpage).
Defined.

(** The sample page from end to end: with thresholds 1 and 1 only the full
    listing is valid; without thresholds the bare listing, at price [0.0],
    is the cheapest. *)
Example get_dd_min_price_of_page_example :
  (get_dd_min_price_of_page (Some 1) (Some 1) search_url sample_page []).2
  = Ok (Some (DFin 10310 100000, lit "1000 gold=100 yuan", 7000))
  ∧ (get_dd_min_price_of_page None None search_url sample_page []).2
    = Ok (Some (DFin 0 1, lit "gold", 0))
  ∧ (get_dd_min_price_of_page None None search_url (page []) []).2 = Ok None.
Proof. repeat split; reflexivity. Qed.

Lemma get_dd_min_price_of_page_result_witness :
  page_records search_url sample_page = Ok [full_product; bare_product]
  ∧ sort_keys [full_product; bare_product] = Ok [DFin 570 10000; DInf false]
  ∧ (get_dd_min_price_of_page (Some 1) (Some 1) search_url sample_page []).2
    = min_price_of (Some 1) (Some 1) [full_product; bare_product].
Proof.
  assert (Hpage : page_records search_url sample_page = Ok [full_product; bare_product])
    by reflexivity.
  assert (Hkeys : sort_keys [full_product; bare_product]
                  = Ok [DFin 570 10000; DInf false]) by reflexivity.
  split; [exact Hpage|]. split; [exact Hkeys|].
  refine (proj1 (proj2 (get_dd_min_price_of_page_result (Some 1) (Some 1) search_url
                          sample_page []))
            [full_product; bare_product] [DFin 570 10000; DInf false] Hpage Hkeys _).
  repeat constructor.
Defined.
